(** * Pairwise differential expression: aggregation pipeline of [pairwise_de.py]

    A shallow embedding of the class [Analysis] of [src/pairwise_de.py]: the
    job runner ([run_pairwise_edger], [_run_edger]), the classifier and the
    relocation of result files ([read_results]), the masking of matched
    tumor tables ([_produce_masks]), the rank aggregation ([_rank_results],
    [_remove_unrepresented_genes]) and the gene name mapping
    ([_add_mapped_genes]), and, in the last part, the reader of the
    annotation ([_remove_nonprotein_coding_genes]).

    Conventions of the embedding.
    - A parsed result table ([pd.read_csv(..., index_col=0)]) is the list of
      its rows in file order; the numeric cells are exact rationals ([Qc]),
      so every comparison with the threshold [0.001] is the comparison of the
      decimal values written in the file.  A gene id may label several rows
      of a table: [df.loc] then selects a frame, the value appended is a
      Series, and the pass of the ranking loop ends in [ValueError].
    - A directory is a finite map from file names to parsed tables.
    - The three [defaultdict(list)] accumulators are association lists in
      insertion order.
    - Python exceptions are the [Raise] results of an error monad.
    - The orders that the libraries leave open are parameters of the
      development: the order of [os.listdir], the order in which a Python 2
      dictionary enumerates its keys, and the row order that
      [DataFrame.sort_values] (default [kind='quicksort']) gives to rows
      with equal keys. *)

From Stdlib Require Import QArith Qcanon Reals Permutation Sorted Ascii.
From stdpp Require Import gmap strings list fin_maps.

(** ** Exceptions *)

Inductive exn : Type :=
  | RuntimeError (msg : string)
  | IOError (path : string)
  | ValueError (msg : string)
  | KeyError (key : string)
  | TypeError.

Inductive result (A : Type) : Type :=
  | Ok (a : A)
  | Raise (e : exn).
Arguments Ok {A} a.
Arguments Raise {A} e.

Global Instance result_ret : MRet result := fun A a => Ok a.

Global Instance result_bind : MBind result := fun A B k c =>
  match c with
  | Ok a => k a
  | Raise e => Raise e
  end.

(** [for x in xs: body], the loop stopping at the first exception. *)
Fixpoint for_each {A S : Type} (body : S → A → result S) (xs : list A) (s : S) : result S :=
  match xs with
  | [] => Ok s
  | x :: xs' => s' ← body s x; for_each body xs' s'
  end.

(** ** Python strings *)

Module PyStr.

(** [x.endswith(suffix)] *)
Definition endswith (x suffix : string) : bool :=
  let n := String.length x in
  let k := String.length suffix in
  (k <=? n) && String.eqb (String.substring (n - k) k x) suffix.

(** [x[:-k]]: everything but the last [k] characters, empty when [x] is
    not longer than [k]. *)
Definition drop_last (k : nat) (x : string) : string :=
  String.substring 0 (String.length x - k) x.

(** [sub in x] for a non-empty [sub]. *)
Definition contains (sub x : string) : bool :=
  match String.index 0 sub x with
  | Some _ => true
  | None => false
  end.

(** [x.replace(a, b)] for single characters [a] and [b]. *)
Fixpoint replace (a b : Ascii.ascii) (x : string) : string :=
  match x with
  | EmptyString => EmptyString
  | String c x' => String (if Ascii.eqb c a then b else c) (replace a b x')
  end.

(** [str(v)] of an optional string: [None] prints as its name. *)
Definition str (v : option string) : string := default "None" v.

End PyStr.

(** ** Numbers and numpy reductions *)

Definition threshold : Qc := Q2Qc (1 # 1000).

Definition Qc_of_nat (n : nat) : Qc := Q2Qc (inject_Z (Z.of_nat n)).

(** The non-negative square root of a rational, kept symbolic so that the
    tables stay computable; [sqrt_R] is its value. *)
Record sqrt_val : Type := Sqrt { radicand : Qc }.

Definition sqrt_R (s : sqrt_val) : R := sqrt (Q2R (this (radicand s))).

Definition np_sum (l : list Qc) : Qc := foldl Qcplus (Q2Qc 0) l.

(** [np.mean]; [None] stands for numpy's [nan], the mean of no values. *)
Definition np_mean (l : list Qc) : option Qc :=
  match l with
  | [] => None
  | _ => Some (np_sum l / Qc_of_nat (length l))%Qc
  end.

Fixpoint insert_sorted (x : Qc) (l : list Qc) : list Qc :=
  match l with
  | [] => [x]
  | y :: l' => if bool_decide (x ≤ y)%Qc then x :: l else y :: insert_sorted x l'
  end.

Definition np_sort (l : list Qc) : list Qc := foldr insert_sorted [] l.

(** [a[lo:hi]] for [0 <= lo]. *)
Definition slice {A : Type} (lo hi : nat) (l : list A) : list A :=
  take (hi - lo) (drop lo l).

(** [np.median]: the mean of the middle element, or of the two middle
    elements, of the sorted values. *)
Definition np_median (l : list Qc) : option Qc :=
  let part := np_sort l in
  let index := (length part / 2)%nat in
  if (length part mod 2 =? 1)%nat
  then np_mean (slice index (index + 1) part)
  else np_mean (slice (index - 1) (index + 1) part).

(** [np.std] (population standard deviation, [ddof=0]):
    [sqrt(mean(abs(x - x.mean())**2))]. *)
Definition np_std (l : list Qc) : option sqrt_val :=
  match np_mean l with
  | None => None
  | Some m =>
      match np_mean (map (fun x => (x - m) * (x - m))%Qc l) with
      | None => None
      | Some v => Some (Sqrt v)
      end
  end.

(** ** Data model *)

(** One row of a result file: the gene id (the index) and the three
    statistics of the differential expression test. *)
Record result_row : Type := {
  gene_id : string;
  PValue : Qc;
  logFC : Qc;
  logCPM : Qc
}.

(** A data frame read with [pd.read_csv(path, sep='\t', index_col=0)]. *)
Abbreviation table := (list result_row).

(** [df.index] *)
Definition index (df : table) : list string := map gene_id df.

(** What [df.loc[gene]] selects: the row of the label where the index has
    it once, the frame of its rows where the index repeats it. *)
Inductive selection : Type :=
  | one_row (r : result_row)
  | sub_frame (rows : table).

(** [df.loc[gene]]; a label that is not in the index raises [KeyError]. *)
Definition loc (df : table) (gene : string) : result selection :=
  match filter (fun r => gene_id r = gene) df with
  | [] => Raise (KeyError gene)
  | [r] => Ok (one_row r)
  | rows => Ok (sub_frame rows)
  end.

(** [df.loc[gene][column]]: a number from a row, a Series from a frame. *)
Inductive cell : Type :=
  | scalar (x : Qc)
  | sub_series (xs : list Qc).

Definition getitem (s : selection) (column : result_row → Qc) : cell :=
  match s with
  | one_row r => scalar (column r)
  | sub_frame rows => sub_series (map column rows)
  end.

(** [df[df.PValue < 0.001].index] *)
Definition significant (df : table) : list string :=
  index (filter (fun r => (PValue r < threshold)%Qc) df).

(** [df.drop(label, inplace=True)]: removes every row with that label and
    raises when no row has it; the exception is the [ValueError] of the
    pandas the code was written for, the one [_produce_masks] handles. *)
Definition drop_label (df : table) (label : string) : result table :=
  if bool_decide (label ∈ index df)
  then Ok (filter (fun r => gene_id r ≠ label) df)
  else Raise (ValueError "labels not contained in axis").

(** [try: c  except ValueError: handler] *)
Definition try_except_ValueError {A : Type} (c : result A) (handler : result A) : result A :=
  match c with
  | Raise (ValueError _) => handler
  | _ => c
  end.

(** One row of the ranked table built by [_rank_results]; the index of the
    frame is the column [gene]. *)
Record ranked_row : Type := {
  pval : option Qc;
  pval_counts : nat;
  pval_std : option sqrt_val;
  fc : option Qc;
  fc_std : option sqrt_val;
  cpm : option Qc;
  cpm_std : option sqrt_val;
  num_samples : nat;
  gene : string
}.

(** A row of the final table: the ranked row and the column [gene_name]
    added by [_add_mapped_genes]. *)
Record named_row : Type := {
  ranked : ranked_row;
  gene_name : string
}.

(** The directories the aggregation works on. *)
Inductive directory : Type :=
  | pairwise_dir
  | masked_dir
  | matched_dir
  | unmatched_dir.

Definition basename (d : directory) : string :=
  match d with
  | pairwise_dir => "pairwise_results"
  | masked_dir => "masked_results"
  | matched_dir => "matched_results"
  | unmatched_dir => "unmatched_results"
  end.

(** The file system: the tables of the four directories (the three result
    areas are sub-directories of [pairwise_results], their names do not end
    in [.tsv]), the [_masked_genes] text files of [masked_results], and the
    ranked tables of [results]. *)
Record filesys : Type := {
  pairwise_results : gmap string table;
  masked_results : gmap string table;
  matched_results : gmap string table;
  unmatched_results : gmap string table;
  masked_genes_files : gmap string string;
  results_dir : gmap string (list named_row)
}.

Definition dir (fs : filesys) (d : directory) : gmap string table :=
  match d with
  | pairwise_dir => pairwise_results fs
  | masked_dir => masked_results fs
  | matched_dir => matched_results fs
  | unmatched_dir => unmatched_results fs
  end.

Definition set_dir (fs : filesys) (d : directory) (m : gmap string table) : filesys :=
  match d with
  | pairwise_dir =>
      {| pairwise_results := m; masked_results := masked_results fs;
         matched_results := matched_results fs; unmatched_results := unmatched_results fs;
         masked_genes_files := masked_genes_files fs; results_dir := results_dir fs |}
  | masked_dir =>
      {| pairwise_results := pairwise_results fs; masked_results := m;
         matched_results := matched_results fs; unmatched_results := unmatched_results fs;
         masked_genes_files := masked_genes_files fs; results_dir := results_dir fs |}
  | matched_dir =>
      {| pairwise_results := pairwise_results fs; masked_results := masked_results fs;
         matched_results := m; unmatched_results := unmatched_results fs;
         masked_genes_files := masked_genes_files fs; results_dir := results_dir fs |}
  | unmatched_dir =>
      {| pairwise_results := pairwise_results fs; masked_results := masked_results fs;
         matched_results := matched_results fs; unmatched_results := m;
         masked_genes_files := masked_genes_files fs; results_dir := results_dir fs |}
  end.

Definition write_masked_genes (fs : filesys) (name : string) (text : string) : filesys :=
  {| pairwise_results := pairwise_results fs; masked_results := masked_results fs;
     matched_results := matched_results fs; unmatched_results := unmatched_results fs;
     masked_genes_files := <[name := text]> (masked_genes_files fs);
     results_dir := results_dir fs |}.

Definition write_results (fs : filesys) (name : string) (t : list named_row) : filesys :=
  {| pairwise_results := pairwise_results fs; masked_results := masked_results fs;
     matched_results := matched_results fs; unmatched_results := unmatched_results fs;
     masked_genes_files := masked_genes_files fs;
     results_dir := <[name := t]> (results_dir fs) |}.

Global Instance directory_eq_dec : EqDecision directory.
Proof. solve_decision. Defined.

(** [pd.read_csv(os.path.join(d, name), sep='\t', index_col=0)] *)
Definition read_csv (fs : filesys) (d : directory) (name : string) : result table :=
  match dir fs d !! name with
  | Some t => Ok t
  | None => Raise (IOError name)
  end.

(** [df.to_csv(os.path.join(d, name), sep='\t')] *)
Definition to_csv (fs : filesys) (d : directory) (name : string) (df : table) : filesys :=
  set_dir fs d (<[name := df]> (dir fs d)).

(** [shutil.move(os.path.join(src, name), os.path.join(dst, name))] *)
Definition shutil_move (fs : filesys) (src dst : directory) (name : string) : result filesys :=
  match dir fs src !! name with
  | Some t =>
      let fs' := set_dir fs src (delete name (dir fs src)) in
      Ok (set_dir fs' dst (<[name := t]> (dir fs' dst)))
  | None => Raise (IOError name)
  end.

(** ** The accumulators: [defaultdict(list)] in insertion order *)

Abbreviation accumulator := (list (string * list Qc)).

(** [d[k].append(v)]: a missing key is created with the empty list first. *)
Fixpoint dd_append (d : accumulator) (k : string) (v : Qc) : accumulator :=
  match d with
  | [] => [(k, [v])]
  | (k', l) :: d' =>
      if bool_decide (k' = k) then (k', l ++ [v]) :: d'
      else (k', l) :: dd_append d' k v
  end.

(** The list read by [d[k]]; for a missing key it is the empty list. *)
Fixpoint dd_get (d : accumulator) (k : string) : list Qc :=
  match d with
  | [] => []
  | (k', l) :: d' => if bool_decide (k' = k) then l else dd_get d' k
  end.

(** The keys, in the order of their first insertion. *)
Definition dd_keys (d : accumulator) : list string := map fst d.

(** [d.pop(k)]: removes the key, [None] when it is missing (a [KeyError]). *)
Fixpoint dd_pop (d : accumulator) (k : string) : option accumulator :=
  match d with
  | [] => None
  | (k', l) :: d' =>
      if bool_decide (k' = k) then Some d'
      else cons (k', l) <$> dd_pop d' k
  end.

(** ** The [Analysis] object *)

(** The attributes of [Analysis] that the aggregation reads and writes.
    [gene_map] holds the rows [(geneId, geneName)] of the mapping table
    whose path the object stores; [tissue_columns] the column names of the
    tissue table at [df_path]. *)
Record analysis : Type := {
  tissue_columns : list string;
  gene_map : list (string * string);
  self_tcga_names : list string;
  self_dfs : list string;
  self_num_samples : option nat;
  self_genes : list string;
  self_pvals : accumulator;
  self_fc : accumulator;
  self_cpm : accumulator
}.

(** [Analysis.__init__] *)
Definition __init__ (columns : list string) (mapping : list (string * string)) : analysis :=
  {| tissue_columns := columns; gene_map := mapping;
     self_tcga_names := []; self_dfs := []; self_num_samples := None;
     self_genes := [];
     self_pvals := []; self_fc := []; self_cpm := [] |}.

Definition set_tcga_names (st : analysis) (names : list string) : analysis :=
  {| tissue_columns := tissue_columns st; gene_map := gene_map st;
     self_tcga_names := names; self_dfs := self_dfs st;
     self_num_samples := self_num_samples st; self_genes := self_genes st;
     self_pvals := self_pvals st; self_fc := self_fc st; self_cpm := self_cpm st |}.

Definition set_dfs (st : analysis) (dfs : list string) : analysis :=
  {| tissue_columns := tissue_columns st; gene_map := gene_map st;
     self_tcga_names := self_tcga_names st; self_dfs := dfs;
     self_num_samples := Some (length dfs); self_genes := self_genes st;
     self_pvals := self_pvals st; self_fc := self_fc st; self_cpm := self_cpm st |}.

Definition set_genes (st : analysis) (genes : list string) : analysis :=
  {| tissue_columns := tissue_columns st; gene_map := gene_map st;
     self_tcga_names := self_tcga_names st; self_dfs := self_dfs st;
     self_num_samples := self_num_samples st; self_genes := genes;
     self_pvals := self_pvals st; self_fc := self_fc st; self_cpm := self_cpm st |}.

Definition set_accumulators (st : analysis) (p f c : accumulator) : analysis :=
  {| tissue_columns := tissue_columns st; gene_map := gene_map st;
     self_tcga_names := self_tcga_names st; self_dfs := self_dfs st;
     self_num_samples := self_num_samples st; self_genes := self_genes st;
     self_pvals := p; self_fc := f; self_cpm := c |}.

Definition newline : string := String "010"%char EmptyString.

(** [Counter(l)] *)
Definition Counter (l : list string) : gmap string nat :=
  foldl (fun m x => <[x := S (default 0%nat (m !! x))]> m) ∅ l.

(** The matched subjects of [read_results]: the barcodes counted exactly
    twice whose [.11.tsv] and [.01.tsv] files are both listed. *)
Definition matched_subjects (dfs : list string) : gset string :=
  let barcodes := map (PyStr.drop_last 7) dfs in
  let matched : gset string :=
    list_to_set (map fst (filter (fun ic => ic.2 = 2%nat) (map_to_list (Counter barcodes)))) in
  filter (fun x => x +:+ ".11.tsv" ∈ dfs ∧ x +:+ ".01.tsv" ∈ dfs) matched.

(** The file names of the matched subjects:
    [set([x+'.11.tsv' for x in matched] + [x+'.01.tsv' for x in matched])]. *)
Definition matched_files (matched : gset string) : gset string :=
  list_to_set (map (fun x => x +:+ ".11.tsv") (elements matched)
               ++ map (fun x => x +:+ ".01.tsv") (elements matched)).

(** The body of the inner loop of [_produce_masks]: the tumor table after
    the attempts to drop every gene of [masked_genes]. *)
Definition drop_masked (df_tumor : table) (masked_genes : list string) : result table :=
  for_each (fun df gene => try_except_ValueError (drop_label df gene) (Ok df))
           masked_genes df_tumor.

(** One pass of the loop of [_produce_masks], for the subject [match_]. *)
Definition mask_pair (fs : filesys) (match_ : string) : result filesys :=
  df_norm ← read_csv fs pairwise_dir (match_ +:+ ".11.tsv");
  let masked_genes := significant df_norm in
  df_tumor ← read_csv fs pairwise_dir (match_ +:+ ".01.tsv");
  df_tumor ← drop_masked df_tumor masked_genes;
  let fs := to_csv fs masked_dir (match_ +:+ ".01.tsv") df_tumor in
  Ok (write_masked_genes fs (match_ +:+ "_masked_genes")
        (String.concat newline masked_genes)).

(** [Analysis._produce_masks]; the set [matched] is walked in the order of
    its elements, every pass writes two files of its own. *)
Definition _produce_masks (fs : filesys) (matched : gset string) : result filesys :=
  for_each mask_pair (elements matched) fs.

(** A value on its way into an accumulator.  The accumulators of the
    embedding hold numbers.  A Series, which [append] takes as it takes a
    number, makes the test [y < 0.001] of the count in [_rank_results] raise
    [ValueError] (the truth value of a Series is ambiguous); no statement
    between the [append] and that test can raise, so the pass that appends
    a Series ends in this exception, and the embedding raises it where the
    Series appears. *)
Definition ambiguous_truth_value : string :=
  "The truth value of a Series is ambiguous. Use a.empty, a.bool(), a.item(), a.any() or a.all().".

Definition appended (v : cell) : result Qc :=
  match v with
  | scalar x => Ok x
  | sub_series _ => Raise (ValueError ambiguous_truth_value)
  end.

(** The three [append] calls of [_rank_results] for one gene of a file. *)
Definition accumulate_gene (df : table) (st : analysis) (gene : string) : result analysis :=
  p ← loc df gene ≫= (fun s => appended (getitem s PValue));
  f ← loc df gene ≫= (fun s => appended (getitem s logFC));
  c ← loc df gene ≫= (fun s => appended (getitem s logCPM));
  Ok (set_accumulators st
        (dd_append (self_pvals st) gene p)
        (dd_append (self_fc st) gene f)
        (dd_append (self_cpm st) gene c)).

(** [Analysis._remove_unrepresented_genes]; [int(n * 0.90)] is the integer
    part of nine tenths of [n].  Reading [self.pvals[gene]] creates a
    missing key. *)
Definition _remove_unrepresented_genes (st : analysis) (gene : string) : result analysis :=
  match self_num_samples st with
  | None => Raise TypeError
  | Some n =>
      let pvals := if bool_decide (gene ∈ dd_keys (self_pvals st)) then self_pvals st
                   else self_pvals st ++ [(gene, [])] in
      if (length (dd_get pvals gene) <? n * 9 / 10)%nat
      then match dd_pop pvals gene, dd_pop (self_fc st) gene, dd_pop (self_cpm st) gene with
           | Some p, Some f, Some c => Ok (set_accumulators st p f c)
           | _, _, _ => Raise (KeyError gene)
           end
      else Ok (set_accumulators st pvals (self_fc st) (self_cpm st))
  end.

(** [Analysis._add_mapped_genes]: the mapped names are computed along
    [self.genes] and assigned to the frame as a plain list, that is by
    position.  For a frame that has rows the assignment raises when the
    lengths differ.  A frame without rows takes the index of a list that is
    not empty, with [nan] in all its other columns, instead of raising: such
    a frame is not a value of the embedding, and the definition below is
    that of the code for a frame that has rows or a list that is empty,
    which is what [_rank_results], with its one row per gene of
    [self.genes], hands over. *)
Definition gene_mappings (id_map : list (string * string)) : gmap string string :=
  foldl (fun m xy => <[xy.1 := xy.2]> m) ∅ id_map.

(** [try: new_gene = gene_mappings[gene]  except KeyError: new_gene = gene] *)
Definition mapped_name (mappings : gmap string string) (gene : string) : string :=
  match mappings !! gene with
  | Some new_gene => new_gene
  | None => gene
  end.

Definition _add_mapped_genes (st : analysis) (df : list ranked_row) : result (list named_row) :=
  let mapped_genes := map (mapped_name (gene_mappings (gene_map st))) (self_genes st) in
  if bool_decide (length mapped_genes = length df)
  then Ok (zip_with (fun r n => {| ranked := r; gene_name := n |}) df mapped_genes)
  else Raise (ValueError "Length of values does not match length of index").

(** ** What the code takes from outside the repository *)

(** What one run of the external program does: its exit status, what it
    prints, and the result table it leaves in [pairwise_results]. *)
Record process : Type := {
  returncode : Z;
  stdout_text : string;
  stderr_text : string;
  result_file : option table
}.

(** [subprocess.Popen(args, stdout=..., stderr=...)]: a stream is
    captured only when it was opened as a pipe. *)
Record Popen : Type := {
  child : process;
  stdout_pipe : bool;
  stderr_pipe : bool
}.

(** [p.communicate()] *)
Definition communicate (p : Popen) : option string * option string :=
  (if stdout_pipe p then Some (stdout_text (child p)) else None,
   if stderr_pipe p then Some (stderr_text (child p)) else None).

(** A finished future holds the value of its call or the exception the
    call raised. *)
Definition future (A : Type) : Type := result A.

(** Walking the iterator that [executor.map] returns: the results in
    order, up to the exception of the first failed call, which is raised
    to the caller. *)
Fixpoint result_iterator {A : Type} (futures : list (future A)) : result (list A) :=
  match futures with
  | [] => Ok []
  | f :: futures' => x ← f; xs ← result_iterator futures'; Ok (x :: xs)
  end.

(** The behaviour the libraries and the operating system leave open, and
    the external program.
    - [listdir_order]: the order in which [os.listdir] returns the names of
      a directory;
    - [dict_keys_order]: the order in which a Python 2 dictionary
      enumerates its keys, from their insertion order;
    - [sort_values]: [ranked.sort_values('pval_counts', inplace=True,
      ascending=False)], whose default [kind='quicksort'] fixes no order
      among rows with equal keys;
    - [Rscript]: the run of [Rscript edgeR-pairwise-DE.R sample]. *)
Class Environment : Type := {
  listdir_order : list string → list string;
  dict_keys_order : list string → list string;
  sort_values : list ranked_row → list ranked_row;
  Rscript : string → process
}.

(** The row order of the ranked table: [pval_counts] descending. *)
Definition counts_descending (l : list ranked_row) : Prop :=
  StronglySorted (fun a b => (pval_counts b ≤ pval_counts a)%nat) l.

(** What the libraries do guarantee: the listings and the key enumeration
    are rearrangements of the names and of the keys, and the sort returns
    the rows rearranged by [pval_counts] descending. *)
Class Lawful (env : Environment) : Prop := {
  listdir_order_perm : ∀ l, listdir_order l ≡ₚ l;
  dict_keys_order_perm : ∀ l, dict_keys_order l ≡ₚ l;
  sort_values_perm : ∀ l, sort_values l ≡ₚ l;
  sort_values_sorted : ∀ l, counts_descending (sort_values l)
}.

Section Pipeline.

Context {env : Environment}.

Definition os_listdir (fs : filesys) (d : directory) : list string :=
  listdir_order (elements (dom (dir fs d))).

(** The row of one gene, from the three accumulators. *)
Definition rank_gene (st : analysis) (x : string) : ranked_row :=
  {| pval := np_median (dd_get (self_pvals st) x);
     pval_counts :=
       length (filter (fun y => (y < threshold)%Qc) (dd_get (self_pvals st) x));
     pval_std := np_std (dd_get (self_pvals st) x);
     fc := np_median (dd_get (self_fc st) x);
     fc_std := np_std (dd_get (self_fc st) x);
     cpm := np_median (dd_get (self_cpm st) x);
     cpm_std := np_std (dd_get (self_cpm st) x);
     num_samples := length (dd_get (self_pvals st) x);
     gene := x |}.

(** [Analysis._rank_results(directory, ranked)] for the empty frame
    [ranked] that [read_results] passes. *)
Definition _rank_results (st : analysis) (fs : filesys) (d : directory)
  : result (analysis * list ranked_row) :=
  st ← for_each (fun st f =>
          df ← read_csv fs d f;
          for_each (accumulate_gene df) (index df) st)
        (filter (fun x => PyStr.endswith x ".tsv" = true) (os_listdir fs d)) st;
  let st := set_genes st (dict_keys_order (dd_keys (self_pvals st))) in
  Ok (st, sort_values (map (rank_gene st) (self_genes st))).

(** The two relocation loops of [read_results]: the listed files that are
    not files of a matched subject go to the unmatched area, the files of
    the matched subjects to the matched area. *)
Definition relocate (dfs : list string) (matched : gset string) (fs : filesys) : result filesys :=
  fs ← for_each (fun fs unmatch => shutil_move fs pairwise_dir unmatched_dir unmatch)
        (elements (list_to_set dfs ∖ matched)) fs;
  for_each (fun fs match_ => shutil_move fs pairwise_dir matched_dir match_)
    (elements matched) fs.

(** One pass of the ranking loop of [read_results]. *)
Definition rank_directory (a : analysis * filesys) (d : directory) : result (analysis * filesys) :=
  '(st, ranked) ← _rank_results a.1 a.2 d;
  ranked ← _add_mapped_genes st ranked;
  Ok (st, write_results a.2 (basename d +:+ "-ranked.tsv") ranked).

(** [Analysis.read_results] *)
Definition read_results (st : analysis) (fs : filesys) : result (analysis * filesys) :=
  let st := set_dfs st (filter (fun x => PyStr.endswith x ".tsv" = true)
                               (os_listdir fs pairwise_dir)) in
  let matched := matched_subjects (self_dfs st) in
  fs ← _produce_masks fs matched;
  let matched := matched_files matched in
  fs ← relocate (self_dfs st) matched fs;
  for_each rank_directory [masked_dir; unmatched_dir] (st, fs).

(** *** The job runner *)

(** [Analysis._run_edger]: [Popen(['Rscript', script, sample])] opens no
    pipe. *)
Definition _run_edger (fs : filesys) (sample : string) : filesys * result string :=
  let p := {| child := Rscript sample; stdout_pipe := false; stderr_pipe := false |} in
  let fs := match result_file (child p) with
            | Some t => to_csv fs pairwise_dir (sample +:+ ".tsv") t
            | None => fs
            end in
  let '(out, err) := communicate p in
  if bool_decide (returncode (child p) ≠ 0%Z)
  then (fs, Raise (RuntimeError
          ("EdgeR run failed!" +:+ newline +:+ newline +:+ newline
           +:+ "stdout:" +:+ newline +:+ PyStr.str out
           +:+ "stderr:" +:+ newline +:+ PyStr.str err
           +:+ newline +:+ newline +:+ newline)))
  else (fs, Ok "yay!").

(** [executor.map(fn, xs)] inside [with ThreadPoolExecutor(...)]: every
    call is submitted, and all of them have finished when the block is
    left.  The calls write files of their own, so their effects are those
    of running them in the order of submission. *)
Definition executor_map (fn : filesys → string → filesys * result string)
    (xs : list string) (fs : filesys) : filesys * list (future string) :=
  foldl (fun acc x => let '(fs', r) := fn acc.1 x in (fs', acc.2 ++ [r])) (fs, []) xs.

(** [Analysis.run_pairwise_edger]: the iterator returned by
    [executor.map] is dropped. *)
Definition run_pairwise_edger (st : analysis) (fs : filesys) : result (analysis * filesys) :=
  let st := set_tcga_names st
    (map (PyStr.replace "-"%char "."%char)
         (filter (fun name => PyStr.contains "TCGA" name = true) (tissue_columns st))) in
  let '(fs, _) := executor_map _run_edger (self_tcga_names st) fs in
  Ok (st, fs).

(** [main], after the parsing of the arguments. *)
Definition main (columns : list string) (mapping : list (string * string)) (fs : filesys)
  : result (analysis * filesys) :=
  let a := __init__ columns mapping in
  '(a, fs) ← run_pairwise_edger a fs;
  read_results a fs.

End Pipeline.

(** * Properties *)

(** ** Strings *)

Lemma list_ascii_of_string_app (a b : string) :
  String.list_ascii_of_string (a +:+ b)
  = String.list_ascii_of_string a ++ String.list_ascii_of_string b.
Proof. induction a as [|c a IH]; simpl; [done | by rewrite IH]. Qed.

Lemma list_ascii_of_string_inj (a b : string) :
  String.list_ascii_of_string a = String.list_ascii_of_string b → a = b.
Proof.
  intros H. rewrite <- (String.string_of_list_ascii_of_string a).
  rewrite <- (String.string_of_list_ascii_of_string b). by rewrite H.
Qed.

(** Two subjects with the same file name are the same subject. *)
Lemma append_suffix_inj (suffix a b : string) : a +:+ suffix = b +:+ suffix → a = b.
Proof.
  intros H. apply list_ascii_of_string_inj.
  apply (f_equal String.list_ascii_of_string) in H.
  rewrite !list_ascii_of_string_app in H. by apply app_inv_tail in H.
Qed.

(** ** Lists *)

Lemma filter_all {A : Type} (P : A → Prop) `{∀ x, Decision (P x)} (l : list A) :
  Forall P l → filter P l = l.
Proof.
  induction 1 as [|x l Hx _ IH]; [done |].
  rewrite filter_cons_True by done. by rewrite IH.
Qed.

(** ** The mask engine *)

Lemma drop_label_filter (df : table) (g : string) :
  try_except_ValueError (drop_label df g) (Ok df)
  = Ok (filter (fun r => gene_id r ≠ g) df).
Proof.
  unfold drop_label. case_bool_decide as Hin; simpl; [done |].
  f_equal. symmetry. apply filter_all, Forall_forall.
  intros r Hr Heq. apply Hin. rewrite <- Heq. unfold index.
  apply list_elem_of_fmap. eauto.
Qed.

(** The inner loop of [_produce_masks] never raises: what it leaves of the
    tumor table are the rows whose gene is not flagged, in their order. *)
Lemma drop_masked_filter (masked_genes : list string) (df_tumor : table) :
  drop_masked df_tumor masked_genes
  = Ok (filter (fun r => gene_id r ∉ masked_genes) df_tumor).
Proof.
  unfold drop_masked. revert df_tumor.
  induction masked_genes as [|g genes IH]; intros df; simpl.
  - f_equal. symmetry. apply filter_all, Forall_forall.
    intros r _ Hr. by apply elem_of_nil in Hr.
  - rewrite drop_label_filter. simpl. rewrite IH. f_equal.
    rewrite list_filter_filter. apply list_filter_iff.
    intros r. rewrite not_elem_of_cons. tauto.
Qed.

Lemma elem_of_significant (df : table) (g : string) :
  g ∈ significant df ↔ ∃ r, r ∈ df ∧ gene_id r = g ∧ (PValue r < threshold)%Qc.
Proof.
  unfold significant, index. rewrite list_elem_of_fmap. split.
  - intros (r & -> & Hr). apply list_elem_of_filter in Hr as [Hp Hr]. eauto.
  - intros (r & Hr & <- & Hp). exists r. split; [done |].
    apply list_elem_of_filter. done.
Qed.

(** One pass of the mask engine, when both files of the subject exist. *)
Lemma mask_pair_ok (fs : filesys) (m : string) (df_norm df_tumor : table) :
  pairwise_results fs !! (m +:+ ".11.tsv") = Some df_norm →
  pairwise_results fs !! (m +:+ ".01.tsv") = Some df_tumor →
  mask_pair fs m
  = Ok (write_masked_genes
          (to_csv fs masked_dir (m +:+ ".01.tsv")
             (filter (fun r => gene_id r ∉ significant df_norm) df_tumor))
          (m +:+ "_masked_genes") (String.concat newline (significant df_norm))).
Proof.
  intros Hn Ht. unfold mask_pair, read_csv. simpl. rewrite Hn. simpl.
  rewrite Ht. simpl. rewrite drop_masked_filter. done.
Qed.

(** The loop of [_produce_masks] over subjects whose two files exist: it
    ends without an exception, leaves the input directory as it was, and
    the masked area holds, for every subject, the filtered tumor table and
    the list of the flagged genes. *)
Lemma produce_masks_loop (l : list string) (fs : filesys) :
  NoDup l →
  (∀ m, m ∈ l → is_Some (pairwise_results fs !! (m +:+ ".11.tsv"))
               ∧ is_Some (pairwise_results fs !! (m +:+ ".01.tsv"))) →
  ∃ fs', for_each mask_pair l fs = Ok fs'
    ∧ pairwise_results fs' = pairwise_results fs
    ∧ matched_results fs' = matched_results fs
    ∧ unmatched_results fs' = unmatched_results fs
    ∧ results_dir fs' = results_dir fs
    ∧ (∀ name, (∀ m, m ∈ l → name ≠ m +:+ ".01.tsv") →
         masked_results fs' !! name = masked_results fs !! name)
    ∧ (∀ name, (∀ m, m ∈ l → name ≠ m +:+ "_masked_genes") →
         masked_genes_files fs' !! name = masked_genes_files fs !! name)
    ∧ (∀ m df_norm df_tumor, m ∈ l →
         pairwise_results fs !! (m +:+ ".11.tsv") = Some df_norm →
         pairwise_results fs !! (m +:+ ".01.tsv") = Some df_tumor →
         masked_results fs' !! (m +:+ ".01.tsv")
         = Some (filter (fun r => gene_id r ∉ significant df_norm) df_tumor)
         ∧ masked_genes_files fs' !! (m +:+ "_masked_genes")
           = Some (String.concat newline (significant df_norm))).
Proof.
  intros Hnd. revert fs. induction Hnd as [|m l Hm Hnd IH]; intros fs Hfiles.
  - exists fs. do 7 (split; [done |]). intros m' ? ? Hin. by apply elem_of_nil in Hin.
  - destruct (Hfiles m) as [[n Hn] [t Ht]]; [left |].
    pose proof (mask_pair_ok fs m n t Hn Ht) as Hpass.
    set (fs1 := write_masked_genes _ _ _) in Hpass.
    destruct (IH fs1) as (fs' & Hloop & Hpw & Hma & Hun & Hre & Hframe & Hside & Hmask).
    { intros m' Hm'. apply Hfiles. by right. }
    exists fs'. simpl. rewrite Hpass. simpl. rewrite Hloop.
    split; [done |]. split; [by rewrite Hpw |]. split; [by rewrite Hma |].
    split; [by rewrite Hun |]. split; [by rewrite Hre |].
    split; [| split].
    + intros name Hname. rewrite Hframe.
      * simpl. apply lookup_insert_ne. intros Heq. by apply (Hname m); [left |].
      * intros m' Hm'. apply Hname. by right.
    + intros name Hname. rewrite Hside.
      * simpl. apply lookup_insert_ne. intros Heq. by apply (Hname m); [left |].
      * intros m' Hm'. apply Hname. by right.
    + intros m' df_norm df_tumor Hin Hn' Ht'.
      apply elem_of_cons in Hin as [-> | Hin].
      * rewrite Hn in Hn'. rewrite Ht in Ht'. simplify_eq. split.
        -- rewrite Hframe; [simpl; apply lookup_insert_eq |].
           intros m' Hm' Heq. apply append_suffix_inj in Heq. by subst.
        -- rewrite Hside; [simpl; apply lookup_insert_eq |].
           intros m' Hm' Heq. apply append_suffix_inj in Heq. by subst.
      * by apply (Hmask m' df_norm df_tumor).
Qed.

Lemma produce_masks_ok (fs : filesys) (matched : gset string) :
  (∀ m, m ∈ matched → is_Some (pairwise_results fs !! (m +:+ ".11.tsv"))
                     ∧ is_Some (pairwise_results fs !! (m +:+ ".01.tsv"))) →
  ∃ fs', _produce_masks fs matched = Ok fs'
    ∧ pairwise_results fs' = pairwise_results fs
    ∧ matched_results fs' = matched_results fs
    ∧ unmatched_results fs' = unmatched_results fs
    ∧ results_dir fs' = results_dir fs
    ∧ (∀ m df_norm df_tumor, m ∈ matched →
         pairwise_results fs !! (m +:+ ".11.tsv") = Some df_norm →
         pairwise_results fs !! (m +:+ ".01.tsv") = Some df_tumor →
         masked_results fs' !! (m +:+ ".01.tsv")
         = Some (filter (fun r => gene_id r ∉ significant df_norm) df_tumor)
         ∧ masked_genes_files fs' !! (m +:+ "_masked_genes")
           = Some (String.concat newline (significant df_norm))).
Proof.
  intros Hfiles. unfold _produce_masks.
  destruct (produce_masks_loop (elements matched) fs)
    as (fs' & Hloop & Hpw & Hma & Hun & Hre & _ & _ & Hmask).
  - apply NoDup_elements.
  - intros m Hm. apply Hfiles. by apply elem_of_elements.
  - exists fs'. do 5 (split; [done |]). intros m n t Hm. apply Hmask.
    by apply elem_of_elements.
Qed.

(** The file system of the example of the mask engine: the pair of the
    subject [P], whose normal table flags [g1] only. *)
Definition example_row (g : string) (p : Q) : result_row :=
  {| gene_id := g; PValue := Q2Qc p; logFC := Q2Qc 1; logCPM := Q2Qc 2 |}.

Definition empty_fs : filesys :=
  {| pairwise_results := ∅; masked_results := ∅; matched_results := ∅;
     unmatched_results := ∅; masked_genes_files := ∅; results_dir := ∅ |}.

Definition mask_example_fs : filesys :=
  set_dir empty_fs pairwise_dir
    (<["P.11.tsv" := [example_row "g1" 0.0001; example_row "g2" 0.5]]>
    (<["P.01.tsv" := [example_row "g1" 0.3; example_row "g2" 0.3; example_row "g3" 0.3]]> ∅)).

(** C5. For every matched pair whose two files are in the input directory,
    [_produce_masks] ends without an exception whatever the tumor table
    holds; the masked tumor table has exactly the rows of the tumor table
    whose gene has no row with [PValue < 0.001] in the normal table; and
    the [_masked_genes] file lists exactly the genes flagged in the normal
    table, joined by newlines, whether or not the tumor table has them. *)
Theorem mask_engine_removes_flagged_genes (fs : filesys) (matched : gset string)
    (Hfiles : ∀ m, m ∈ matched →
        is_Some (pairwise_results fs !! (m +:+ ".11.tsv"))
        ∧ is_Some (pairwise_results fs !! (m +:+ ".01.tsv"))) :
  ∃ fs', _produce_masks fs matched = Ok fs'
    ∧ ∀ m df_norm df_tumor, m ∈ matched →
        pairwise_results fs !! (m +:+ ".11.tsv") = Some df_norm →
        pairwise_results fs !! (m +:+ ".01.tsv") = Some df_tumor →
        ∃ out masked_genes,
          masked_results fs' !! (m +:+ ".01.tsv") = Some out
          ∧ masked_genes_files fs' !! (m +:+ "_masked_genes")
            = Some (String.concat newline masked_genes)
          ∧ (∀ g, g ∈ masked_genes ↔
                  ∃ n, n ∈ df_norm ∧ gene_id n = g ∧ (PValue n < threshold)%Qc)
          ∧ (∀ r, r ∈ out ↔ r ∈ df_tumor ∧ gene_id r ∉ masked_genes).
Proof.
  destruct (produce_masks_ok fs matched Hfiles) as (fs' & Hok & _ & _ & _ & _ & Hmask).
  exists fs'. split; [done |]. intros m n t Hm Hn Ht.
  destruct (Hmask m n t Hm Hn Ht) as [Hout Hside].
  eexists _, (significant n). split; [exact Hout |]. split; [exact Hside |]. split.
  - intros g. apply elem_of_significant.
  - intros r. rewrite list_elem_of_filter. tauto.
Qed.

Lemma mask_engine_removes_flagged_genes_witness :
  ∃ fs', _produce_masks mask_example_fs {["P"]} = Ok fs'
    ∧ index <$> masked_results fs' !! "P.01.tsv" = Some ["g2"; "g3"]
    ∧ masked_genes_files fs' !! "P_masked_genes" = Some "g1".
Proof.
  destruct (mask_engine_removes_flagged_genes mask_example_fs {["P"]})
    as (fs' & Hok & _).
  - intros m Hm. apply elem_of_singleton in Hm as ->. split; vm_compute; eauto.
  - exists fs'. split; [exact Hok |].
    vm_compute in Hok. injection Hok as <-. split; reflexivity.
Defined.

(** C9. The masked tumor table is the tumor table filtered: the rows that
    are not removed are the rows of the input, each with its [PValue],
    [logFC] and [logCPM], in the order of the input. *)
Theorem mask_engine_keeps_unmasked_rows (fs : filesys) (matched : gset string)
    (Hfiles : ∀ m, m ∈ matched →
        is_Some (pairwise_results fs !! (m +:+ ".11.tsv"))
        ∧ is_Some (pairwise_results fs !! (m +:+ ".01.tsv"))) :
  ∃ fs', _produce_masks fs matched = Ok fs'
    ∧ ∀ m df_norm df_tumor, m ∈ matched →
        pairwise_results fs !! (m +:+ ".11.tsv") = Some df_norm →
        pairwise_results fs !! (m +:+ ".01.tsv") = Some df_tumor →
        ∃ out,
          masked_results fs' !! (m +:+ ".01.tsv") = Some out
          ∧ out = filter (fun r => gene_id r ∉ significant df_norm) df_tumor
          ∧ out `sublist_of` df_tumor
          ∧ (∀ r, r ∈ df_tumor → gene_id r ∉ significant df_norm → r ∈ out).
Proof.
  destruct (produce_masks_ok fs matched Hfiles) as (fs' & Hok & _ & _ & _ & _ & Hmask).
  exists fs'. split; [done |]. intros m n t Hm Hn Ht.
  destruct (Hmask m n t Hm Hn Ht) as [Hout _].
  eexists. split; [exact Hout |]. split; [done |]. split.
  - apply sublist_filter.
  - intros r Hr Hg. by apply list_elem_of_filter.
Qed.

Lemma mask_engine_keeps_unmasked_rows_witness :
  ∃ fs', _produce_masks mask_example_fs {["P"]} = Ok fs'
    ∧ masked_results fs' !! "P.01.tsv"
      = Some [example_row "g2" 0.3; example_row "g3" 0.3].
Proof.
  destruct (mask_engine_keeps_unmasked_rows mask_example_fs {["P"]})
    as (fs' & Hok & Hrows).
  - intros m Hm. apply elem_of_singleton in Hm as ->. split; vm_compute; eauto.
  - exists fs'. split; [exact Hok |].
    destruct (Hrows "P" [example_row "g1" 0.0001; example_row "g2" 0.5]
                [example_row "g1" 0.3; example_row "g2" 0.3; example_row "g3" 0.3])
      as (out & Hout & -> & _); [by apply elem_of_singleton | reflexivity | reflexivity |].
    etrans; [exact Hout |]. vm_compute. reflexivity.
Defined.

(** ** The classifier *)

(** The number of files of a subject. *)
Definition occurrences (x : string) (l : list string) : nat :=
  length (filter (fun y => y = x) l).

Lemma Counter_foldl (l : list string) (m : gmap string nat) (x : string) :
  foldl (fun m x => <[x := S (default 0%nat (m !! x))]> m) m l !! x
  = match m !! x with
    | Some n => Some (n + occurrences x l)%nat
    | None => if decide (occurrences x l = 0%nat) then None else Some (occurrences x l)
    end.
Proof.
  revert m. induction l as [|y l IH]; intros m; simpl.
  - destruct (m !! x); [f_equal; unfold occurrences; simpl; lia | done].
  - rewrite IH. unfold occurrences. destruct (decide (y = x)) as [-> | Hne].
    + rewrite lookup_insert_eq. rewrite filter_cons_True by done. simpl.
      destruct (m !! x); simpl; f_equal; lia.
    + rewrite lookup_insert_ne by done. by rewrite filter_cons_False.
Qed.

Lemma Counter_lookup (l : list string) (x : string) (n : nat) :
  (0 < n)%nat → Counter l !! x = Some n ↔ occurrences x l = n.
Proof.
  intros Hn. unfold Counter. rewrite Counter_foldl, lookup_empty.
  case_decide as Hocc; split; intros Heq.
  - discriminate.
  - lia.
  - by injection Heq.
  - by rewrite Heq.
Qed.

Lemma elem_of_matched_subjects (dfs : list string) (x : string) :
  x ∈ matched_subjects dfs ↔
    occurrences x (map (PyStr.drop_last 7) dfs) = 2%nat
    ∧ x +:+ ".11.tsv" ∈ dfs ∧ x +:+ ".01.tsv" ∈ dfs.
Proof.
  unfold matched_subjects. rewrite elem_of_filter, elem_of_list_to_set.
  rewrite list_elem_of_fmap. split.
  - intros [Hfiles ([y n] & -> & Hin)]. split; [| done].
    apply list_elem_of_filter in Hin as [Hn Hin]. simpl in *. subst n.
    apply elem_of_map_to_list in Hin. by apply Counter_lookup in Hin; [| lia].
  - intros [Hocc Hfiles]. split; [done |]. exists (x, 2%nat). split; [done |].
    apply list_elem_of_filter. split; [done |].
    apply elem_of_map_to_list. apply Counter_lookup; [lia | done].
Qed.

Lemma elem_of_matched_files (matched : gset string) (name : string) :
  name ∈ matched_files matched ↔
    ∃ x, x ∈ matched ∧ (name = x +:+ ".11.tsv" ∨ name = x +:+ ".01.tsv").
Proof.
  unfold matched_files. rewrite elem_of_list_to_set, elem_of_app, !list_elem_of_fmap.
  split.
  - intros [(x & -> & Hx) | (x & -> & Hx)]; exists x; apply elem_of_elements in Hx; eauto.
  - intros (x & Hx & [-> | ->]); [left | right]; exists x;
      (split; [done | by apply elem_of_elements]).
Qed.

(** ** The file system *)

Lemma dir_set_dir_eq (fs : filesys) (d : directory) (m : gmap string table) :
  dir (set_dir fs d m) d = m.
Proof. by destruct d. Qed.

Lemma dir_set_dir_ne (fs : filesys) (d d' : directory) (m : gmap string table) :
  d ≠ d' → dir (set_dir fs d m) d' = dir fs d'.
Proof. by destruct d, d'. Qed.

Lemma masked_genes_files_set_dir (fs : filesys) (d : directory) (m : gmap string table) :
  masked_genes_files (set_dir fs d m) = masked_genes_files fs.
Proof. by destruct d. Qed.

Lemma results_dir_set_dir (fs : filesys) (d : directory) (m : gmap string table) :
  results_dir (set_dir fs d m) = results_dir fs.
Proof. by destruct d. Qed.

(** A loop of moves out of [pairwise_results], over distinct names that
    exist there: it ends without an exception; the files moved are in the
    target area with their contents and no more in the input directory;
    nothing else changes. *)
Lemma move_loop (dst : directory) (l : list string) (fs : filesys) :
  dst ≠ pairwise_dir →
  NoDup l →
  (∀ name, name ∈ l → is_Some (pairwise_results fs !! name)) →
  ∃ fs', for_each (fun fs name => shutil_move fs pairwise_dir dst name) l fs = Ok fs'
    ∧ (∀ name, pairwise_results fs' !! name
               = if decide (name ∈ l) then None else pairwise_results fs !! name)
    ∧ (∀ name, dir fs' dst !! name
               = if decide (name ∈ l) then pairwise_results fs !! name
                 else dir fs dst !! name)
    ∧ (∀ d, d ≠ pairwise_dir → d ≠ dst → dir fs' d = dir fs d)
    ∧ masked_genes_files fs' = masked_genes_files fs
    ∧ results_dir fs' = results_dir fs.
Proof.
  intros Hdst Hnd. revert fs. induction Hnd as [|n l Hn Hnd IH]; intros fs Hex.
  - exists fs. split; [done |]. split; [| split]; [| | done].
    + intros name. by rewrite decide_False by apply not_elem_of_nil.
    + intros name. by rewrite decide_False by apply not_elem_of_nil.
  - destruct (Hex n) as [t Ht]; [left |].
    set (fs0 := set_dir fs pairwise_dir (delete n (dir fs pairwise_dir))).
    set (fs1 := set_dir fs0 dst (<[n := t]> (dir fs0 dst))).
    assert (Hmove : shutil_move fs pairwise_dir dst n = Ok fs1).
    { unfold shutil_move. simpl. by rewrite Ht. }
    assert (Hpw1 : pairwise_results fs1 = delete n (pairwise_results fs)).
    { change (dir fs1 pairwise_dir = delete n (pairwise_results fs)).
      unfold fs1. rewrite dir_set_dir_ne by done. unfold fs0.
      by rewrite dir_set_dir_eq. }
    assert (Hdst1 : dir fs1 dst = <[n := t]> (dir fs dst)).
    { unfold fs1. rewrite dir_set_dir_eq. unfold fs0.
      by rewrite dir_set_dir_ne. }
    destruct (IH fs1) as (fs' & Hloop & Hpw & Hto & Hother & Hside & Hres).
    { intros name Hname. rewrite Hpw1. rewrite lookup_delete_ne; [apply Hex; by right |].
      intros ->. done. }
    exists fs'. simpl. rewrite Hmove. simpl. split; [done |].
    split; [| split; [| split; [| split]]].
    + intros name. rewrite Hpw, Hpw1. destruct (decide (name = n)) as [-> | Hne].
      * rewrite decide_False by done. rewrite decide_True by left.
        apply lookup_delete_eq.
      * rewrite lookup_delete_ne by done.
        destruct (decide (name ∈ l)).
        -- by rewrite decide_True by by right.
        -- rewrite decide_False; [done |]. rewrite not_elem_of_cons. done.
    + intros name. rewrite Hto, Hpw1, Hdst1. destruct (decide (name = n)) as [-> | Hne].
      * rewrite decide_False by done. rewrite decide_True by left.
        by rewrite lookup_insert_eq.
      * rewrite lookup_delete_ne by done. rewrite lookup_insert_ne by done.
        destruct (decide (name ∈ l)).
        -- by rewrite decide_True by by right.
        -- rewrite decide_False; [done |]. rewrite not_elem_of_cons. done.
    + intros d Hd1 Hd2. rewrite Hother by done. unfold fs1, fs0.
      rewrite !dir_set_dir_ne by done. done.
    + rewrite Hside. unfold fs1, fs0. by rewrite !masked_genes_files_set_dir.
    + rewrite Hres. unfold fs1, fs0. by rewrite !results_dir_set_dir.
Qed.

(** The relocation of the listed files [dfs], all present in the input
    directory, for a set [matched] of names among them. *)
Lemma relocate_ok (dfs : list string) (matched : gset string) (fs : filesys) :
  (∀ name, name ∈ dfs → is_Some (pairwise_results fs !! name)) →
  (∀ name, name ∈ matched → name ∈ dfs) →
  ∃ fs', relocate dfs matched fs = Ok fs'
    ∧ (∀ name, name ∈ dfs → pairwise_results fs' !! name = None)
    ∧ (∀ name, name ∈ dfs → name ∈ matched →
         matched_results fs' !! name = pairwise_results fs !! name)
    ∧ (∀ name, name ∈ dfs → name ∉ matched →
         unmatched_results fs' !! name = pairwise_results fs !! name)
    ∧ (∀ name, name ∉ matched → matched_results fs' !! name = matched_results fs !! name)
    ∧ (∀ name, name ∉ dfs ∨ name ∈ matched →
         unmatched_results fs' !! name = unmatched_results fs !! name)
    ∧ masked_results fs' = masked_results fs
    ∧ masked_genes_files fs' = masked_genes_files fs
    ∧ results_dir fs' = results_dir fs.
Proof.
  intros Hex Hsub. unfold relocate.
  destruct (move_loop unmatched_dir (elements (list_to_set dfs ∖ matched)) fs)
    as (fs1 & Hloop1 & Hpw1 & Hun1 & Hother1 & Hside1 & Hres1);
    [done | apply NoDup_elements | |].
  { intros name Hname. apply elem_of_elements, elem_of_difference in Hname as [Hname _].
    apply Hex. by apply elem_of_list_to_set in Hname. }
  destruct (move_loop matched_dir (elements matched) fs1)
    as (fs2 & Hloop2 & Hpw2 & Hma2 & Hother2 & Hside2 & Hres2);
    [done | apply NoDup_elements | |].
  { intros name Hname. apply elem_of_elements in Hname. rewrite Hpw1.
    rewrite decide_False; [by apply Hex, Hsub |].
    rewrite elem_of_elements, elem_of_difference. tauto. }
  exists fs2. rewrite Hloop1. simpl. rewrite Hloop2. split; [done |].
  assert (Hin1 : ∀ name, name ∈ elements (list_to_set dfs ∖ matched)
                         ↔ name ∈ dfs ∧ name ∉ matched).
  { intros name. by rewrite elem_of_elements, elem_of_difference, elem_of_list_to_set. }
  assert (Hin2 : ∀ name, name ∈ elements matched ↔ name ∈ matched).
  { intros name. apply elem_of_elements. }
  split; [| split; [| split; [| split; [| split; [| split; [| split]]]]]].
  - intros name Hname. rewrite Hpw2. case_decide as H2; [done |].
    rewrite Hpw1. rewrite decide_True; [done |]. apply Hin1. rewrite Hin2 in H2. done.
  - intros name Hname Hm. change (dir fs2 matched_dir !! name = pairwise_results fs !! name).
    rewrite Hma2. rewrite decide_True by by apply Hin2.
    rewrite Hpw1. rewrite decide_False; [done |]. rewrite Hin1. tauto.
  - intros name Hname Hm. change (dir fs2 unmatched_dir !! name = pairwise_results fs !! name).
    rewrite Hother2 by done. rewrite Hun1. rewrite decide_True; [done |]. by apply Hin1.
  - intros name Hm. change (dir fs2 matched_dir !! name = dir fs matched_dir !! name).
    rewrite Hma2. rewrite decide_False by by rewrite Hin2. by rewrite Hother1.
  - intros name Hm. change (dir fs2 unmatched_dir !! name = dir fs unmatched_dir !! name).
    rewrite Hother2 by done. rewrite Hun1. rewrite decide_False; [done |].
    rewrite Hin1. tauto.
  - change (dir fs2 masked_dir = dir fs masked_dir).
    rewrite Hother2 by done. by rewrite Hother1.
  - by rewrite Hside2.
  - by rewrite Hres2.
Qed.

(** ** Loops *)

Lemma bind_ok {A B : Type} (a : A) (k : A → result B) : Ok a ≫= k = k a.
Proof. reflexivity. Qed.

Lemma for_each_cons {A S : Type} (body : S → A → result S) (x : A) (xs : list A) (s : S) :
  for_each body (x :: xs) s = body s x ≫= for_each body xs.
Proof. reflexivity. Qed.

(** A loop whose body keeps an invariant [I] never raises; what each pass
    establishes for its element, [Q], holds at the end when later passes
    keep it. *)
Lemma for_each_post {A S : Type} (body : S → A → result S)
    (I : S → Prop) (Q : A → S → Prop) (xs : list A) (s : S) :
  I s →
  (∀ s x, x ∈ xs → I s →
     ∃ s', body s x = Ok s' ∧ I s' ∧ Q x s' ∧ ∀ y, Q y s → Q y s') →
  ∃ s', for_each body xs s = Ok s' ∧ I s'
    ∧ (∀ x, x ∈ xs → Q x s') ∧ (∀ y, Q y s → Q y s').
Proof.
  revert s. induction xs as [|x xs IH]; intros s Hs Hbody.
  - exists s. split; [done |]. split; [done |]. split; [| done].
    intros x Hx. by apply elem_of_nil in Hx.
  - destruct (Hbody s x) as (s1 & Hs1 & HI1 & HQ1 & Hkeep1); [left | done |].
    destruct (IH s1) as (s' & Hs' & HI' & HQ' & Hkeep'); [done | |].
    { intros s0 y Hy. apply Hbody. by right. }
    exists s'. simpl. rewrite Hs1. simpl. split; [done |]. split; [done |]. split.
    + intros y Hy. apply elem_of_cons in Hy as [-> | Hy]; [by apply Hkeep' | by apply HQ'].
    + intros y Hy. by apply Hkeep', Hkeep1.
Qed.

(** ** The accumulators *)

Lemma elem_of_dd_keys_append (d : accumulator) (k g : string) (v : Qc) :
  g ∈ dd_keys (dd_append d k v) ↔ g ∈ dd_keys d ∨ g = k.
Proof.
  unfold dd_keys. induction d as [|[k' l] d IH]; simpl.
  - rewrite list_elem_of_singleton. split; [by right | intros [H | H]; [| done]].
    by apply elem_of_nil in H.
  - case_bool_decide as Hk; simpl.
    + subst k'. rewrite elem_of_cons. split; [by left | intros [H | ->]; [done | by left]].
    + rewrite !elem_of_cons, IH. tauto.
Qed.

(** In a table with a unique index, the rows of a label are one row. *)
Lemma filter_gene_NoDup (df : table) (r : result_row) :
  NoDup (index df) → r ∈ df → filter (fun r' => gene_id r' = gene_id r) df = [r].
Proof.
  induction df as [|r0 df IH]; intros Hnd Hr; [by apply elem_of_nil in Hr |].
  change (index (r0 :: df)) with (gene_id r0 :: index df) in Hnd.
  apply NoDup_cons in Hnd as [Hr0 Hnd]. rewrite filter_cons.
  apply elem_of_cons in Hr as [-> | Hr].
  - rewrite decide_True by done. f_equal.
    clear IH Hnd. induction df as [|r1 df IH]; [done |].
    change (index (r1 :: df)) with (gene_id r1 :: index df) in Hr0.
    apply not_elem_of_cons in Hr0 as [Hne Hr0].
    rewrite filter_cons, decide_False by congruence. by apply IH.
  - rewrite decide_False; [by apply IH |].
    intros Heq. apply Hr0. rewrite Heq. unfold index. apply list_elem_of_fmap. eauto.
Qed.

(** In a table with a unique index, [df.loc] finds the row itself. *)
Lemma loc_NoDup (df : table) (r : result_row) :
  NoDup (index df) → r ∈ df → loc df (gene_id r) = Ok (one_row r).
Proof. intros Hnd Hr. unfold loc. by rewrite filter_gene_NoDup. Qed.

Lemma accumulate_gene_found (df : table) (st : analysis) (g : string) (r : result_row) :
  loc df g = Ok (one_row r) →
  accumulate_gene df st g
  = Ok (set_accumulators st
          (dd_append (self_pvals st) g (PValue r))
          (dd_append (self_fc st) g (logFC r))
          (dd_append (self_cpm st) g (logCPM r))).
Proof. intros Hloc. unfold accumulate_gene. by rewrite Hloc. Qed.

(** The accumulation of one file with a unique index never raises; it
    keeps the keys that were there and adds the genes of the file. *)
Lemma accumulate_file_ok (df : table) (st : analysis) :
  NoDup (index df) →
  ∃ st', for_each (accumulate_gene df) (index df) st = Ok st'
    ∧ gene_map st' = gene_map st
    ∧ (∀ g, g ∈ index df → g ∈ dd_keys (self_pvals st'))
    ∧ (∀ g, g ∈ dd_keys (self_pvals st) → g ∈ dd_keys (self_pvals st')).
Proof.
  intros Hnd.
  destruct (for_each_post (accumulate_gene df)
              (fun s => gene_map s = gene_map st)
              (fun g s => g ∈ dd_keys (self_pvals s)) (index df) st)
    as (st' & Hok & Hmap & Hnew & Hold); [done | | by exists st'].
  intros s g Hg Hs. unfold index in Hg. apply list_elem_of_fmap in Hg as (r & -> & Hr).
  eexists. rewrite (accumulate_gene_found df s (gene_id r) r) by by apply loc_NoDup.
  split; [done |]. split; [done |]. split.
  - apply elem_of_dd_keys_append. by right.
  - intros y Hy. apply elem_of_dd_keys_append. by left.
Qed.

(** ** The rank aggregation *)

Lemma zip_rows_names (df : list ranked_row) (names : list string) :
  length df = length names →
  map ranked (zip_with (fun r n => {| ranked := r; gene_name := n |}) df names) = df
  ∧ map gene_name (zip_with (fun r n => {| ranked := r; gene_name := n |}) df names)
    = names.
Proof.
  revert names. induction df as [|r df IH]; intros [|n names] Hlen; try done.
  simpl in *. destruct (IH names) as [H1 H2]; [lia |]. by rewrite H1, H2.
Qed.

(** The assignment of the column [gene_name] never raises on a frame that
    has one row per gene of [self.genes]; the names are those of
    [self.genes], in its order. *)
Lemma add_mapped_genes_ok (st : analysis) (df : list ranked_row) :
  length df = length (self_genes st) →
  ∃ tbl, _add_mapped_genes st df = Ok tbl
    ∧ map ranked tbl = df
    ∧ map gene_name tbl
      = map (mapped_name (gene_mappings (gene_map st))) (self_genes st).
Proof.
  intros Hlen. unfold _add_mapped_genes.
  rewrite bool_decide_eq_true_2 by (by rewrite length_map).
  eexists. split; [done |]. apply zip_rows_names. by rewrite length_map.
Qed.

(** ** Result tables with unique gene ids *)

(** Every table of the four areas has a unique index: no gene id is the
    label of two rows of a result file. *)
Definition unique_indexes (fs : filesys) : Prop :=
  ∀ d f t, dir fs d !! f = Some t → NoDup (index t).

Lemma index_filter_NoDup (P : result_row → Prop) `{∀ r, Decision (P r)} (t : table) :
  NoDup (index t) → NoDup (index (filter P t)).
Proof.
  intros Hnd. apply (sublist_NoDup _ (index t)); [done |].
  unfold index. apply fmap_sublist, sublist_filter.
Qed.

Lemma for_each_keeps {A S : Type} (body : S → A → result S) (Inv : S → Prop)
    (xs : list A) (s s' : S) :
  (∀ s x s1, Inv s → body s x = Ok s1 → Inv s1) →
  Inv s → for_each body xs s = Ok s' → Inv s'.
Proof.
  intros Hbody. revert s. induction xs as [|x xs IH]; intros s Hs Hrun.
  - injection Hrun as <-. done.
  - rewrite for_each_cons in Hrun.
    destruct (body s x) as [s1 | e] eqn:Hx; [| discriminate Hrun].
    rewrite bind_ok in Hrun. by apply (IH s1); [apply (Hbody s x) |].
Qed.

Lemma dir_write_masked_genes (fs : filesys) (name text : string) (d : directory) :
  dir (write_masked_genes fs name text) d = dir fs d.
Proof. by destruct d. Qed.

Lemma dir_write_results (fs : filesys) (name : string) (tbl : list named_row) (d : directory) :
  dir (write_results fs name tbl) d = dir fs d.
Proof. by destruct d. Qed.

Lemma to_csv_unique (fs : filesys) (d : directory) (name : string) (df : table) :
  unique_indexes fs → NoDup (index df) → unique_indexes (to_csv fs d name df).
Proof.
  intros Hfs Hdf d' f t. unfold to_csv. destruct (decide (d = d')) as [<- | Hne].
  - rewrite dir_set_dir_eq. intros Ht.
    apply lookup_insert_Some in Ht as [[_ <-] | [_ Ht]]; [done | by apply (Hfs d f)].
  - rewrite dir_set_dir_ne by done. apply Hfs.
Qed.

(** The mask engine keeps the indexes unique: a masked table is its tumor
    table without some of its rows. *)
Lemma produce_masks_unique (fs : filesys) (matched : gset string) (fs' : filesys) :
  unique_indexes fs → _produce_masks fs matched = Ok fs' → unique_indexes fs'.
Proof.
  unfold _produce_masks. apply for_each_keeps. clear fs fs'.
  intros fs m fs1 Hfs Hpass. unfold mask_pair, read_csv in Hpass.
  destruct (dir fs pairwise_dir !! (m +:+ ".11.tsv")) as [df_norm |] eqn:Hn;
    [| discriminate Hpass].
  rewrite bind_ok in Hpass.
  destruct (dir fs pairwise_dir !! (m +:+ ".01.tsv")) as [df_tumor |] eqn:Ht;
    [| discriminate Hpass].
  rewrite bind_ok, drop_masked_filter, bind_ok in Hpass. injection Hpass as <-.
  assert (Hnd : NoDup (index (filter (fun r => gene_id r ∉ significant df_norm) df_tumor))).
  { apply index_filter_NoDup. by apply (Hfs pairwise_dir _ _ Ht). }
  intros d f t. rewrite dir_write_masked_genes.
  exact (to_csv_unique fs masked_dir (m +:+ ".01.tsv") _ Hfs Hnd d f t).
Qed.

Lemma shutil_move_unique (fs : filesys) (src dst : directory) (name : string) (fs' : filesys) :
  unique_indexes fs → shutil_move fs src dst name = Ok fs' → unique_indexes fs'.
Proof.
  intros Hfs Hmove. unfold shutil_move in Hmove.
  destruct (dir fs src !! name) as [t |] eqn:Ht; [| discriminate Hmove].
  injection Hmove as <-.
  assert (Hfs0 : unique_indexes (set_dir fs src (delete name (dir fs src)))).
  { intros d f t'. destruct (decide (src = d)) as [<- | Hne].
    - rewrite dir_set_dir_eq. intros Hl. apply lookup_delete_Some in Hl as [_ Hl].
      by apply (Hfs src f).
    - rewrite dir_set_dir_ne by done. apply Hfs. }
  assert (Hnd : NoDup (index t)) by by apply (Hfs src name).
  exact (to_csv_unique _ dst name t Hfs0 Hnd).
Qed.

(** The relocation keeps the indexes unique: it moves tables as they are. *)
Lemma relocate_unique (dfs : list string) (matched : gset string) (fs fs' : filesys) :
  unique_indexes fs → relocate dfs matched fs = Ok fs' → unique_indexes fs'.
Proof.
  intros Hfs Hrun. unfold relocate in Hrun.
  destruct (for_each _ (elements (list_to_set dfs ∖ matched)) fs) as [fs1 | e] eqn:Hloop1;
    [| discriminate Hrun].
  rewrite bind_ok in Hrun.
  assert (Hfs1 : unique_indexes fs1).
  { revert Hloop1. apply for_each_keeps; [| done].
    intros s x s1 Hs. by apply shutil_move_unique. }
  revert Hrun. apply for_each_keeps; [| done].
  intros s x s1 Hs. by apply shutil_move_unique.
Qed.

(** The unique indexes of the tables of a given file system, by
    evaluation. *)
Ltac unique_by_evaluation :=
  lazymatch goal with
  | |- unique_indexes ?fs =>
      intros d;
      change (map_Forall (fun (_ : string) (t : table) => NoDup (index t)) (dir fs d));
      destruct d; compute_done
  | |- ∀ f t, PyStr.endswith f _ = true → dir ?fs ?d !! f = Some t → NoDup (index t) =>
      intros f t _; revert f t;
      change (map_Forall (fun (_ : string) (t : table) => NoDup (index t)) (dir fs d));
      compute_done
  | |- ∀ f t, dir ?fs ?d !! f = Some t → NoDup (index t) =>
      change (map_Forall (fun (_ : string) (t : table) => NoDup (index t)) (dir fs d));
      compute_done
  end.

Section PipelineFacts.

Context {env : Environment} {laws : Lawful env}.

(** The names listed are the names of the files of the directory. *)
Lemma elem_of_os_listdir (fs : filesys) (d : directory) (name : string) :
  name ∈ os_listdir fs d ↔ is_Some (dir fs d !! name).
Proof.
  unfold os_listdir. rewrite (listdir_order_perm (elements (dom (dir fs d)))).
  by rewrite elem_of_elements, elem_of_dom.
Qed.

(** The result files of a directory: the names listed that end in [.tsv]. *)
Definition result_files (fs : filesys) (d : directory) : list string :=
  filter (fun x => PyStr.endswith x ".tsv" = true) (os_listdir fs d).

Lemma elem_of_result_files (fs : filesys) (d : directory) (name : string) :
  name ∈ result_files fs d ↔
    PyStr.endswith name ".tsv" = true ∧ is_Some (dir fs d !! name).
Proof. unfold result_files. by rewrite list_elem_of_filter, elem_of_os_listdir. Qed.

(** [rank_directory], statement by statement. *)
Lemma rank_directory_unfold (st : analysis) (fs : filesys) (d : directory) :
  rank_directory (st, fs) d
  = (st0 ← for_each (fun st f => df ← read_csv fs d f;
                                 for_each (accumulate_gene df) (index df) st)
             (result_files fs d) st;
     let st' := set_genes st0 (dict_keys_order (dd_keys (self_pvals st0))) in
     ranked ← _add_mapped_genes st' (sort_values (map (rank_gene st') (self_genes st')));
     Ok (st', write_results fs (basename d +:+ "-ranked.tsv") ranked)).
Proof.
  unfold rank_directory, _rank_results, result_files. simpl.
  by destruct (for_each _ _ st).
Qed.

(** A pass of the ranking loop that ends without an exception has written
    the table [<directory>-ranked.tsv] and nothing else: the rows are the
    sort of the rows of [self.genes], the keys of [self.pvals] as the
    dictionary enumerates them, and the names are those of [self.genes] in
    its order. *)
Lemma rank_directory_inv (st : analysis) (fs : filesys) (d : directory)
    (st' : analysis) (fs' : filesys) :
  rank_directory (st, fs) d = Ok (st', fs') →
  ∃ tbl, fs' = write_results fs (basename d +:+ "-ranked.tsv") tbl
    ∧ self_genes st' = dict_keys_order (dd_keys (self_pvals st'))
    ∧ map ranked tbl = sort_values (map (rank_gene st') (self_genes st'))
    ∧ map gene_name tbl
      = map (mapped_name (gene_mappings (gene_map st'))) (self_genes st').
Proof.
  intros Hrun. rewrite rank_directory_unfold in Hrun.
  destruct (for_each _ _ st) as [st0 | e]; [| discriminate Hrun].
  rewrite bind_ok in Hrun. cbv zeta in Hrun.
  set (st1 := set_genes st0 (dict_keys_order (dd_keys (self_pvals st0)))) in Hrun.
  destruct (add_mapped_genes_ok st1 (sort_values (map (rank_gene st1) (self_genes st1))))
    as (tbl & Hadd & Hrows & Hnames).
  { by rewrite (sort_values_perm _), length_map. }
  rewrite Hadd, bind_ok in Hrun. injection Hrun as <- <-. exists tbl. done.
Qed.

(** On result files with unique indexes [_rank_results] never raises.  Its
    accumulators keep every key they had and have every gene of every
    result file of the directory; the frame it returns is the sort of the
    rows of [self.genes], the keys of [self.pvals] as the dictionary
    enumerates them. *)
Lemma rank_results_ok (st : analysis) (fs : filesys) (d : directory) :
  (∀ f t, PyStr.endswith f ".tsv" = true → dir fs d !! f = Some t → NoDup (index t)) →
  ∃ st', _rank_results st fs d
         = Ok (st', sort_values (map (rank_gene st') (self_genes st')))
    ∧ gene_map st' = gene_map st
    ∧ self_genes st' = dict_keys_order (dd_keys (self_pvals st'))
    ∧ (∀ g, g ∈ dd_keys (self_pvals st) → g ∈ dd_keys (self_pvals st'))
    ∧ (∀ f t g, PyStr.endswith f ".tsv" = true → dir fs d !! f = Some t →
         g ∈ index t → g ∈ dd_keys (self_pvals st')).
Proof.
  intros Hunique.
  destruct (for_each_post
              (fun st f => df ← read_csv fs d f; for_each (accumulate_gene df) (index df) st)
              (fun s => gene_map s = gene_map st
                        ∧ ∀ g, g ∈ dd_keys (self_pvals st) → g ∈ dd_keys (self_pvals s))
              (fun f s => ∀ t g, dir fs d !! f = Some t → g ∈ index t →
                                 g ∈ dd_keys (self_pvals s))
              (result_files fs d) st)
    as (st0 & Hok & [Hmap Hold] & Hnew & _); [done | |].
  - intros s f Hf [Hmap Hold].
    apply elem_of_result_files in Hf as [Hend [t Ht]].
    destruct (accumulate_file_ok t s (Hunique f t Hend Ht)) as (s' & Hs' & Hmap' & Hnew' & Hold').
    exists s'. unfold read_csv. rewrite Ht. simpl. split; [done |].
    split; [split; [congruence | auto] |]. split.
    + intros t' g Ht' Hg. injection Ht' as <-. auto.
    + intros f' Hf' t' g Ht' Hg. eauto.
  - exists (set_genes st0 (dict_keys_order (dd_keys (self_pvals st0)))).
    unfold _rank_results. fold (result_files fs d). rewrite Hok. simpl.
    split; [done |]. split; [done |]. split; [done |]. split; [done |].
    intros f t g Hf Ht Hg. apply (Hnew f) with t; [| done | done].
    apply elem_of_result_files. eauto.
Qed.

(** On result files with unique indexes one pass of the ranking loop never
    raises.  It writes the table [<directory>-ranked.tsv]: the rows are
    those of [_rank_results], the names those of [self.genes] in its
    order. *)
Lemma rank_directory_ok (st : analysis) (fs : filesys) (d : directory) :
  (∀ f t, PyStr.endswith f ".tsv" = true → dir fs d !! f = Some t → NoDup (index t)) →
  ∃ st' tbl,
    rank_directory (st, fs) d
    = Ok (st', write_results fs (basename d +:+ "-ranked.tsv") tbl)
    ∧ gene_map st' = gene_map st
    ∧ self_genes st' = dict_keys_order (dd_keys (self_pvals st'))
    ∧ map ranked tbl = sort_values (map (rank_gene st') (self_genes st'))
    ∧ map gene_name tbl
      = map (mapped_name (gene_mappings (gene_map st'))) (self_genes st')
    ∧ (∀ g, g ∈ dd_keys (self_pvals st) → g ∈ dd_keys (self_pvals st'))
    ∧ (∀ f t g, PyStr.endswith f ".tsv" = true → dir fs d !! f = Some t →
         g ∈ index t → g ∈ dd_keys (self_pvals st')).
Proof.
  intros Hunique.
  destruct (rank_results_ok st fs d Hunique) as (st' & Hrank & Hmap & Hgenes & Hold & Hnew).
  destruct (add_mapped_genes_ok st' (sort_values (map (rank_gene st') (self_genes st'))))
    as (tbl & Hadd & Hrows & Hnames).
  { by rewrite (sort_values_perm _), length_map. }
  exists st', tbl. unfold rank_directory. simpl. rewrite Hrank. simpl.
  rewrite Hadd. simpl. done.
Qed.

(** The two passes of the ranking loop write the two ranked tables and
    nothing else. *)
Lemma ranking_passes_inv (st : analysis) (fs : filesys) (st' : analysis) (fs' : filesys) :
  for_each rank_directory [masked_dir; unmatched_dir] (st, fs) = Ok (st', fs') →
  ∃ tbl1 tbl2,
    fs' = write_results (write_results fs (basename masked_dir +:+ "-ranked.tsv") tbl1)
            (basename unmatched_dir +:+ "-ranked.tsv") tbl2.
Proof.
  intros Hrun. rewrite for_each_cons in Hrun.
  destruct (rank_directory (st, fs) masked_dir) as [[st2 fs2] | e] eqn:Hr1;
    [| discriminate Hrun].
  rewrite bind_ok, for_each_cons in Hrun.
  destruct (rank_directory (st2, fs2) unmatched_dir) as [[st3 fs3] | e] eqn:Hr2;
    [| discriminate Hrun].
  rewrite bind_ok in Hrun. injection Hrun as <- <-.
  apply rank_directory_inv in Hr1 as (tbl1 & -> & _).
  apply rank_directory_inv in Hr2 as (tbl2 & -> & _).
  by exists tbl1, tbl2.
Qed.

(** The first stages of [read_results], for every content of the
    directories: neither the mask engine nor the relocation raises, and the
    two passes of the ranking loop follow.  The listed result files exist,
    the two files of every matched subject among them, and the mask engine
    leaves the input directory as it found it. *)
Lemma read_results_relocation (st : analysis) (fs : filesys) :
  let dfs := result_files fs pairwise_dir in
  let matched := matched_subjects dfs in
  ∃ fs1 fs2,
    _produce_masks fs matched = Ok fs1
    ∧ relocate dfs (matched_files matched) fs1 = Ok fs2
    ∧ read_results st fs
      = for_each rank_directory [masked_dir; unmatched_dir] (set_dfs st dfs, fs2)
    ∧ (∀ name, name ∈ dfs → is_Some (pairwise_results fs !! name))
    ∧ (∀ m, m ∈ matched → is_Some (pairwise_results fs !! (m +:+ ".11.tsv"))
                         ∧ is_Some (pairwise_results fs !! (m +:+ ".01.tsv")))
    ∧ (∀ name, name ∈ matched_files matched → name ∈ dfs)
    ∧ pairwise_results fs1 = pairwise_results fs.
Proof.
  intros dfs matched.
  assert (Hex : ∀ name, name ∈ dfs → is_Some (pairwise_results fs !! name)).
  { intros name Hname. by apply elem_of_result_files in Hname as [_ Hname]. }
  assert (Hpairs : ∀ m, m ∈ matched →
            is_Some (pairwise_results fs !! (m +:+ ".11.tsv"))
            ∧ is_Some (pairwise_results fs !! (m +:+ ".01.tsv"))).
  { intros m Hm. apply elem_of_matched_subjects in Hm as (_ & H11 & H01). auto. }
  assert (Hsub : ∀ name, name ∈ matched_files matched → name ∈ dfs).
  { intros name Hname. apply elem_of_matched_files in Hname as (x & Hx & Hname).
    apply elem_of_matched_subjects in Hx as (_ & H11 & H01).
    by destruct Hname as [-> | ->]. }
  destruct (produce_masks_ok fs matched Hpairs) as (fs1 & Hmasks & Hpw1 & _).
  destruct (relocate_ok dfs (matched_files matched) fs1) as (fs2 & Hreloc & _);
    [by rewrite Hpw1 | done |].
  exists fs1, fs2.
  split; [done |]. split; [done |]. split; [| done].
  unfold read_results. fold (result_files fs pairwise_dir). fold dfs.
  change (self_dfs (set_dfs st dfs)) with dfs. fold matched. cbv zeta.
  by rewrite Hmasks, bind_ok, Hreloc, bind_ok.
Qed.

(** The stages of [read_results] on result tables with unique indexes:
    none of them raises. *)
Lemma read_results_stages (st : analysis) (fs : filesys) :
  unique_indexes fs →
  let dfs := result_files fs pairwise_dir in
  let matched := matched_subjects dfs in
  ∃ fs1 fs2 st2 tbl1 st3 tbl2,
    let fs3 := write_results fs2 (basename masked_dir +:+ "-ranked.tsv") tbl1 in
    let fs4 := write_results fs3 (basename unmatched_dir +:+ "-ranked.tsv") tbl2 in
    _produce_masks fs matched = Ok fs1
    ∧ relocate dfs (matched_files matched) fs1 = Ok fs2
    ∧ rank_directory (set_dfs st dfs, fs2) masked_dir = Ok (st2, fs3)
    ∧ rank_directory (st2, fs3) unmatched_dir = Ok (st3, fs4)
    ∧ read_results st fs = Ok (st3, fs4)
    ∧ (∀ name, name ∈ dfs → is_Some (pairwise_results fs !! name))
    ∧ (∀ m, m ∈ matched → is_Some (pairwise_results fs !! (m +:+ ".11.tsv"))
                         ∧ is_Some (pairwise_results fs !! (m +:+ ".01.tsv")))
    ∧ (∀ name, name ∈ matched_files matched → name ∈ dfs)
    ∧ pairwise_results fs1 = pairwise_results fs.
Proof.
  intros Hunique dfs matched.
  destruct (read_results_relocation st fs)
    as (fs1 & fs2 & Hmasks & Hreloc & Hread & Hex & Hpairs & Hsub & Hpw1).
  fold dfs matched in Hmasks, Hreloc, Hread, Hex, Hpairs, Hsub.
  assert (Hunique2 : unique_indexes fs2).
  { apply (relocate_unique dfs (matched_files matched) fs1 fs2); [| done].
    by apply (produce_masks_unique fs matched). }
  destruct (rank_directory_ok (set_dfs st dfs) fs2 masked_dir) as (st2 & tbl1 & Hr1 & _).
  { intros f t _ Ht. by apply (Hunique2 masked_dir f t). }
  destruct (rank_directory_ok st2
              (write_results fs2 (basename masked_dir +:+ "-ranked.tsv") tbl1)
              unmatched_dir) as (st3 & tbl2 & Hr2 & _).
  { intros f t _ Ht. by apply (Hunique2 unmatched_dir f t). }
  exists fs1, fs2, st2, tbl1, st3, tbl2. cbv zeta.
  split; [done |]. split; [done |]. split; [exact Hr1 |].
  split; [exact Hr2 |]. split; [| done].
  rewrite Hread, for_each_cons, Hr1, bind_ok, for_each_cons, Hr2, bind_ok. done.
Qed.

(** C7. A subject is matched exactly when its barcode is that of two of
    the listed result files and both its [.11.tsv] and its [.01.tsv] file
    are listed.  For every content of the directories the mask engine and
    the relocation end without an exception, and the passes of the ranking
    loop follow.  After the relocation every listed file has left the
    input directory, the files of the matched subjects are in the matched
    area and not in the unmatched one, all the others in the unmatched area
    and not in the matched one, each with the contents it had; and the
    three areas are the same when [read_results] has ended. *)
Theorem classifier_matches_and_relocates (st : analysis) (fs : filesys) :
  let dfs := result_files fs pairwise_dir in
  let matched := matched_subjects dfs in
  (∀ x, x ∈ matched ↔
        occurrences x (map (PyStr.drop_last 7) dfs) = 2%nat
        ∧ x +:+ ".11.tsv" ∈ dfs ∧ x +:+ ".01.tsv" ∈ dfs)
  ∧ ∃ fs1 fs2,
      _produce_masks fs matched = Ok fs1
      ∧ relocate dfs (matched_files matched) fs1 = Ok fs2
      ∧ read_results st fs
        = for_each rank_directory [masked_dir; unmatched_dir] (set_dfs st dfs, fs2)
      ∧ (∀ name t, name ∈ dfs → pairwise_results fs !! name = Some t →
          pairwise_results fs2 !! name = None
          ∧ ((∃ x, x ∈ matched ∧ (name = x +:+ ".11.tsv" ∨ name = x +:+ ".01.tsv")) →
               matched_results fs2 !! name = Some t
               ∧ unmatched_results fs2 !! name = unmatched_results fs !! name)
          ∧ (¬ (∃ x, x ∈ matched ∧ (name = x +:+ ".11.tsv" ∨ name = x +:+ ".01.tsv")) →
               unmatched_results fs2 !! name = Some t
               ∧ matched_results fs2 !! name = matched_results fs !! name))
      ∧ ∀ st' fs', read_results st fs = Ok (st', fs') →
          pairwise_results fs' = pairwise_results fs2
          ∧ matched_results fs' = matched_results fs2
          ∧ unmatched_results fs' = unmatched_results fs2.
Proof.
  intros dfs matched. split; [apply elem_of_matched_subjects |].
  destruct (read_results_relocation st fs)
    as (fs1 & fs2 & Hmasks & Hreloc & Hread & Hex & Hpairs & Hsub & Hpw1).
  fold dfs matched in Hmasks, Hreloc, Hread, Hex, Hpairs, Hsub.
  destruct (produce_masks_ok fs matched Hpairs)
    as (fs1' & Hmasks' & _ & Hma1 & Hun1 & _).
  rewrite Hmasks in Hmasks'. injection Hmasks' as <-.
  destruct (relocate_ok dfs (matched_files matched) fs1)
    as (fs2' & Hreloc' & Hgone & Hto_ma & Hto_un & Hma_frame & Hun_frame & _);
    [by rewrite Hpw1 | done |].
  rewrite Hreloc in Hreloc'. injection Hreloc' as <-.
  exists fs1, fs2. split; [exact Hmasks |]. split; [exact Hreloc |].
  split; [exact Hread |]. split.
  - intros name t Hname Ht. split; [by apply Hgone |]. split.
    + intros Hm. apply elem_of_matched_files in Hm. split.
      * by rewrite Hto_ma, Hpw1.
      * rewrite Hun_frame by by right. by rewrite Hun1.
    + intros Hm. rewrite <- elem_of_matched_files in Hm. split.
      * by rewrite Hto_un, Hpw1.
      * rewrite Hma_frame by done. by rewrite Hma1.
  - intros st' fs' Hrun. rewrite Hread in Hrun.
    apply ranking_passes_inv in Hrun as (tbl1 & tbl2 & ->). done.
Qed.

Lemma ranked_table_has_gene (st : analysis) (tbl : list named_row) (g : string) :
  map ranked tbl = sort_values (map (rank_gene st) (self_genes st)) →
  self_genes st = dict_keys_order (dd_keys (self_pvals st)) →
  g ∈ dd_keys (self_pvals st) →
  ∃ row, row ∈ tbl ∧ gene (ranked row) = g.
Proof.
  intros Hrows Hgenes Hg.
  assert (Hin : rank_gene st g ∈ map ranked tbl).
  { rewrite Hrows, (sort_values_perm _). apply list_elem_of_fmap. exists g.
    split; [done |]. by rewrite Hgenes, (dict_keys_order_perm _). }
  apply list_elem_of_fmap in Hin as (row & Hrow & Hin).
  exists row. split; [done |]. by rewrite <- Hrow.
Qed.

Lemma ranked_names_distinct :
  basename masked_dir +:+ "-ranked.tsv" ≠ basename unmatched_dir +:+ "-ranked.tsv".
Proof. done. Qed.

(** C8. [read_results] never calls [_remove_unrepresented_genes]: on
    result tables with unique gene ids it ends without an exception, and
    the ranked table of each of the two result sets has a row for every
    gene of every result file of the set, in however few files the gene
    appears. *)
Theorem every_gene_of_a_result_set_is_ranked (st : analysis) (fs : filesys)
    (Hunique : unique_indexes fs) :
  ∃ st' fs', read_results st fs = Ok (st', fs')
    ∧ ∀ d, d = masked_dir ∨ d = unmatched_dir →
        ∃ tbl, results_dir fs' !! (basename d +:+ "-ranked.tsv") = Some tbl
          ∧ ∀ f t g, PyStr.endswith f ".tsv" = true → dir fs' d !! f = Some t →
              g ∈ index t → ∃ row, row ∈ tbl ∧ gene (ranked row) = g.
Proof.
  destruct (read_results_stages st fs Hunique)
    as (fs1 & fs2 & st2 & tbl1 & st3 & tbl2 & Hmasks & Hreloc & Hr1 & Hr2 & Hread & _).
  cbv zeta in Hr1, Hr2, Hread.
  assert (Hunique2 : unique_indexes fs2).
  { eapply relocate_unique; [| exact Hreloc].
    eapply produce_masks_unique; [exact Hunique | exact Hmasks]. }
  destruct (rank_directory_ok (set_dfs st (result_files fs pairwise_dir)) fs2 masked_dir)
    as (st2' & tbl1' & Hr1' & _ & Hgenes1 & Hrows1 & _ & _ & Hnew1).
  { intros f t _ Ht. by apply (Hunique2 masked_dir f t). }
  rewrite Hr1 in Hr1'. injection Hr1' as <- Htbl1.
  apply (f_equal (fun m => m !! (basename masked_dir +:+ "-ranked.tsv"))) in Htbl1.
  rewrite !lookup_insert_eq in Htbl1. injection Htbl1 as <-.
  destruct (rank_directory_ok st2
              (write_results fs2 (basename masked_dir +:+ "-ranked.tsv") tbl1)
              unmatched_dir)
    as (st3' & tbl2' & Hr2' & _ & Hgenes2 & Hrows2 & _ & _ & Hnew2).
  { intros f t _ Ht. by apply (Hunique2 unmatched_dir f t). }
  rewrite Hr2 in Hr2'. injection Hr2' as <- Htbl2.
  apply (f_equal (fun m => m !! (basename unmatched_dir +:+ "-ranked.tsv"))) in Htbl2.
  rewrite !lookup_insert_eq in Htbl2. injection Htbl2 as <-.
  eexists _, _. split; [exact Hread |]. intros d [-> | ->].
  - exists tbl1. split.
    + simpl. rewrite lookup_insert_ne by (symmetry; apply ranked_names_distinct).
      apply lookup_insert_eq.
    + intros f t g Hf Ht Hg. apply (ranked_table_has_gene st2); [done | done |].
      by apply (Hnew1 f t g).
  - exists tbl2. split; [apply lookup_insert_eq |].
    intros f t g Hf Ht Hg. apply (ranked_table_has_gene st3); [done | done |].
    by apply (Hnew2 f t g).
Qed.

(** C3, as the code has it.  On result files with unique gene ids one
    pass of the ranking loop writes a table whose rows are sorted by
    [pval_counts] descending and are the rows of the genes of the
    accumulator, one for each key, rearranged. *)
Theorem ranked_table_sorted_by_counts (st : analysis) (fs : filesys) (d : directory)
    (Hunique : ∀ f t, PyStr.endswith f ".tsv" = true → dir fs d !! f = Some t →
                 NoDup (index t)) :
  ∃ st' tbl,
    rank_directory (st, fs) d
    = Ok (st', write_results fs (basename d +:+ "-ranked.tsv") tbl)
    ∧ counts_descending (map ranked tbl)
    ∧ map ranked tbl ≡ₚ map (rank_gene st') (dd_keys (self_pvals st')).
Proof.
  destruct (rank_directory_ok st fs d Hunique)
    as (st' & tbl & Hr & _ & Hgenes & Hrows & _).
  exists st', tbl. split; [done |]. rewrite Hrows. split.
  - apply sort_values_sorted.
  - rewrite (sort_values_perm _), Hgenes. apply fmap_Permutation.
    apply dict_keys_order_perm.
Qed.

End PipelineFacts.

(** ** Reference environments *)

(** A stable sort by [pval_counts] descending: a row is inserted before
    the first row whose count is not larger than its own. *)
Fixpoint insert_by_counts (r : ranked_row) (l : list ranked_row) : list ranked_row :=
  match l with
  | [] => [r]
  | y :: l' =>
      if (pval_counts y <=? pval_counts r)%nat then r :: l
      else y :: insert_by_counts r l'
  end.

Definition stable_sort_values (l : list ranked_row) : list ranked_row :=
  foldr insert_by_counts [] l.

(** The environment in which every enumeration is in the order of the
    model (the names of a directory in the order of the map, the keys of a
    dictionary in insertion order) and the sort is stable. *)
Definition ordered_env (program : string → process) : Environment :=
  {| listdir_order := fun l => l;
     dict_keys_order := fun l => l;
     sort_values := stable_sort_values;
     Rscript := program |}.

(** An environment that differs from [ordered_env] in the sort alone: it
    sorts by [pval_counts] descending as well, and puts rows with equal
    counts in the opposite order. *)
Definition reversing_env (program : string → process) : Environment :=
  {| listdir_order := fun l => l;
     dict_keys_order := fun l => l;
     sort_values := fun l => stable_sort_values (reverse l);
     Rscript := program |}.

(** An environment that differs from [ordered_env] in the enumeration of
    the keys alone: a dictionary lists its keys in the order opposite to
    their insertion.  (The dictionaries of CPython 2 list their keys by
    hash slot, whatever the order of insertion.) *)
Definition key_reversing_env (program : string → process) : Environment :=
  {| listdir_order := fun l => l;
     dict_keys_order := reverse;
     sort_values := stable_sort_values;
     Rscript := program |}.

Lemma insert_by_counts_perm (r : ranked_row) (l : list ranked_row) :
  insert_by_counts r l ≡ₚ r :: l.
Proof.
  induction l as [|y l IH]; simpl; [done |].
  destruct (pval_counts y <=? pval_counts r)%nat; [done |].
  rewrite IH. apply Permutation_swap.
Qed.

Lemma stable_sort_values_perm (l : list ranked_row) : stable_sort_values l ≡ₚ l.
Proof.
  induction l as [|r l IH]; simpl; [done |].
  by rewrite insert_by_counts_perm, IH.
Qed.

Lemma insert_by_counts_sorted (r : ranked_row) (l : list ranked_row) :
  counts_descending l → counts_descending (insert_by_counts r l).
Proof.
  unfold counts_descending. induction 1 as [|y l Hl IH Hy]; simpl.
  - constructor; [constructor | constructor].
  - destruct (pval_counts y <=? pval_counts r)%nat eqn:Hle.
    + apply Nat.leb_le in Hle. constructor; [by constructor |].
      constructor; [done |]. eapply Forall_impl; [exact Hy |].
      simpl. intros z Hz. lia.
    + apply Nat.leb_gt in Hle. constructor; [done |].
      rewrite (insert_by_counts_perm r l). constructor; [lia | done].
Qed.

Lemma stable_sort_values_sorted (l : list ranked_row) :
  counts_descending (stable_sort_values l).
Proof.
  induction l as [|r l IH]; simpl; [constructor |].
  by apply insert_by_counts_sorted.
Qed.

Global Instance ordered_env_lawful (program : string → process) :
  Lawful (ordered_env program).
Proof.
  split; simpl; [done | done | apply stable_sort_values_perm
                | apply stable_sort_values_sorted].
Qed.

Global Instance key_reversing_env_lawful (program : string → process) :
  Lawful (key_reversing_env program).
Proof.
  split; simpl; [done | apply reverse_Permutation | apply stable_sort_values_perm
                | apply stable_sort_values_sorted].
Qed.

Global Instance reversing_env_lawful (program : string → process) :
  Lawful (reversing_env program).
Proof.
  split; simpl; [done | done | | intros l; apply stable_sort_values_sorted].
  intros l. rewrite stable_sort_values_perm. apply reverse_Permutation.
Qed.

(** ** Examples *)

(** The outcome of a run that ended without an exception. *)
Definition get_ok {A : Type} (d : A) (r : result A) : A :=
  match r with
  | Ok a => a
  | Raise _ => d
  end.

Definition no_outcome : analysis * filesys := (__init__ [] [], empty_fs).

(** An external program that succeeds and writes nothing. *)
Definition silent_program (sample : string) : process :=
  {| returncode := 0; stdout_text := ""; stderr_text := ""; result_file := None |}.

Definition example_env : Environment := ordered_env silent_program.

(** The directory of the classifier example: [A] has both a tumor and a
    normal file, [B] a tumor file only, [C] a normal file only. *)
Definition classifier_example_fs : filesys :=
  set_dir empty_fs pairwise_dir
    (<["A.01.tsv" := [example_row "g1" 0.5; example_row "g2" 0.2]]>
    (<["A.11.tsv" := [example_row "g1" 0.0001]]>
    (<["B.01.tsv" := [example_row "g1" 0.0002]]>
    (<["C.11.tsv" := [example_row "g3" 0.4]]> ∅)))).

Lemma classifier_matches_and_relocates_witness :
  ∃ fs',
    read_results (env := example_env) (__init__ [] []) classifier_example_fs
    = for_each (rank_directory (env := example_env)) [masked_dir; unmatched_dir]
        (set_dfs (__init__ [] [])
           (result_files (env := example_env) classifier_example_fs pairwise_dir), fs')
    ∧ pairwise_results fs' !! "A.01.tsv" = None
    ∧ matched_results fs' !! "A.01.tsv"
      = Some [example_row "g1" 0.5; example_row "g2" 0.2]
    ∧ pairwise_results fs' !! "B.01.tsv" = None
    ∧ unmatched_results fs' !! "B.01.tsv" = Some [example_row "g1" 0.0002].
Proof.
  destruct (classifier_matches_and_relocates (env := example_env)
              (__init__ [] []) classifier_example_fs)
    as [_ (fs1 & fs' & _ & _ & Hread & Hmoves & _)].
  assert (Hmatched :
            matched_subjects (result_files (env := example_env)
                                classifier_example_fs pairwise_dir) = {["A"]})
    by (vm_compute; reflexivity).
  rewrite Hmatched in Hmoves.
  exists fs'. split; [exact Hread |].
  destruct (Hmoves "A.01.tsv" [example_row "g1" 0.5; example_row "g2" 0.2])
    as (HgoneA & HmaA & _);
    [apply elem_of_result_files; split; [reflexivity | eexists; reflexivity]
    | reflexivity |].
  destruct (Hmoves "B.01.tsv" [example_row "g1" 0.0002])
    as (HgoneB & _ & HunB);
    [apply elem_of_result_files; split; [reflexivity | eexists; reflexivity]
    | reflexivity |].
  split; [exact HgoneA |]. split.
  - apply HmaA. exists "A". split; [by apply elem_of_singleton | by right].
  - split; [exact HgoneB |]. apply HunB.
    intros (x & Hx & Hname). apply elem_of_singleton in Hx. subst x.
    destruct Hname as [Hname | Hname]; discriminate Hname.
Defined.

Definition classifier_example_run : result (analysis * filesys) :=
  read_results (env := example_env) (__init__ [] []) classifier_example_fs.

(** The example of the classifier: [A] is the matched subject, the files of
    [B] and [C] are the unmatched ones. *)
Example classifier_example :
  matched_subjects ["A.01.tsv"; "A.11.tsv"; "B.01.tsv"; "C.11.tsv"] = {["A"]}
  ∧ ∃ st' fs', classifier_example_run = Ok (st', fs')
      ∧ dom (pairwise_results fs') = ∅
      ∧ dom (matched_results fs') = {["A.01.tsv"; "A.11.tsv"]}
      ∧ dom (unmatched_results fs') = {["B.01.tsv"; "C.11.tsv"]}
      ∧ dom (masked_results fs') = {["A.01.tsv"]}.
Proof.
  split; [vm_compute; reflexivity |].
  exists (get_ok no_outcome classifier_example_run).1,
         (get_ok no_outcome classifier_example_run).2.
  repeat apply conj; vm_compute; reflexivity.
Qed.

Lemma every_gene_of_a_result_set_is_ranked_witness :
  ∃ st' fs',
    read_results (env := example_env) (__init__ [] []) classifier_example_fs
    = Ok (st', fs')
    ∧ ∀ d, d = masked_dir ∨ d = unmatched_dir →
        ∃ tbl, results_dir fs' !! (basename d +:+ "-ranked.tsv") = Some tbl
          ∧ ∀ f t g, PyStr.endswith f ".tsv" = true → dir fs' d !! f = Some t →
              g ∈ index t → ∃ row, row ∈ tbl ∧ gene (ranked row) = g.
Proof.
  apply (every_gene_of_a_result_set_is_ranked (env := example_env)
           (__init__ [] []) classifier_example_fs).
  unique_by_evaluation.
Defined.

(** The gene [g3] is in one of the four files only, and it is ranked. *)
Example gene_of_one_file_is_ranked :
  ∃ st' fs', classifier_example_run = Ok (st', fs')
    ∧ map (fun r => (gene (ranked r), num_samples (ranked r)))
        <$> results_dir fs' !! "unmatched_results-ranked.tsv"
      = Some [("g1", 1%nat); ("g2", 1%nat); ("g3", 1%nat)].
Proof.
  exists (get_ok no_outcome classifier_example_run).1,
         (get_ok no_outcome classifier_example_run).2.
  repeat apply conj; vm_compute; reflexivity.
Qed.

(** The result set of the ranking example: one file, two genes, none of
    them below the threshold. *)
Definition ranking_example_fs : filesys :=
  set_dir empty_fs unmatched_dir
    (<["B.01.tsv" := [example_row "g1" 0.5; example_row "g2" 0.4]]> ∅).

Lemma ranked_table_sorted_by_counts_witness :
  ∃ st' tbl,
    rank_directory (env := example_env) (__init__ [] [], ranking_example_fs) unmatched_dir
    = Ok (st', write_results ranking_example_fs "unmatched_results-ranked.tsv" tbl)
    ∧ counts_descending (map ranked tbl)
    ∧ map ranked tbl ≡ₚ map (rank_gene st') (dd_keys (self_pvals st')).
Proof.
  apply (ranked_table_sorted_by_counts (env := example_env)
           (__init__ [] []) ranking_example_fs unmatched_dir).
  unique_by_evaluation.
Defined.

(** ** The order of rows with equal counts *)

(** C3 as it is stated, for one environment: the table written by a pass
    of the ranking loop is sorted by [pval_counts] descending, sorting it
    again leaves it as it is, and for every count the rows with that count
    are in the order in which their genes entered the accumulator. *)
Definition ranked_table_claim (env : Environment) : Prop :=
  ∀ st fs d st' fs' tbl,
    rank_directory (st, fs) d = Ok (st', fs') →
    results_dir fs' !! (basename d +:+ "-ranked.tsv") = Some tbl →
    counts_descending (map ranked tbl)
    ∧ sort_values (map ranked tbl) = map ranked tbl
    ∧ ∀ c, filter (fun r => pval_counts r = c) (map ranked tbl)
           = filter (fun r => pval_counts r = c)
               (map (rank_gene st') (dd_keys (self_pvals st'))).

(** The claim fails in a lawful environment: with a sort that is not
    stable, the two genes of [ranking_example_fs], both of count 0, come out
    in the order opposite to their insertion, and sorting the table again
    swaps them back. *)
Lemma ranked_table_claim_refuted : ¬ (∀ env, Lawful env → ranked_table_claim env).
Proof.
  intros Hclaim.
  pose (E := reversing_env silent_program).
  pose (run := rank_directory (env := E) (__init__ [] [], ranking_example_fs) unmatched_dir).
  pose (out := get_ok (__init__ [] [], empty_fs) run).
  destruct (Hclaim E _ (__init__ [] []) ranking_example_fs unmatched_dir
              out.1 out.2 (default [] (results_dir out.2 !! "unmatched_results-ranked.tsv")))
    as (_ & Hagain & _).
  - vm_compute. reflexivity.
  - vm_compute. reflexivity.
  - apply (f_equal (map gene)) in Hagain. vm_compute in Hagain. discriminate.
Qed.

(** With a stable sort the claim fails as well when the dictionary does
    not list its keys in insertion order: the rows of equal count are in
    the order of the listing. *)
Lemma ranked_table_claim_refuted_by_key_order :
  ¬ ranked_table_claim (key_reversing_env silent_program).
Proof.
  intros Hclaim.
  pose (run := rank_directory (env := key_reversing_env silent_program)
                 (__init__ [] [], ranking_example_fs) unmatched_dir).
  pose (out := get_ok no_outcome run).
  destruct (Hclaim (__init__ [] []) ranking_example_fs unmatched_dir
              out.1 out.2 (default [] (results_dir out.2 !! "unmatched_results-ranked.tsv")))
    as (_ & _ & Hties).
  - vm_compute. reflexivity.
  - vm_compute. reflexivity.
  - specialize (Hties 0%nat). apply (f_equal (map gene)) in Hties.
    vm_compute in Hties. discriminate.
Qed.

Lemma insert_by_counts_filter (c : nat) (r : ranked_row) (l : list ranked_row) :
  filter (fun r => pval_counts r = c) (insert_by_counts r l)
  = filter (fun r => pval_counts r = c) (r :: l).
Proof.
  induction l as [|y l IH]; simpl; [done |].
  destruct (pval_counts y <=? pval_counts r)%nat eqn:Hle; [done |].
  apply Nat.leb_gt in Hle. rewrite filter_cons, IH, !filter_cons.
  repeat case_decide; try done; lia.
Qed.

Lemma stable_sort_values_filter (c : nat) (l : list ranked_row) :
  filter (fun r => pval_counts r = c) (stable_sort_values l)
  = filter (fun r => pval_counts r = c) l.
Proof.
  induction l as [|r l IH]; simpl; [done |].
  rewrite insert_by_counts_filter, !filter_cons, IH. done.
Qed.

Lemma stable_sort_values_sorted_id (l : list ranked_row) :
  counts_descending l → stable_sort_values l = l.
Proof.
  induction 1 as [|r l Hl IH Hr]; simpl; [done |].
  rewrite IH. destruct l as [|y l]; simpl; [done |].
  apply Forall_cons in Hr as [Hy _]. by rewrite (proj2 (Nat.leb_le _ _) Hy).
Qed.

(** The claim holds in the environment the specification has in mind: keys
    enumerated in insertion order and a stable sort. *)
Lemma ranked_table_claim_ordered_env (program : string → process) :
  ranked_table_claim (ordered_env program).
Proof.
  intros st fs d st' fs' tbl Hrun Htbl.
  apply (rank_directory_inv (env := ordered_env program)) in Hrun
    as (tbl2 & -> & Hgenes & Hrows & _).
  simpl in Htbl. rewrite lookup_insert_eq in Htbl. injection Htbl as ->.
  simpl in Hgenes, Hrows. rewrite Hrows, Hgenes. split; [| split].
  - apply stable_sort_values_sorted.
  - apply stable_sort_values_sorted_id, stable_sort_values_sorted.
  - intros c. apply stable_sort_values_filter.
Qed.

(** ** The job runner *)

(** [run_pairwise_edger] never raises, whatever the external program
    does. *)
Lemma run_pairwise_edger_never_raises (env : Environment) (st : analysis) (fs : filesys) :
  ∃ st' fs', run_pairwise_edger st fs = Ok (st', fs').
Proof.
  unfold run_pairwise_edger.
  destruct (executor_map _ _ _) as [fs' futures]. by eexists _, _.
Qed.

(** An external program that fails on the sample [TCGA.B2.01], after
    writing to both of its streams, and succeeds on every other sample. *)
Definition failing_program (sample : string) : process :=
  if bool_decide (sample = "TCGA.B2.01")
  then {| returncode := 1; stdout_text := "Sample:  TCGA.B2.01";
          stderr_text := "Error in glmQLFit"; result_file := None |}
  else {| returncode := 0; stdout_text := ""; stderr_text := "";
          result_file := Some [example_row "g1" 0.0001] |}.

Definition failing_env : Environment := ordered_env failing_program.

Definition failing_main : result (analysis * filesys) :=
  main (env := failing_env) ["GTEX-1"; "TCGA-A1-01"; "TCGA-B2-01"] [] empty_fs.

(** C1, the code at a failing input: two samples are scheduled and the
    run of [TCGA.B2.01] exits with status 1.  Its future holds a
    [RuntimeError] whose message has neither the sample nor what the
    program printed; walking the futures would raise it; but
    [run_pairwise_edger] returns normally, [main] goes on to
    [read_results], and the ranked table of the unmatched set is written
    from the one result file there is. *)
Theorem failed_job_is_not_raised :
  (_run_edger (env := failing_env) empty_fs "TCGA.B2.01").2
  = Raise (RuntimeError
      ("EdgeR run failed!" +:+ newline +:+ newline +:+ newline
       +:+ "stdout:" +:+ newline +:+ "None"
       +:+ "stderr:" +:+ newline +:+ "None"
       +:+ newline +:+ newline +:+ newline))
  ∧ result_iterator
      (executor_map (_run_edger (env := failing_env))
         ["TCGA.A1.01"; "TCGA.B2.01"] empty_fs).2
    = Raise (RuntimeError
        ("EdgeR run failed!" +:+ newline +:+ newline +:+ newline
         +:+ "stdout:" +:+ newline +:+ "None"
         +:+ "stderr:" +:+ newline +:+ "None"
         +:+ newline +:+ newline +:+ newline))
  ∧ ∃ st' fs', failing_main = Ok (st', fs')
      ∧ self_tcga_names st' = ["TCGA.A1.01"; "TCGA.B2.01"]
      ∧ dom (unmatched_results fs') = {["TCGA.A1.01.tsv"]}
      ∧ map (fun r => gene (ranked r))
          <$> results_dir fs' !! "unmatched_results-ranked.tsv" = Some ["g1"].
Proof.
  split; [vm_compute; reflexivity |]. split; [vm_compute; reflexivity |].
  exists (get_ok no_outcome failing_main).1, (get_ok no_outcome failing_main).2.
  repeat apply conj; vm_compute; reflexivity.
Qed.

(** ** The accumulators across the two passes *)

(** The accumulators are created once, in [__init__], and the second pass
    of the ranking loop starts from what the first pass left: every gene
    that had a key before a pass has a row in the table of that pass. *)
Lemma accumulated_genes_stay_ranked (env : Environment) (laws : Lawful env)
    (st : analysis) (fs : filesys) (d : directory) (g : string) :
  (∀ f t, PyStr.endswith f ".tsv" = true → dir fs d !! f = Some t → NoDup (index t)) →
  g ∈ dd_keys (self_pvals st) →
  ∃ st' tbl,
    rank_directory (st, fs) d
    = Ok (st', write_results fs (basename d +:+ "-ranked.tsv") tbl)
    ∧ ∃ row, row ∈ tbl ∧ gene (ranked row) = g.
Proof.
  intros Hunique Hg.
  destruct (rank_directory_ok st fs d Hunique)
    as (st' & tbl & Hrun & _ & Hgenes & Hrows & _ & Hold & _).
  exists st', tbl. split; [done |].
  apply (ranked_table_has_gene st'); auto.
Qed.

(** The pair of the subject [A], whose masked tumor table has the gene [gM]
    only, and the unmatched tumor file of [B], with the gene [gU] only. *)
Definition leak_example_fs : filesys :=
  set_dir empty_fs pairwise_dir
    (<["A.01.tsv" := [example_row "gM" 0.5]]>
    (<["A.11.tsv" := [example_row "gN" 0.5]]>
    (<["B.01.tsv" := [example_row "gU" 0.5]]> ∅))).

Definition leak_example_run : result (analysis * filesys) :=
  read_results (env := example_env) (__init__ [] []) leak_example_fs.

(** C2, the code at a failing input: the unmatched area holds the file of
    [B] alone, which has the gene [gU] alone, and the ranked table of the
    unmatched set has a row for [gM], a gene of the masked set. *)
Theorem unmatched_table_has_masked_genes :
  ∃ st' fs', leak_example_run = Ok (st', fs')
    ∧ index <$> masked_results fs' = {["A.01.tsv" := ["gM"]]}
    ∧ index <$> unmatched_results fs' = {["B.01.tsv" := ["gU"]]}
    ∧ map (fun r => (gene (ranked r), num_samples (ranked r)))
        <$> results_dir fs' !! "masked_results-ranked.tsv" = Some [("gM", 1%nat)]
    ∧ map (fun r => (gene (ranked r), num_samples (ranked r)))
        <$> results_dir fs' !! "unmatched_results-ranked.tsv"
      = Some [("gM", 1%nat); ("gU", 1%nat)].
Proof.
  exists (get_ok no_outcome leak_example_run).1, (get_ok no_outcome leak_example_run).2.
  repeat apply conj; vm_compute; reflexivity.
Qed.

(** ** The gene names *)

(** The names are assigned by position, along [self.genes], to the rows in
    their sorted order. *)
Lemma gene_names_follow_self_genes (env : Environment) (laws : Lawful env)
    (st : analysis) (fs : filesys) (d : directory) :
  (∀ f t, PyStr.endswith f ".tsv" = true → dir fs d !! f = Some t → NoDup (index t)) →
  ∃ st' tbl,
    rank_directory (st, fs) d
    = Ok (st', write_results fs (basename d +:+ "-ranked.tsv") tbl)
    ∧ map gene_name tbl
      = map (mapped_name (gene_mappings (gene_map st'))) (self_genes st')
    ∧ map (fun r => gene (ranked r)) tbl
      = map gene (sort_values (map (rank_gene st') (self_genes st'))).
Proof.
  intros Hunique.
  destruct (rank_directory_ok st fs d Hunique)
    as (st' & tbl & Hrun & _ & _ & Hrows & Hnames & _).
  exists st', tbl. split; [done |]. split; [done |].
  by rewrite <- Hrows, <- list_fmap_compose.
Qed.

(** One unmatched file with the genes [gA], not below the threshold, and
    [gB], below it; the mapping table knows [gB] only. *)
Definition names_example_fs : filesys :=
  set_dir empty_fs pairwise_dir
    (<["B.01.tsv" := [example_row "gA" 0.5; example_row "gB" 0.0001]]> ∅).

Definition names_example_run : result (analysis * filesys) :=
  read_results (env := example_env) (__init__ [] [("gB", "BETA")]) names_example_fs.

(** The same file with the two p-values exchanged, read in the environment
    whose dictionaries list [gB] before [gA]. *)
Definition exchanged_names_example_fs : filesys :=
  set_dir empty_fs pairwise_dir
    (<["B.01.tsv" := [example_row "gA" 0.0001; example_row "gB" 0.5]]> ∅).

Definition exchanged_names_example_run : result (analysis * filesys) :=
  read_results (env := key_reversing_env silent_program)
    (__init__ [] [("gB", "BETA")]) exchanged_names_example_fs.

(** C4, the code at a failing input: the sort moves the gene below the
    threshold above the other one, the names stay in the order of
    [self.genes]; the row of [gB] gets the name of [gA], and the row of the
    unmapped [gA] the symbol of [gB].  With keys listed in insertion order
    this happens on the first file, with keys listed in the opposite order
    on the second. *)
Theorem gene_names_misaligned_after_sort :
  (∃ st' fs', names_example_run = Ok (st', fs')
     ∧ self_genes st' = ["gA"; "gB"]
     ∧ map (fun r => (gene (ranked r), pval_counts (ranked r), gene_name r))
         <$> results_dir fs' !! "unmatched_results-ranked.tsv"
       = Some [("gB", 1%nat, "gA"); ("gA", 0%nat, "BETA")])
  ∧ (∃ st' fs', exchanged_names_example_run = Ok (st', fs')
       ∧ self_genes st' = ["gB"; "gA"]
       ∧ map (fun r => (gene (ranked r), pval_counts (ranked r), gene_name r))
           <$> results_dir fs' !! "unmatched_results-ranked.tsv"
         = Some [("gA", 1%nat, "BETA"); ("gB", 0%nat, "gA")]).
Proof.
  split.
  - exists (get_ok no_outcome names_example_run).1, (get_ok no_outcome names_example_run).2.
    repeat apply conj; vm_compute; reflexivity.
  - exists (get_ok no_outcome exchanged_names_example_run).1,
           (get_ok no_outcome exchanged_names_example_run).2.
    repeat apply conj; vm_compute; reflexivity.
Qed.

(** ** The statistics of a gene *)

(** The matched subject [A], whose masked tumor table has [g1], and three
    unmatched files with [g1] at the p-values 0.0001, 0.5 and 0.0009. *)
Definition statistics_example_fs : filesys :=
  set_dir empty_fs pairwise_dir
    (<["A.01.tsv" := [example_row "g1" 0.5]]>
    (<["A.11.tsv" := [example_row "g9" 0.5]]>
    (<["B.01.tsv" := [example_row "g1" 0.0001]]>
    (<["C.01.tsv" := [example_row "g1" 0.5]]>
    (<["D.01.tsv" := [example_row "g1" 0.0009]]> ∅))))).

Definition statistics_example_run : result (analysis * filesys) :=
  read_results (env := example_env) (__init__ [] []) statistics_example_fs.

(** C6, the code at a failing input: [g1] is in the three files of the
    unmatched set, and its row in the table of that set counts four
    samples; its median is that of the four values, 0.25045, not 0.0009. *)
Theorem unmatched_statistics_count_masked_files :
  ∃ st' fs', statistics_example_run = Ok (st', fs')
    ∧ dom (unmatched_results fs') = {["B.01.tsv"; "C.01.tsv"; "D.01.tsv"]}
    ∧ map (fun r => (gene (ranked r), pval_counts (ranked r), num_samples (ranked r),
                     this <$> pval (ranked r)))
        <$> results_dir fs' !! "unmatched_results-ranked.tsv"
      = Some [("g1", 2%nat, 4%nat, Some (5009 # 20000))].
Proof.
  exists (get_ok no_outcome statistics_example_run).1, (get_ok no_outcome statistics_example_run).2.
  repeat apply conj; vm_compute; reflexivity.
Qed.

(** The matched subject [A], whose masked tumor table has [g1], and one
    unmatched file with [g1]. *)
Definition single_file_example_fs : filesys :=
  set_dir empty_fs pairwise_dir
    (<["A.01.tsv" := [example_row "g1" 0.5]]>
    (<["A.11.tsv" := [example_row "g9" 0.5]]>
    (<["B.01.tsv" := [example_row "g1" 0.0001]]> ∅))).

Definition single_file_example_run : result (analysis * filesys) :=
  read_results (env := example_env) (__init__ [] []) single_file_example_fs.

(** C10, the code at a failing input: [g1] is in exactly one file of the
    unmatched set, and its row in the table of that set counts two
    samples, with a median that is not the value of the file and a
    standard deviation that is not 0. *)
Theorem single_file_gene_counts_masked_files :
  ∃ st' fs', single_file_example_run = Ok (st', fs')
    ∧ index <$> unmatched_results fs' = {["B.01.tsv" := ["g1"]]}
    ∧ map (fun r => (gene (ranked r), num_samples (ranked r), this <$> pval (ranked r),
                     (fun s => this (radicand s)) <$> pval_std (ranked r)))
        <$> results_dir fs' !! "unmatched_results-ranked.tsv"
      = Some [("g1", 2%nat, Some (5001 # 20000), Some (24990001 # 400000000))].
Proof.
  exists (get_ok no_outcome single_file_example_run).1, (get_ok no_outcome single_file_example_run).2.
  repeat apply conj; vm_compute; reflexivity.
Qed.

(** ** The series of a gene *)

(** The values of the column [col] for the gene [g] in the tables, in the
    order of the tables. *)
Definition series (col : result_row → Qc) (tables : list table) (g : string) : list Qc :=
  tables ≫= (fun t => col <$> filter (fun r => gene_id r = g) t).

(** The tables of the files, in the order of the files. *)
Definition read_tables (m : gmap string table) (files : list string) : list table :=
  omap (fun f => m !! f) files.

Lemma dd_get_append (d : accumulator) (k g : string) (v : Qc) :
  dd_get (dd_append d k v) g
  = if decide (g = k) then dd_get d g ++ [v] else dd_get d g.
Proof.
  induction d as [|[k' l] d IH]; simpl.
  - case_bool_decide; case_decide; congruence.
  - destruct (bool_decide_reflect (k' = k)) as [-> | Hk]; simpl.
    + case_bool_decide; case_decide; congruence.
    + case_bool_decide; [case_decide; congruence | exact IH].
Qed.

(** What the accumulation of rows that [df.loc] finds adds to the three
    series of every gene. *)
Lemma accumulate_rows_series (df rs : table) (st : analysis) :
  (∀ r, r ∈ rs → loc df (gene_id r) = Ok (one_row r)) →
  ∃ st', for_each (accumulate_gene df) (index rs) st = Ok st'
    ∧ (∀ g, dd_get (self_pvals st') g
            = dd_get (self_pvals st) g ++ series PValue [rs] g)
    ∧ (∀ g, dd_get (self_fc st') g = dd_get (self_fc st) g ++ series logFC [rs] g)
    ∧ (∀ g, dd_get (self_cpm st') g = dd_get (self_cpm st) g ++ series logCPM [rs] g).
Proof.
  unfold series. simpl. setoid_rewrite app_nil_r.
  revert st. induction rs as [|r rs IH]; intros st Hloc.
  - exists st. simpl. setoid_rewrite app_nil_r. done.
  - change (index (r :: rs)) with (gene_id r :: index rs). rewrite for_each_cons.
    rewrite (accumulate_gene_found df st (gene_id r) r) by (apply Hloc; left).
    rewrite bind_ok.
    edestruct IH as (st' & Hok & Hp & Hf & Hc); [intros r' Hr'; apply Hloc; by right |].
    exists st'. split; [exact Hok |].
    split; [| split]; intros g; [rewrite Hp | rewrite Hf | rewrite Hc]; simpl;
      rewrite dd_get_append, filter_cons;
      destruct (decide (g = gene_id r)) as [-> | Hne].
    + rewrite decide_True by done. by rewrite <- app_assoc.
    + by rewrite decide_False by congruence.
    + rewrite decide_True by done. by rewrite <- app_assoc.
    + by rewrite decide_False by congruence.
    + rewrite decide_True by done. by rewrite <- app_assoc.
    + by rewrite decide_False by congruence.
Qed.

Lemma series_cons (col : result_row → Qc) (t : table) (tables : list table) (g : string) :
  series col (t :: tables) g = series col [t] g ++ series col tables g.
Proof. unfold series. simpl. by rewrite app_nil_r. Qed.

(** A gene has at most one row in a table with a unique index. *)
Lemma filter_gene_length (t : table) (g : string) :
  NoDup (index t) →
  length (filter (fun r => gene_id r = g) t) = if decide (g ∈ index t) then 1%nat else 0%nat.
Proof.
  induction t as [|r t IH]; intros Hnd.
  - destruct (decide (g ∈ index [])) as [Hin | _]; [| done].
    by apply elem_of_nil in Hin.
  - change (index (r :: t)) with (gene_id r :: index t) in *.
    apply NoDup_cons in Hnd as [Hr Hnd]. rewrite filter_cons.
    destruct (decide (gene_id r = g)) as [<- | Hne]; simpl; rewrite (IH Hnd).
    + rewrite decide_False by done. by rewrite decide_True by left.
    + destruct (decide (g ∈ index t)) as [Hin | Hin].
      * by rewrite decide_True by by right.
      * rewrite decide_False; [done |]. rewrite not_elem_of_cons. done.
Qed.

(** The length of a series is the number of tables that have the gene. *)
Lemma series_length (col : result_row → Qc) (tables : list table) (g : string) :
  Forall (fun t => NoDup (index t)) tables →
  length (series col tables g) = length (filter (fun t => g ∈ index t) tables).
Proof.
  induction 1 as [|t tables Ht _ IH]; [done |].
  rewrite series_cons, length_app, IH, filter_cons.
  unfold series. simpl. rewrite app_nil_r, length_fmap, filter_gene_length by done.
  by case_decide.
Qed.

Lemma read_tables_cons (m : gmap string table) (f : string) (files : list string) (t : table) :
  m !! f = Some t → read_tables m (f :: files) = t :: read_tables m files.
Proof. intros Ht. unfold read_tables. simpl. by rewrite Ht. Qed.

Lemma read_csv_found (fs : filesys) (d : directory) (f : string) (t : table) :
  dir fs d !! f = Some t → read_csv fs d f = Ok t.
Proof. intros Ht. unfold read_csv. by rewrite Ht. Qed.

Section Series.

Context {env : Environment} {laws : Lawful env}.

(** The accumulation of files with unique indexes appends, to the series
    of every gene, its values in these files. *)
Lemma accumulate_files_series (fs : filesys) (d : directory) (files : list string)
    (st : analysis) :
  (∀ f, f ∈ files → ∃ t, dir fs d !! f = Some t ∧ NoDup (index t)) →
  ∃ st', for_each (fun st f =>
                     df ← read_csv fs d f;
                     for_each (accumulate_gene df) (index df) st) files st = Ok st'
    ∧ (∀ g, dd_get (self_pvals st') g
            = dd_get (self_pvals st) g ++ series PValue (read_tables (dir fs d) files) g)
    ∧ (∀ g, dd_get (self_fc st') g
            = dd_get (self_fc st) g ++ series logFC (read_tables (dir fs d) files) g)
    ∧ (∀ g, dd_get (self_cpm st') g
            = dd_get (self_cpm st) g ++ series logCPM (read_tables (dir fs d) files) g).
Proof.
  revert st. induction files as [|f files IH]; intros st Hfiles.
  - exists st. split; [done |]. unfold series. simpl.
    split; [| split]; intros g; by rewrite app_nil_r.
  - destruct (Hfiles f) as (t & Ht & Hnd); [left |].
    destruct (accumulate_rows_series t t st) as (st1 & Hok1 & Hp1 & Hf1 & Hc1).
    { intros r Hr. by apply loc_NoDup. }
    destruct (IH st1) as (st' & Hok & Hp & Hf & Hc).
    { intros f' Hf'. apply Hfiles. by right. }
    exists st'. rewrite for_each_cons, (read_csv_found fs d f t Ht), bind_ok.
    rewrite Hok1, bind_ok. split; [exact Hok |].
    rewrite (read_tables_cons _ f files t Ht).
    split; [| split]; intros g; rewrite series_cons, app_assoc; congruence.
Qed.

(** What a pass of the ranking loop computes, when the indexes of the
    result files are unique: the row of a gene is made from the series the
    accumulators had for it before the pass, followed by its values in the
    result files of the directory, in the order of the listing. *)
Lemma pass_statistics (st : analysis) (fs : filesys) (d : directory) :
  (∀ f t, dir fs d !! f = Some t → NoDup (index t)) →
  ∃ st' tbl,
    rank_directory (st, fs) d
    = Ok (st', write_results fs (basename d +:+ "-ranked.tsv") tbl)
    ∧ (∀ row, row ∈ tbl → ranked row = rank_gene st' (gene (ranked row)))
    ∧ (∀ g, dd_get (self_pvals st') g
            = dd_get (self_pvals st) g
              ++ series PValue (read_tables (dir fs d) (result_files fs d)) g)
    ∧ (∀ g, dd_get (self_fc st') g
            = dd_get (self_fc st) g
              ++ series logFC (read_tables (dir fs d) (result_files fs d)) g)
    ∧ (∀ g, dd_get (self_cpm st') g
            = dd_get (self_cpm st) g
              ++ series logCPM (read_tables (dir fs d) (result_files fs d)) g).
Proof.
  intros Hnd.
  destruct (rank_directory_ok st fs d) as (st' & tbl & Hrun & _ & _ & Hrows & _).
  { intros f t _. apply Hnd. }
  destruct (accumulate_files_series fs d (result_files fs d) st)
    as (st0 & Hloop & Hp & Hf & Hc).
  { intros f Hf. apply elem_of_result_files in Hf as [_ [t Ht]]. eauto. }
  exists st', tbl. split; [exact Hrun |].
  assert (Hst : self_pvals st' = self_pvals st0 ∧ self_fc st' = self_fc st0
                ∧ self_cpm st' = self_cpm st0).
  { unfold rank_directory, _rank_results in Hrun. simpl in Hrun.
    fold (result_files fs d) in Hrun. rewrite Hloop in Hrun. simpl in Hrun.
    destruct (_add_mapped_genes _ _); simpl in Hrun; [| discriminate].
    injection Hrun as <- _. done. }
  destruct Hst as (-> & -> & ->). split; [| done].
  intros row Hrow.
  assert (Hin : ranked row ∈ map ranked tbl) by (apply list_elem_of_fmap; eauto).
  rewrite Hrows, (sort_values_perm _) in Hin.
  apply list_elem_of_fmap in Hin as (g & -> & _). done.
Qed.

End Series.

(** ** Series of one value *)

Lemma Qc_of_nat_1 : Qc_of_nat 1 = 1%Qc.
Proof. apply Qc_is_canon. reflexivity. Qed.

Lemma np_mean_singleton (x : Qc) : np_mean [x] = Some x.
Proof.
  unfold np_mean, np_sum. simpl. f_equal. rewrite Qc_of_nat_1.
  change (Q2Qc 0) with 0%Qc. field. discriminate.
Qed.

Lemma np_median_singleton (x : Qc) : np_median [x] = Some x.
Proof. unfold np_median. simpl. apply np_mean_singleton. Qed.

Lemma np_std_singleton (x : Qc) : np_std [x] = Some (Sqrt 0%Qc).
Proof.
  unfold np_std. rewrite np_mean_singleton.
  change (map _ [x]) with [((x - x) * (x - x))%Qc]. rewrite np_mean_singleton.
  do 2 f_equal. ring.
Qed.

(** The standard deviation of a series of one value is the real number 0. *)
Lemma sqrt_R_singleton (x : Qc) : sqrt_R <$> np_std [x] = Some 0%R.
Proof.
  rewrite np_std_singleton. simpl. f_equal. unfold sqrt_R.
  change (Q2R (this (radicand (Sqrt 0%Qc)))) with (Q2R 0).
  rewrite RMicromega.Q2R_0. apply sqrt_0.
Qed.

Lemma Forall_read_tables (P : table → Prop) (m : gmap string table) (files : list string) :
  (∀ f t, m !! f = Some t → P t) → Forall P (read_tables m files).
Proof.
  intros HP. apply Forall_forall. intros t Ht.
  apply list_elem_of_omap in Ht as (f & _ & Hf). eauto.
Qed.

Section FreshPass.

Context {env : Environment} {laws : Lawful env}.

(** A pass of the ranking loop that starts from empty accumulators, as the
    first pass of [read_results] on a new [Analysis] object does: the row
    of a gene has the medians and the standard deviations of its values in
    the result files of the directory, the number of its p-values below
    0.001, and as [num_samples] the number of result files that have the
    gene. *)
Lemma fresh_pass_statistics (st : analysis) (fs : filesys) (d : directory) :
  self_pvals st = [] → self_fc st = [] → self_cpm st = [] →
  (∀ f t, dir fs d !! f = Some t → NoDup (index t)) →
  ∃ st' tbl,
    rank_directory (st, fs) d
    = Ok (st', write_results fs (basename d +:+ "-ranked.tsv") tbl)
    ∧ ∀ row, row ∈ tbl →
        let tables := read_tables (dir fs d) (result_files fs d) in
        let g := gene (ranked row) in
        pval (ranked row) = np_median (series PValue tables g)
        ∧ pval_counts (ranked row)
          = length (filter (fun y => (y < threshold)%Qc) (series PValue tables g))
        ∧ pval_std (ranked row) = np_std (series PValue tables g)
        ∧ fc (ranked row) = np_median (series logFC tables g)
        ∧ fc_std (ranked row) = np_std (series logFC tables g)
        ∧ cpm (ranked row) = np_median (series logCPM tables g)
        ∧ cpm_std (ranked row) = np_std (series logCPM tables g)
        ∧ num_samples (ranked row) = length (filter (fun t => g ∈ index t) tables).
Proof.
  intros Hp0 Hf0 Hc0 Hnd.
  destruct (pass_statistics st fs d Hnd) as (st' & tbl & Hrun & Hrows & Hp & Hf & Hc).
  exists st', tbl. split; [exact Hrun |]. intros row Hrow tables g.
  rewrite Hp0 in Hp. rewrite Hf0 in Hf. rewrite Hc0 in Hc. simpl in Hp, Hf, Hc.
  rewrite (Hrows row Hrow). fold g. unfold rank_gene. simpl.
  rewrite Hp, Hf, Hc. fold tables. repeat (split; [done |]).
  apply series_length. by apply Forall_read_tables.
Qed.

(** From empty accumulators, a gene that is in exactly one result file of
    the directory has a row with [num_samples = 1], the values of that file
    as medians, and standard deviations equal to 0. *)
Lemma fresh_pass_single_file (st : analysis) (fs : filesys) (d : directory) :
  self_pvals st = [] → self_fc st = [] → self_cpm st = [] →
  (∀ f t, dir fs d !! f = Some t → NoDup (index t)) →
  ∃ st' tbl,
    rank_directory (st, fs) d
    = Ok (st', write_results fs (basename d +:+ "-ranked.tsv") tbl)
    ∧ ∀ row, row ∈ tbl →
        let tables := read_tables (dir fs d) (result_files fs d) in
        let g := gene (ranked row) in
        length (filter (fun t => g ∈ index t) tables) = 1%nat →
        num_samples (ranked row) = 1%nat
        ∧ (∃ p, series PValue tables g = [p] ∧ pval (ranked row) = Some p)
        ∧ (∃ f, series logFC tables g = [f] ∧ fc (ranked row) = Some f)
        ∧ (∃ c, series logCPM tables g = [c] ∧ cpm (ranked row) = Some c)
        ∧ sqrt_R <$> pval_std (ranked row) = Some 0%R
        ∧ sqrt_R <$> fc_std (ranked row) = Some 0%R
        ∧ sqrt_R <$> cpm_std (ranked row) = Some 0%R.
Proof.
  intros Hp0 Hf0 Hc0 Hnd.
  destruct (fresh_pass_statistics st fs d Hp0 Hf0 Hc0 Hnd) as (st' & tbl & Hrun & Hstat).
  exists st', tbl. split; [exact Hrun |]. intros row Hrow tables g Hone.
  destruct (Hstat row Hrow) as (Hp & _ & Hps & Hf & Hfs & Hc & Hcs & Hn).
  fold tables g in Hp, Hps, Hf, Hfs, Hc, Hcs, Hn.
  assert (Hlen : ∀ col, ∃ x, series col tables g = [x]).
  { intros col. pose proof (series_length col tables g) as Hl.
    rewrite Hone in Hl. destruct (series col tables g) as [|x [|y l]] eqn:Hs.
    - simpl in Hl. discriminate Hl. by apply Forall_read_tables.
    - by exists x.
    - simpl in Hl. discriminate Hl. by apply Forall_read_tables. }
  destruct (Hlen PValue) as [p Hsp]. destruct (Hlen logFC) as [f Hsf].
  destruct (Hlen logCPM) as [c Hsc].
  rewrite Hsp in Hp, Hps. rewrite Hsf in Hf, Hfs. rewrite Hsc in Hc, Hcs.
  rewrite Hn, Hone, Hp, Hps, Hf, Hfs, Hc, Hcs, !np_median_singleton, !sqrt_R_singleton.
  split; [done |]. split; [eauto |]. split; [eauto |]. split; [eauto |]. done.
Qed.

End FreshPass.

(** ** The claimed statistics, where the accumulators are fresh *)

(** Three unmatched files with [g1] at the p-values 0.0001, 0.5 and 0.0009,
    and no matched subject: the pass over the masked set finds no file. *)
Definition three_files_example_fs : filesys :=
  set_dir empty_fs pairwise_dir
    (<["B.01.tsv" := [example_row "g1" 0.0001]]>
    (<["C.01.tsv" := [example_row "g1" 0.5]]>
    (<["D.01.tsv" := [example_row "g1" 0.0009]]> ∅))).

Definition three_files_example_run : result (analysis * filesys) :=
  read_results (env := example_env) (__init__ [] []) three_files_example_fs.

Example three_unmatched_files_without_matched_pairs :
  ∃ st' fs', three_files_example_run = Ok (st', fs')
    ∧ map (fun r => (gene (ranked r), pval_counts (ranked r), num_samples (ranked r),
                     this <$> pval (ranked r)))
        <$> results_dir fs' !! "unmatched_results-ranked.tsv"
      = Some [("g1", 2%nat, 3%nat, Some (9 # 10000))].
Proof.
  exists (get_ok no_outcome three_files_example_run).1, (get_ok no_outcome three_files_example_run).2.
  repeat apply conj; vm_compute; reflexivity.
Qed.

(** ** The median *)

Lemma insert_sorted_perm (x : Qc) (l : list Qc) : insert_sorted x l ≡ₚ x :: l.
Proof.
  induction l as [|y l IH]; simpl; [done |].
  case_bool_decide; [done |]. rewrite IH. apply Permutation_swap.
Qed.

(** [np_median] takes the middle of a rearrangement of the values... *)
Lemma np_sort_perm (l : list Qc) : np_sort l ≡ₚ l.
Proof.
  induction l as [|x l IH]; simpl; [done |]. by rewrite insert_sorted_perm, IH.
Qed.

Lemma insert_sorted_sorted (x : Qc) (l : list Qc) :
  StronglySorted Qcle l → StronglySorted Qcle (insert_sorted x l).
Proof.
  induction 1 as [|y l Hl IH Hy]; simpl.
  - constructor; [constructor | constructor].
  - case_bool_decide as Hle.
    + constructor; [by constructor |]. constructor; [done |].
      eapply Forall_impl; [exact Hy |]. intros z Hz. by apply Qcle_trans with y.
    + constructor; [done |]. rewrite (insert_sorted_perm x l).
      constructor; [| done]. apply Qclt_le_weak. by apply Qcnot_le_lt.
Qed.

(** ... in which they are in ascending order. *)
Lemma np_sort_sorted (l : list Qc) : StronglySorted Qcle (np_sort l).
Proof.
  induction l as [|x l IH]; simpl; [constructor |]. by apply insert_sorted_sorted.
Qed.

(** ** The gene names, in every environment *)

(** C4 as it is stated, for one environment: in the ranked tables that
    [read_results] writes, the name of a row is the symbol of the gene of
    the row in the mapping table, and the gene id itself when the table
    does not have it. *)
Definition gene_names_claim (env : Environment) : Prop :=
  ∀ st fs st' fs' d tbl row,
    read_results st fs = Ok (st', fs') →
    d = masked_dir ∨ d = unmatched_dir →
    results_dir fs' !! (basename d +:+ "-ranked.tsv") = Some tbl →
    row ∈ tbl →
    gene_name row = mapped_name (gene_mappings (gene_map st)) (gene (ranked row)).

Section EveryEnvironment.

Context {env : Environment} {laws : Lawful env}.

Lemma listdir_order_nil : listdir_order [] = [].
Proof. apply Permutation_nil. symmetry. apply listdir_order_perm. Qed.

Lemma listdir_order_singleton (x : string) : listdir_order [x] = [x].
Proof. apply Permutation_length_1_inv. symmetry. apply listdir_order_perm. Qed.

Lemma dict_keys_order_nil : dict_keys_order [] = [].
Proof. apply Permutation_nil. symmetry. apply dict_keys_order_perm. Qed.

Lemma dict_keys_order_pair (a b : string) :
  dict_keys_order [a; b] = [a; b] ∨ dict_keys_order [a; b] = [b; a].
Proof. apply Permutation_length_2_inv. symmetry. apply dict_keys_order_perm. Qed.

Lemma sort_values_nil : sort_values [] = [].
Proof. apply Permutation_nil. symmetry. apply sort_values_perm. Qed.

(** Two rows with different counts have one sorted order. *)
Lemma sort_values_pair (r1 r2 : ranked_row) :
  (pval_counts r1 < pval_counts r2)%nat →
  sort_values [r1; r2] = [r2; r1] ∧ sort_values [r2; r1] = [r2; r1].
Proof.
  intros Hlt.
  assert (Hnot : ¬ counts_descending [r1; r2]).
  { intros Hs. apply StronglySorted_inv in Hs as [_ Hs].
    apply Forall_cons in Hs as [Hs _]. lia. }
  split.
  - destruct (Permutation_length_2_inv (symmetry (sort_values_perm [r1; r2])))
      as [Heq | Heq]; [| done].
    exfalso. apply Hnot. rewrite <- Heq. apply sort_values_sorted.
  - destruct (Permutation_length_2_inv (symmetry (sort_values_perm [r2; r1])))
      as [Heq | Heq]; [done |].
    exfalso. apply Hnot. rewrite <- Heq. apply sort_values_sorted.
Qed.

(** The listing of a directory with no file, and with one file. *)
Lemma result_files_empty (fs : filesys) (d : directory) :
  dir fs d = ∅ → result_files fs d = [].
Proof.
  intros Hd. unfold result_files, os_listdir. rewrite Hd, dom_empty_L, elements_empty.
  by rewrite listdir_order_nil.
Qed.

Lemma result_files_singleton (fs : filesys) (d : directory) (f : string) (t : table) :
  dir fs d = {[f := t]} → PyStr.endswith f ".tsv" = true → result_files fs d = [f].
Proof.
  intros Hd Hf. unfold result_files, os_listdir.
  rewrite Hd, dom_singleton_L, elements_singleton, listdir_order_singleton.
  by rewrite filter_cons_True.
Qed.

(** [_rank_results], from the listing and the accumulators after the
    loop. *)
Lemma rank_directory_eval (st st0 : analysis) (fs : filesys) (d : directory)
    (files : list string) :
  result_files fs d = files →
  for_each (fun st f => df ← read_csv fs d f;
                        for_each (accumulate_gene df) (index df) st) files st = Ok st0 →
  let st' := set_genes st0 (dict_keys_order (dd_keys (self_pvals st0))) in
  rank_directory (st, fs) d
  = (ranked ← _add_mapped_genes st' (sort_values (map (rank_gene st') (self_genes st')));
     Ok (st', write_results fs (basename d +:+ "-ranked.tsv") ranked)).
Proof.
  intros <- Hloop st'. unfold rank_directory, _rank_results. simpl.
  fold (result_files fs d). rewrite Hloop. reflexivity.
Qed.

(** [read_results] on an input directory with the one file [B.01.tsv]: no
    subject is matched, the file goes to the unmatched area, and the two
    passes of the ranking loop follow. *)
Lemma read_results_single_file (st : analysis) (t : table) :
  read_results st (set_dir empty_fs pairwise_dir {["B.01.tsv" := t]})
  = for_each rank_directory [masked_dir; unmatched_dir]
      (set_dfs st ["B.01.tsv"], set_dir empty_fs unmatched_dir {["B.01.tsv" := t]}).
Proof.
  unfold read_results.
  fold (result_files (set_dir empty_fs pairwise_dir {["B.01.tsv" := t]}) pairwise_dir).
  rewrite (result_files_singleton _ pairwise_dir "B.01.tsv" t) by reflexivity.
  cbv zeta. change (self_dfs (set_dfs st ["B.01.tsv"])) with ["B.01.tsv"].
  assert (Hm : _produce_masks (set_dir empty_fs pairwise_dir {["B.01.tsv" := t]})
                 (matched_subjects ["B.01.tsv"])
               = Ok (set_dir empty_fs pairwise_dir {["B.01.tsv" := t]}))
    by (vm_compute; reflexivity).
  rewrite Hm, bind_ok.
  assert (Hr : relocate ["B.01.tsv"] (matched_files (matched_subjects ["B.01.tsv"]))
                 (set_dir empty_fs pairwise_dir {["B.01.tsv" := t]})
               = Ok (set_dir empty_fs unmatched_dir {["B.01.tsv" := t]}))
    by (vm_compute; reflexivity).
  rewrite Hr, bind_ok. reflexivity.
Qed.

Lemma bind_for_each_nil {A S : Type} (body : S → A → result S) (c : result S) :
  c ≫= for_each body [] = c.
Proof. by destruct c. Qed.

(** The [Analysis] object after the pass over the unmatched area, for a
    file with the genes [gA] and [gB]. *)
Definition two_genes_state (qa qb : Q) (genes : list string) : analysis :=
  set_genes
    (set_accumulators (set_dfs (__init__ [] [("gB", "BETA")]) ["B.01.tsv"])
       [("gA", [Q2Qc qa]); ("gB", [Q2Qc qb])]
       [("gA", [Q2Qc 1]); ("gB", [Q2Qc 1])]
       [("gA", [Q2Qc 2]); ("gB", [Q2Qc 2])])
    genes.

Lemma read_results_two_genes (qa qb : Q) :
  let t := [example_row "gA" qa; example_row "gB" qb] in
  let st' := two_genes_state qa qb (dict_keys_order ["gA"; "gB"]) in
  read_results (__init__ [] [("gB", "BETA")])
    (set_dir empty_fs pairwise_dir {["B.01.tsv" := t]})
  = (ranked ← _add_mapped_genes st'
                (sort_values (map (rank_gene st') (dict_keys_order ["gA"; "gB"])));
     Ok (st', write_results
                (write_results (set_dir empty_fs unmatched_dir {["B.01.tsv" := t]})
                   "masked_results-ranked.tsv" [])
                "unmatched_results-ranked.tsv" ranked)).
Proof.
  intros t st'. rewrite read_results_single_file, for_each_cons.
  erewrite (rank_directory_eval _ _ _ masked_dir []);
    [| by apply result_files_empty | reflexivity].
  cbv zeta.
  change (dd_keys (self_pvals (set_dfs (__init__ [] [("gB", "BETA")]) ["B.01.tsv"])))
    with (@nil string).
  rewrite dict_keys_order_nil.
  change (self_genes (set_genes _ [])) with (@nil string).
  change (map _ (@nil string)) with (@nil ranked_row).
  rewrite sort_values_nil.
  change (_add_mapped_genes _ []) with (Ok (@nil named_row)).
  rewrite !bind_ok, for_each_cons.
  rewrite (rank_directory_eval _
             (set_accumulators (set_dfs (__init__ [] [("gB", "BETA")]) ["B.01.tsv"])
                [("gA", [Q2Qc qa]); ("gB", [Q2Qc qb])]
                [("gA", [Q2Qc 1]); ("gB", [Q2Qc 1])]
                [("gA", [Q2Qc 2]); ("gB", [Q2Qc 2])])
             _ unmatched_dir ["B.01.tsv"]);
    [| by eapply result_files_singleton | vm_compute; reflexivity].
  rewrite bind_for_each_nil. reflexivity.
Qed.

(** In every lawful environment the names of some ranked table are
    misplaced: when the dictionary lists [gA] before [gB], on the file
    where [gB] alone is below the threshold; when it lists [gB] first, on
    the file where [gA] alone is. *)
Theorem gene_names_claim_fails : ¬ gene_names_claim env.
Proof.
  intros Hclaim.
  destruct (dict_keys_order_pair "gA" "gB") as [Hkeys | Hkeys].
  - pose proof (read_results_two_genes 0.5 0.0001) as Hrun. cbv zeta in Hrun.
    rewrite Hkeys in Hrun.
    set (s := two_genes_state 0.5 0.0001 ["gA"; "gB"]) in Hrun.
    change (map (rank_gene s) ["gA"; "gB"]) with [rank_gene s "gA"; rank_gene s "gB"] in Hrun.
    destruct (sort_values_pair (rank_gene s "gA") (rank_gene s "gB")) as [Hsort _];
      [vm_compute; lia |].
    rewrite Hsort in Hrun.
    change (_add_mapped_genes s [rank_gene s "gB"; rank_gene s "gA"])
      with (Ok [ {| ranked := rank_gene s "gB"; gene_name := "gA" |};
                 {| ranked := rank_gene s "gA"; gene_name := "BETA" |} ]) in Hrun.
    rewrite bind_ok in Hrun.
    specialize (Hclaim _ _ _ _ unmatched_dir
                  [ {| ranked := rank_gene s "gB"; gene_name := "gA" |};
                    {| ranked := rank_gene s "gA"; gene_name := "BETA" |} ]
                  {| ranked := rank_gene s "gB"; gene_name := "gA" |}
                  Hrun (or_intror eq_refl)).
    discriminate Hclaim; [apply lookup_insert_eq | left].
  - pose proof (read_results_two_genes 0.0001 0.5) as Hrun. cbv zeta in Hrun.
    rewrite Hkeys in Hrun.
    set (s := two_genes_state 0.0001 0.5 ["gB"; "gA"]) in Hrun.
    change (map (rank_gene s) ["gB"; "gA"]) with [rank_gene s "gB"; rank_gene s "gA"] in Hrun.
    destruct (sort_values_pair (rank_gene s "gB") (rank_gene s "gA")) as [Hsort _];
      [vm_compute; lia |].
    rewrite Hsort in Hrun.
    change (_add_mapped_genes s [rank_gene s "gA"; rank_gene s "gB"])
      with (Ok [ {| ranked := rank_gene s "gA"; gene_name := "BETA" |};
                 {| ranked := rank_gene s "gB"; gene_name := "gA" |} ]) in Hrun.
    rewrite bind_ok in Hrun.
    specialize (Hclaim _ _ _ _ unmatched_dir
                  [ {| ranked := rank_gene s "gA"; gene_name := "BETA" |};
                    {| ranked := rank_gene s "gB"; gene_name := "gA" |} ]
                  {| ranked := rank_gene s "gA"; gene_name := "BETA" |}
                  Hrun (or_intror eq_refl)).
    discriminate Hclaim; [apply lookup_insert_eq | left].
Qed.
End EveryEnvironment.

(** ** The filter that is never called *)

Definition accumulated_keys (r : result analysis) : option (list string) :=
  match r with
  | Ok st => Some (dd_keys (self_pvals st))
  | Raise _ => None
  end.

(** After the run of the classifier example, four files were listed and
    [g3] has one value: [_remove_unrepresented_genes] would drop it (one is
    less than nine tenths of four), and the ranked table has it all the
    same. *)
Example unrepresented_gene_is_kept :
  ∃ st' fs', classifier_example_run = Ok (st', fs')
    ∧ self_num_samples st' = Some 4%nat
    ∧ dd_get (self_pvals st') "g3" = [Q2Qc 0.4]
    ∧ accumulated_keys (_remove_unrepresented_genes st' "g3") = Some ["g2"; "g1"]
    ∧ map (fun r => gene (ranked r))
        <$> results_dir fs' !! "unmatched_results-ranked.tsv" = Some ["g1"; "g2"; "g3"].
Proof.
  exists (get_ok no_outcome classifier_example_run).1,
         (get_ok no_outcome classifier_example_run).2.
  repeat apply conj; vm_compute; reflexivity.
Qed.

(** * Further properties of the code *)

(** ** [_add_mapped_genes] *)

(** X1. On a frame that has rows, or when [self.genes] is empty,
    [_add_mapped_genes] raises [ValueError] exactly when the frame does not
    have one row per gene of [self.genes]; otherwise it returns the rows it
    was given, in their order and with their columns, and the new column
    holds the names of [self.genes], in the order of [self.genes]. *)
Theorem add_mapped_genes_adds_one_column (st : analysis) (df : list ranked_row)
    (Hrows : df ≠ [] ∨ self_genes st = []) :
  match _add_mapped_genes st df with
  | Ok tbl =>
      length df = length (self_genes st)
      ∧ map ranked tbl = df
      ∧ map gene_name tbl
        = map (mapped_name (gene_mappings (gene_map st))) (self_genes st)
  | Raise e => length df ≠ length (self_genes st) ∧ ∃ msg, e = ValueError msg
  end.
Proof.
  destruct (decide (length df = length (self_genes st))) as [Hlen | Hlen].
  - destruct (add_mapped_genes_ok st df Hlen) as (tbl & -> & Hranked & Hnames). done.
  - unfold _add_mapped_genes. rewrite bool_decide_eq_false_2.
    + split; [done | eauto].
    + rewrite length_map. congruence.
Qed.

Lemma add_mapped_genes_adds_one_column_witness :
  match _add_mapped_genes (set_genes (__init__ [] [("g1", "ONE")]) ["g1"; "g2"])
          [rank_gene (__init__ [] []) "g1"] with
  | Ok tbl =>
      length [rank_gene (__init__ [] []) "g1"]
      = length (self_genes (set_genes (__init__ [] [("g1", "ONE")]) ["g1"; "g2"]))
      ∧ map ranked tbl = [rank_gene (__init__ [] []) "g1"]
      ∧ map gene_name tbl
        = map (mapped_name
                 (gene_mappings
                    (gene_map (set_genes (__init__ [] [("g1", "ONE")]) ["g1"; "g2"]))))
            (self_genes (set_genes (__init__ [] [("g1", "ONE")]) ["g1"; "g2"]))
  | Raise e =>
      length [rank_gene (__init__ [] []) "g1"]
      ≠ length (self_genes (set_genes (__init__ [] [("g1", "ONE")]) ["g1"; "g2"]))
      ∧ ∃ msg, e = ValueError msg
  end.
Proof.
  apply (add_mapped_genes_adds_one_column
           (set_genes (__init__ [] [("g1", "ONE")]) ["g1"; "g2"])
           [rank_gene (__init__ [] []) "g1"]).
  left. discriminate.
Defined.

Lemma gene_mappings_foldl (l : list (string * string)) (m : gmap string string) (k : string) :
  foldl (fun m xy => <[xy.1 := xy.2]> m) m l !! k
  = match last (filter (fun xy => xy.1 = k) l) with
    | Some xy => Some xy.2
    | None => m !! k
    end.
Proof.
  revert m. induction l as [|[k' v] l IH]; intros m; [done |].
  simpl. rewrite IH, filter_cons. simpl. destruct (decide (k' = k)) as [-> | Hne].
  - rewrite last_cons. destruct (last _); [done |]. by rewrite lookup_insert_eq.
  - destruct (last _); [done |]. by rewrite lookup_insert_ne.
Qed.

(** X2. The last row of the mapping table with a given gene id decides the
    name of that id; an id that no row has keeps itself as its name. *)
Theorem mapped_name_last_row_wins (id_map : list (string * string)) (gene : string) :
  mapped_name (gene_mappings id_map) gene
  = match last (filter (fun xy => xy.1 = gene) id_map) with
    | Some xy => xy.2
    | None => gene
    end.
Proof.
  unfold mapped_name, gene_mappings. rewrite gene_mappings_foldl, lookup_empty.
  by destruct (last _).
Qed.

(** ** [_remove_unrepresented_genes] *)

Lemma dd_pop_None (d : accumulator) (k : string) : k ∉ dd_keys d → dd_pop d k = None.
Proof.
  unfold dd_keys. induction d as [|[k' l] d IH]; simpl; intros Hk; [done |].
  apply not_elem_of_cons in Hk as [Hne Hk].
  rewrite bool_decide_eq_false_2 by congruence. by rewrite IH.
Qed.

Lemma dd_pop_Some (d : accumulator) (k : string) :
  k ∈ dd_keys d →
  ∃ d', dd_pop d k = Some d'
    ∧ (∀ k', k' ≠ k → dd_get d' k' = dd_get d k')
    ∧ (∀ k', k' ≠ k → (k' ∈ dd_keys d' ↔ k' ∈ dd_keys d))
    ∧ (NoDup (dd_keys d) → (k ∉ dd_keys d') ∧ NoDup (dd_keys d')).
Proof.
  unfold dd_keys. induction d as [|[k0 l] d IH]; simpl; intros Hk.
  - by apply elem_of_nil in Hk.
  - destruct (bool_decide_reflect (k0 = k)) as [-> | Hne].
    + exists d. split; [done |]. split; [| split].
      * intros k' Hk'. by rewrite bool_decide_eq_false_2 by congruence.
      * intros k' Hk'. rewrite elem_of_cons. split; [by right | by intros [? | ?]].
      * intros Hnd. by apply NoDup_cons in Hnd.
    + apply elem_of_cons in Hk as [-> | Hk]; [done |].
      destruct (IH Hk) as (d' & -> & Hget & Hkeys & Hnd). eexists. split; [done |].
      simpl. split; [| split].
      * intros k' Hk'. case_bool_decide; [done | by apply Hget].
      * intros k' Hk'. rewrite !elem_of_cons, Hkeys by done. done.
      * intros Hnd0. apply NoDup_cons in Hnd0 as [Hk0 Hnd0].
        destruct (Hnd Hnd0) as [Hk' Hnd']. split.
        -- rewrite not_elem_of_cons. split; [congruence | done].
        -- apply NoDup_cons. split; [| done].
           intros Hin. apply Hk0. by apply Hkeys.
Qed.

(** X3. For a gene that the three accumulators have:
    [_remove_unrepresented_genes] never raises; when the gene has fewer
    values than nine tenths of [num_samples] (rounded down) it leaves the
    three accumulators without the gene and with every other series as it
    was; otherwise it changes nothing. *)
Theorem remove_unrepresented_genes_of_known_gene (st : analysis) (gene : string) (n : nat)
    (Hn : self_num_samples st = Some n)
    (Hp : gene ∈ dd_keys (self_pvals st)) (Hf : gene ∈ dd_keys (self_fc st))
    (Hc : gene ∈ dd_keys (self_cpm st))
    (Hndp : NoDup (dd_keys (self_pvals st))) (Hndf : NoDup (dd_keys (self_fc st)))
    (Hndc : NoDup (dd_keys (self_cpm st))) :
  ∃ st', _remove_unrepresented_genes st gene = Ok st'
    ∧ if decide (length (dd_get (self_pvals st) gene) < n * 9 / 10)%nat
      then ((gene ∉ dd_keys (self_pvals st')) ∧ (gene ∉ dd_keys (self_fc st'))
            ∧ (gene ∉ dd_keys (self_cpm st'))
            ∧ ∀ g, g ≠ gene →
                dd_get (self_pvals st') g = dd_get (self_pvals st) g
                ∧ dd_get (self_fc st') g = dd_get (self_fc st) g
                ∧ dd_get (self_cpm st') g = dd_get (self_cpm st) g
                ∧ (g ∈ dd_keys (self_pvals st') ↔ g ∈ dd_keys (self_pvals st)))
      else (self_pvals st' = self_pvals st ∧ self_fc st' = self_fc st
            ∧ self_cpm st' = self_cpm st).
Proof.
  unfold _remove_unrepresented_genes. rewrite Hn.
  rewrite (bool_decide_eq_true_2 _ Hp).
  destruct (decide (length (dd_get (self_pvals st) gene) < n * 9 / 10)%nat) as [Hlt | Hge].
  - rewrite (proj2 (Nat.ltb_lt _ _) Hlt).
    destruct (dd_pop_Some _ _ Hp) as (p & -> & Hgp & Hkp & Hnp).
    destruct (dd_pop_Some _ _ Hf) as (f & -> & Hgf & Hkf & Hnf).
    destruct (dd_pop_Some _ _ Hc) as (c & -> & Hgc & Hkc & Hnc).
    eexists. split; [done |]. simpl.
    split; [by apply Hnp |]. split; [by apply Hnf |]. split; [by apply Hnc |].
    intros g Hg. auto.
  - rewrite (proj2 (Nat.ltb_ge _ _)) by lia. eexists. split; [done |]. done.
Qed.

(** X4. For a gene that was never accumulated, reading [self.pvals[gene]]
    creates the key with an empty series.  When nine tenths of
    [num_samples] round down to 0 nothing is popped and the key stays;
    otherwise the key is popped from [self.pvals] and the pop from
    [self.fc] raises [KeyError]. *)
Theorem remove_unrepresented_genes_of_unknown_gene (st : analysis) (gene : string) (n : nat)
    (Hn : self_num_samples st = Some n)
    (Hp : gene ∉ dd_keys (self_pvals st)) (Hf : gene ∉ dd_keys (self_fc st)) :
  if decide (n * 9 / 10 = 0)%nat
  then (∃ st', _remove_unrepresented_genes st gene = Ok st'
          ∧ self_pvals st' = self_pvals st ++ [(gene, [])]
          ∧ self_fc st' = self_fc st ∧ self_cpm st' = self_cpm st)
  else _remove_unrepresented_genes st gene = Raise (KeyError gene).
Proof.
  unfold _remove_unrepresented_genes. rewrite Hn.
  rewrite (bool_decide_eq_false_2 _ Hp).
  assert (Hget : dd_get (self_pvals st ++ [(gene, [])]) gene = []).
  { revert Hp. unfold dd_keys. induction (self_pvals st) as [|[k l] d IH]; simpl; intros Hp.
    - by rewrite bool_decide_eq_true_2.
    - apply not_elem_of_cons in Hp as [Hne Hp].
      rewrite bool_decide_eq_false_2 by congruence. by apply IH. }
  rewrite Hget. simpl. case_decide as Hz.
  - rewrite Hz. simpl. eexists. split; [done |]. done.
  - rewrite (proj2 (Nat.ltb_lt _ _)) by lia.
    rewrite (dd_pop_None (self_fc st) gene Hf).
    by destruct (dd_pop _ _).
Qed.

Definition filter_example_state : analysis :=
  set_accumulators (set_dfs (__init__ [] []) ["a.tsv"; "b.tsv"; "c.tsv"; "d.tsv"])
    [("g1", [Q2Qc 0.5]); ("g2", [Q2Qc 0.5; Q2Qc 0.4; Q2Qc 0.3])]
    [("g1", [Q2Qc 1]); ("g2", [Q2Qc 1; Q2Qc 1; Q2Qc 1])]
    [("g1", [Q2Qc 2]); ("g2", [Q2Qc 2; Q2Qc 2; Q2Qc 2])].

Lemma remove_unrepresented_genes_of_known_gene_witness :
  ∃ st', _remove_unrepresented_genes filter_example_state "g1" = Ok st'
    ∧ dd_keys (self_pvals st') = ["g2"].
Proof.
  destruct (remove_unrepresented_genes_of_known_gene filter_example_state "g1" 4)
    as (st' & Hrun & _);
    [reflexivity | compute_done | compute_done | compute_done
    | compute_done | compute_done | compute_done |].
  exists st'. split; [exact Hrun |].
  assert (Heq : _remove_unrepresented_genes filter_example_state "g1"
                = Ok (set_accumulators filter_example_state
                        [("g2", [Q2Qc 0.5; Q2Qc 0.4; Q2Qc 0.3])]
                        [("g2", [Q2Qc 1; Q2Qc 1; Q2Qc 1])]
                        [("g2", [Q2Qc 2; Q2Qc 2; Q2Qc 2])])) by reflexivity.
  rewrite Heq in Hrun. injection Hrun as <-. reflexivity.
Defined.

Lemma remove_unrepresented_genes_of_unknown_gene_witness :
  _remove_unrepresented_genes filter_example_state "g9" = Raise (KeyError "g9").
Proof.
  apply (remove_unrepresented_genes_of_unknown_gene filter_example_state "g9" 4);
    [reflexivity | compute_done | compute_done].
Defined.

(** ** [_produce_masks]: missing files, and what it leaves alone *)

Lemma mask_pair_cases (fs : filesys) (m : string) :
  (∃ fs1, mask_pair fs m = Ok fs1 ∧ pairwise_results fs1 = pairwise_results fs
          ∧ is_Some (pairwise_results fs !! (m +:+ ".11.tsv"))
          ∧ is_Some (pairwise_results fs !! (m +:+ ".01.tsv")))
  ∨ (mask_pair fs m = Raise (IOError (m +:+ ".11.tsv"))
     ∧ pairwise_results fs !! (m +:+ ".11.tsv") = None)
  ∨ (mask_pair fs m = Raise (IOError (m +:+ ".01.tsv"))
     ∧ pairwise_results fs !! (m +:+ ".01.tsv") = None).
Proof.
  destruct (pairwise_results fs !! (m +:+ ".11.tsv")) as [n |] eqn:Hn.
  - destruct (pairwise_results fs !! (m +:+ ".01.tsv")) as [t |] eqn:Ht.
    + left. rewrite (mask_pair_ok fs m n t Hn Ht). eexists. split; [done |].
      split; [done |]. split; eauto.
    + right. right. split; [| done]. unfold mask_pair, read_csv. simpl.
      rewrite Hn. simpl. by rewrite Ht.
  - right. left. split; [| done]. unfold mask_pair, read_csv. simpl. by rewrite Hn.
Qed.

Lemma produce_masks_loop_missing (l : list string) (fs : filesys) (m : string) :
  m ∈ l →
  pairwise_results fs !! (m +:+ ".11.tsv") = None
  ∨ pairwise_results fs !! (m +:+ ".01.tsv") = None →
  ∃ m' name, for_each mask_pair l fs = Raise (IOError name)
    ∧ m' ∈ l ∧ pairwise_results fs !! name = None
    ∧ (name = m' +:+ ".11.tsv" ∨ name = m' +:+ ".01.tsv").
Proof.
  revert fs. induction l as [|h l IH]; intros fs Hm Hmissing.
  - by apply elem_of_nil in Hm.
  - rewrite for_each_cons.
    destruct (mask_pair_cases fs h)
      as [(fs1 & -> & Hpw & H11 & H01) | [[-> Hnone] | [-> Hnone]]].
    + rewrite bind_ok. apply elem_of_cons in Hm as [-> | Hm].
      * destruct Hmissing as [Hmiss | Hmiss]; rewrite Hmiss in *;
          [by destruct H11 | by destruct H01].
      * destruct (IH fs1 Hm) as (m' & name & -> & Hm' & Hname & Hcase);
          [by rewrite Hpw |].
        exists m', name. rewrite <- Hpw. split; [done |]. split; [by right | done].
    + exists h, (h +:+ ".11.tsv"). split; [done |]. split; [by left |]. split; [done | by left].
    + exists h, (h +:+ ".01.tsv"). split; [done |]. split; [by left |]. split; [done | by right].
Qed.

(** X5. The handler of [IOError] in [_produce_masks] is commented out: when a
    file of some matched subject is not in the input directory, the mask
    engine raises [IOError], for a file of a matched subject that is not
    there. *)
Theorem produce_masks_raises_on_missing_file (fs : filesys) (matched : gset string)
    (m : string) (Hm : m ∈ matched)
    (Hmissing : pairwise_results fs !! (m +:+ ".11.tsv") = None
                ∨ pairwise_results fs !! (m +:+ ".01.tsv") = None) :
  ∃ m' name, _produce_masks fs matched = Raise (IOError name)
    ∧ m' ∈ matched ∧ pairwise_results fs !! name = None
    ∧ (name = m' +:+ ".11.tsv" ∨ name = m' +:+ ".01.tsv").
Proof.
  destruct (produce_masks_loop_missing (elements matched) fs m)
    as (m' & name & Hrun & Hm' & Hname & Hcase); [by apply elem_of_elements | done |].
  exists m', name. split; [done |]. split; [by apply elem_of_elements | done].
Qed.

Lemma produce_masks_raises_on_missing_file_witness :
  ∃ m' name, _produce_masks empty_fs {["P"]} = Raise (IOError name)
    ∧ m' ∈ ({["P"]} : gset string) ∧ pairwise_results empty_fs !! name = None
    ∧ (name = m' +:+ ".11.tsv" ∨ name = m' +:+ ".01.tsv").
Proof.
  apply (produce_masks_raises_on_missing_file empty_fs {["P"]} "P");
    [compute_done | left; reflexivity].
Defined.

(** X6. When the files of all the matched subjects are there, the mask engine
    writes its two files per subject and nothing else: the input directory,
    the matched and the unmatched area and the results are as they were,
    and so is every other file of the masked area. *)
Theorem produce_masks_touches_only_its_outputs (fs : filesys) (matched : gset string)
    (Hfiles : ∀ m, m ∈ matched →
        is_Some (pairwise_results fs !! (m +:+ ".11.tsv"))
        ∧ is_Some (pairwise_results fs !! (m +:+ ".01.tsv"))) :
  ∃ fs', _produce_masks fs matched = Ok fs'
    ∧ pairwise_results fs' = pairwise_results fs
    ∧ matched_results fs' = matched_results fs
    ∧ unmatched_results fs' = unmatched_results fs
    ∧ results_dir fs' = results_dir fs
    ∧ (∀ name, (∀ m, m ∈ matched → name ≠ m +:+ ".01.tsv") →
         masked_results fs' !! name = masked_results fs !! name)
    ∧ (∀ name, (∀ m, m ∈ matched → name ≠ m +:+ "_masked_genes") →
         masked_genes_files fs' !! name = masked_genes_files fs !! name).
Proof.
  destruct (produce_masks_loop (elements matched) fs)
    as (fs' & Hloop & Hpw & Hma & Hun & Hre & Hframe & Hside & _).
  - apply NoDup_elements.
  - intros m Hm. apply Hfiles. by apply elem_of_elements.
  - exists fs'. do 5 (split; [done |]). split.
    + intros name Hname. apply Hframe. intros m Hm. apply Hname.
      by apply elem_of_elements.
    + intros name Hname. apply Hside. intros m Hm. apply Hname.
      by apply elem_of_elements.
Qed.

Lemma produce_masks_touches_only_its_outputs_witness :
  ∃ fs', _produce_masks mask_example_fs {["P"]} = Ok fs'
    ∧ pairwise_results fs' = pairwise_results mask_example_fs
    ∧ masked_results fs' !! "Q.01.tsv" = None.
Proof.
  destruct (produce_masks_touches_only_its_outputs mask_example_fs {["P"]})
    as (fs' & Hrun & Hpw & _ & _ & _ & Hframe & _).
  - intros m Hm. apply elem_of_singleton in Hm as ->. split; vm_compute; eauto.
  - exists fs'. split; [exact Hrun |]. split; [exact Hpw |].
    rewrite Hframe; [reflexivity |].
    intros m Hm. apply elem_of_singleton in Hm as ->. discriminate.
Defined.

(** X7. The loop that drops the flagged genes: no flagged gene is left in the
    table; a table that has none of them is returned as it is; the order of
    the flagged genes, and their repetitions, do not matter; and dropping
    them again changes nothing. *)
Theorem drop_masked_is_a_filter (df_tumor : table) (masked_genes : list string) :
  ∃ out, drop_masked df_tumor masked_genes = Ok out
    ∧ (∀ g, g ∈ masked_genes → g ∉ index out)
    ∧ (out = df_tumor ↔ ∀ g, g ∈ masked_genes → g ∉ index df_tumor)
    ∧ (∀ genes', (∀ g, g ∈ genes' ↔ g ∈ masked_genes) →
         drop_masked df_tumor genes' = Ok out)
    ∧ drop_masked out masked_genes = Ok out.
Proof.
  eexists. split; [apply drop_masked_filter |]. split; [| split; [| split]].
  - intros g Hg Hin. unfold index in Hin. apply list_elem_of_fmap in Hin as (r & -> & Hr).
    apply list_elem_of_filter in Hr as [Hr _]. done.
  - split.
    + intros Heq g Hg Hin. unfold index in Hin.
      apply list_elem_of_fmap in Hin as (r & -> & Hr).
      rewrite <- Heq in Hr. apply list_elem_of_filter in Hr as [Hr _]. done.
    + intros Hnone. apply filter_all, Forall_forall. intros r Hr Hg.
      apply (Hnone _ Hg). unfold index. apply list_elem_of_fmap. eauto.
  - intros genes' Hsame. rewrite drop_masked_filter. f_equal.
    apply list_filter_iff. intros r. by rewrite Hsame.
  - rewrite drop_masked_filter. f_equal. apply filter_all, Forall_forall.
    intros r Hr. by apply list_elem_of_filter in Hr as [Hr _].
Qed.


(** ** File names and subjects *)

Lemma length_append (a b : string) :
  String.length (a +:+ b) = (String.length a + String.length b)%nat.
Proof. induction a as [|c a IH]; simpl; [done | by rewrite IH]. Qed.

Lemma append_assoc (a b c : string) : (a +:+ b) +:+ c = a +:+ b +:+ c.
Proof.
  induction a as [|x a IH]; [reflexivity |].
  change (String x ((a +:+ b) +:+ c) = String x (a +:+ b +:+ c)). by f_equal.
Qed.

Lemma substring_all (b : string) : String.substring 0 (String.length b) b = b.
Proof. induction b as [|c b IH]; simpl; [done | by rewrite IH]. Qed.

Lemma substring_append_prefix (a b : string) :
  String.substring 0 (String.length a) (a +:+ b) = a.
Proof.
  induction a as [|c a IH]; simpl; [by destruct b | by rewrite IH].
Qed.

Lemma substring_append_suffix (a b : string) :
  String.substring (String.length a) (String.length b) (a +:+ b) = b.
Proof. induction a as [|c a IH]; simpl; [apply substring_all | done]. Qed.

Lemma drop_last_append (a suffix : string) :
  PyStr.drop_last (String.length suffix) (a +:+ suffix) = a.
Proof.
  unfold PyStr.drop_last. rewrite length_append.
  replace (String.length a + String.length suffix - String.length suffix)%nat
    with (String.length a) by lia.
  apply substring_append_prefix.
Qed.

Lemma endswith_append (a suffix : string) : PyStr.endswith (a +:+ suffix) suffix = true.
Proof.
  unfold PyStr.endswith. rewrite length_append.
  replace (String.length a + String.length suffix - String.length suffix)%nat
    with (String.length a) by lia.
  rewrite substring_append_suffix, String.eqb_refl, andb_true_r.
  apply Nat.leb_le. lia.
Qed.

(** X8. The barcode [x[:-7]] of a file named [<subject>.<type>.tsv], for a type
    of two characters, is the subject, and the file is listed as a result
    file. *)
Theorem barcode_of_result_file (subject type : string)
    (Htype : String.length type = 2%nat) :
  PyStr.drop_last 7 (subject +:+ "." +:+ type +:+ ".tsv") = subject
  ∧ PyStr.endswith (subject +:+ "." +:+ type +:+ ".tsv") ".tsv" = true.
Proof.
  split.
  - replace 7%nat with (String.length ("." +:+ type +:+ ".tsv")).
    + apply drop_last_append.
    + rewrite !length_append, Htype. reflexivity.
  - rewrite <- (append_assoc "." type ".tsv").
    rewrite <- (append_assoc subject ("." +:+ type) ".tsv").
    apply endswith_append.
Qed.

Lemma barcode_of_result_file_witness :
  PyStr.drop_last 7 ("TCGA.A1" +:+ "." +:+ "01" +:+ ".tsv") = "TCGA.A1"
  ∧ PyStr.endswith ("TCGA.A1" +:+ "." +:+ "01" +:+ ".tsv") ".tsv" = true.
Proof. apply (barcode_of_result_file "TCGA.A1" "01"). reflexivity. Defined.

(** X9. A name of at most seven characters has the empty barcode: the slice
    [x[:-7]] does not raise. *)
Theorem barcode_of_short_name (x : string) :
  (String.length x <= 7)%nat → PyStr.drop_last 7 x = "".
Proof.
  intros Hlen. unfold PyStr.drop_last.
  replace (String.length x - 7)%nat with 0%nat by lia. by destruct x.
Qed.

Lemma barcode_of_short_name_witness : PyStr.drop_last 7 ".tsv" = "".
Proof. apply (barcode_of_short_name ".tsv"). simpl. lia. Defined.

Lemma occurrences_fmap (f : string → string) (x : string) (l : list string) :
  occurrences x (map f l) = length (filter (fun y => f y = x) l).
Proof.
  unfold occurrences. induction l as [|y l IH]; [done |].
  simpl. rewrite !filter_cons. case_decide; simpl; by rewrite IH.
Qed.

(** X10. A subject whose two files are listed, and are the only listed files
    with its barcode, is matched. *)
Theorem pair_of_files_is_matched (dfs : list string) (subject : string)
    (Hnd : NoDup dfs)
    (H11 : subject +:+ ".11.tsv" ∈ dfs) (H01 : subject +:+ ".01.tsv" ∈ dfs)
    (Honly : ∀ f, f ∈ dfs → PyStr.drop_last 7 f = subject →
               f = subject +:+ ".11.tsv" ∨ f = subject +:+ ".01.tsv") :
  subject ∈ matched_subjects dfs.
Proof.
  apply elem_of_matched_subjects. split; [| done].
  rewrite occurrences_fmap.
  assert (Hperm : filter (fun y => PyStr.drop_last 7 y = subject) dfs
                  ≡ₚ [subject +:+ ".11.tsv"; subject +:+ ".01.tsv"]).
  { apply NoDup_Permutation.
    - by apply NoDup_filter.
    - apply NoDup_cons. split; [| apply NoDup_singleton].
      rewrite list_elem_of_singleton. intros Heq.
      apply (f_equal String.list_ascii_of_string) in Heq.
      rewrite !list_ascii_of_string_app in Heq. apply app_inv_head in Heq. discriminate.
    - intros f. rewrite list_elem_of_filter, elem_of_cons, list_elem_of_singleton. split.
      + intros [Hb Hf]. by apply Honly.
      + intros [-> | ->]; (split; [| done]).
        * apply (drop_last_append subject ".11.tsv").
        * apply (drop_last_append subject ".01.tsv"). }
  by rewrite Hperm.
Qed.

Lemma pair_of_files_is_matched_witness :
  "A" ∈ matched_subjects ["A.01.tsv"; "A.11.tsv"; "B.01.tsv"].
Proof.
  apply (pair_of_files_is_matched ["A.01.tsv"; "A.11.tsv"; "B.01.tsv"] "A");
    [compute_done | compute_done | compute_done |].
  intros f Hf Hb. repeat (apply elem_of_cons in Hf as [-> | Hf]);
    [by right | by left | discriminate Hb | by apply elem_of_nil in Hf].
Defined.

(** X11. The listed files with the barcode of a matched subject are its two
    files and no other. *)
Theorem matched_subject_has_its_two_files (dfs : list string) (subject f : string)
    (Hnd : NoDup dfs) (Hm : subject ∈ matched_subjects dfs)
    (Hf : f ∈ dfs) (Hb : PyStr.drop_last 7 f = subject) :
  f = subject +:+ ".11.tsv" ∨ f = subject +:+ ".01.tsv".
Proof.
  apply elem_of_matched_subjects in Hm as (Hocc & H11 & H01).
  rewrite occurrences_fmap in Hocc.
  set (l := filter (fun y => PyStr.drop_last 7 y = subject) dfs) in *.
  assert (Hndl : NoDup l) by by apply NoDup_filter.
  assert (Hin : ∀ y, y ∈ dfs → PyStr.drop_last 7 y = subject → y ∈ l).
  { intros y Hy Hby. by apply list_elem_of_filter. }
  pose proof (Hin _ H11 (drop_last_append subject ".11.tsv")) as Ha.
  pose proof (Hin _ H01 (drop_last_append subject ".01.tsv")) as Hb'.
  pose proof (Hin _ Hf Hb) as Hfl.
  destruct l as [|x [|y [|z l]]]; try discriminate Hocc.
  rewrite !elem_of_cons in Ha, Hb', Hfl.
  destruct Hfl as [-> | [-> | Hfl]]; [| | by apply elem_of_nil in Hfl].
  - destruct Ha as [<- | [<- | Ha]]; [by left | | by apply elem_of_nil in Ha].
    destruct Hb' as [<- | [Heq | Hb']]; [by right | | by apply elem_of_nil in Hb'].
    exfalso. apply (f_equal String.list_ascii_of_string) in Heq.
    rewrite !list_ascii_of_string_app in Heq. apply app_inv_head in Heq. discriminate.
  - destruct Ha as [<- | [<- | Ha]]; [| by left | by apply elem_of_nil in Ha].
    destruct Hb' as [Heq | [<- | Hb']]; [| by right | by apply elem_of_nil in Hb'].
    exfalso. apply (f_equal String.list_ascii_of_string) in Heq.
    rewrite !list_ascii_of_string_app in Heq. apply app_inv_head in Heq. discriminate.
Qed.

Lemma matched_subject_has_its_two_files_witness :
  "A.01.tsv" = "A" +:+ ".11.tsv" ∨ "A.01.tsv" = "A" +:+ ".01.tsv".
Proof.
  apply (matched_subject_has_its_two_files ["A.01.tsv"; "A.11.tsv"; "B.01.tsv"]);
    [compute_done | vm_compute; reflexivity | compute_done | reflexivity].
Defined.


(** ** What a pass of the ranking loop keeps *)

Lemma dd_keys_append (d : accumulator) (k : string) (v : Qc) :
  dd_keys (dd_append d k v)
  = if decide (k ∈ dd_keys d) then dd_keys d else dd_keys d ++ [k].
Proof.
  induction d as [|[k' l] d IH].
  - destruct (decide (k ∈ dd_keys [])) as [Hin | _]; [| done].
    by apply elem_of_nil in Hin.
  - change (dd_keys ((k', l) :: d)) with (k' :: dd_keys d).
    change (dd_append ((k', l) :: d) k v)
      with (if bool_decide (k' = k) then (k', l ++ [v]) :: d
            else (k', l) :: dd_append d k v).
    destruct (bool_decide_reflect (k' = k)) as [-> | Hne].
    + by rewrite decide_True by left.
    + change (dd_keys ((k', l) :: dd_append d k v))
        with (k' :: dd_keys (dd_append d k v)).
      rewrite IH. destruct (decide (k ∈ dd_keys d)) as [Hin | Hin].
      * by rewrite decide_True by by right.
      * rewrite decide_False; [done |]. rewrite not_elem_of_cons.
        split; [congruence | done].
Qed.

(** A property of the [Analysis] object that the three appends for a gene
    and the assignment of [self.genes] keep is kept by a pass of the
    ranking loop. *)
Lemma rank_directory_keeps {env : Environment} (Inv : analysis → Prop)
    (st : analysis) (fs : filesys) (d : directory) (st' : analysis) (fs' : filesys) :
  (∀ s g p f c, Inv s →
     Inv (set_accumulators s (dd_append (self_pvals s) g p)
          (dd_append (self_fc s) g f) (dd_append (self_cpm s) g c))) →
  (∀ s genes, Inv s → Inv (set_genes s genes)) →
  Inv st →
  rank_directory (st, fs) d = Ok (st', fs') →
  Inv st'.
Proof.
  intros Happend Hgenes Hst Hrun.
  unfold rank_directory, _rank_results in Hrun. simpl in Hrun.
  assert (Hfile : ∀ df l s, Inv s →
            match for_each (accumulate_gene df) l s with
            | Ok s' => Inv s'
            | Raise _ => True
            end).
  { intros df l. induction l as [|g l IH]; intros s Hs; [exact Hs |].
    rewrite for_each_cons.
    destruct (accumulate_gene df s g) as [s1 | e] eqn:Hacc; [| exact Logic.I].
    rewrite bind_ok. apply IH. unfold accumulate_gene in Hacc.
    destruct (loc df g) as [[r | rows] | e]; [| discriminate Hacc | discriminate Hacc].
    injection Hacc as <-. by apply Happend. }
  assert (Hfiles : ∀ files s, Inv s →
            match for_each (fun st f => df ← read_csv fs d f;
                              for_each (accumulate_gene df) (index df) st) files s with
            | Ok s' => Inv s'
            | Raise _ => True
            end).
  { intros files. induction files as [|f files IH]; intros s Hs; [exact Hs |].
    rewrite for_each_cons. destruct (read_csv fs d f) as [df | e]; [| exact Logic.I].
    rewrite bind_ok. pose proof (Hfile df (index df) s Hs) as Hdf.
    destruct (for_each (accumulate_gene df) (index df) s) as [s1 | e]; [| exact Logic.I].
    rewrite bind_ok. by apply IH. }
  specialize (Hfiles (filter (fun x => PyStr.endswith x ".tsv" = true) (os_listdir fs d))
                st Hst).
  destruct (for_each _ _ st) as [s0 | e]; simpl in Hrun; [| discriminate].
  destruct (_add_mapped_genes _ _) as [tbl | e]; simpl in Hrun; [| discriminate].
  injection Hrun as <- _. by apply Hgenes.
Qed.

(** The three accumulators are in step: they have the same keys in the same
    order and, for every gene, series of the same length. *)
Definition in_step (st : analysis) : Prop :=
  dd_keys (self_fc st) = dd_keys (self_pvals st)
  ∧ dd_keys (self_cpm st) = dd_keys (self_pvals st)
  ∧ ∀ g, length (dd_get (self_fc st) g) = length (dd_get (self_pvals st) g)
         ∧ length (dd_get (self_cpm st) g) = length (dd_get (self_pvals st) g).

(** The series of every key is not empty. *)
Definition series_not_empty (st : analysis) : Prop :=
  ∀ g, g ∈ dd_keys (self_pvals st) → dd_get (self_pvals st) g ≠ [].

Lemma in_step_append (s : analysis) (g : string) (p f c : Qc) :
  in_step s →
  in_step (set_accumulators s (dd_append (self_pvals s) g p)
             (dd_append (self_fc s) g f) (dd_append (self_cpm s) g c)).
Proof.
  intros (Hf & Hc & Hlen). unfold in_step. simpl.
  rewrite !dd_keys_append, Hf, Hc. split; [done |]. split; [done |].
  intros g'. rewrite !dd_get_append. destruct (Hlen g') as [Hlf Hlc].
  case_decide; rewrite ?length_app, ?Hlf, ?Hlc; done.
Qed.

Lemma NoDup_keys_append (d : accumulator) (g : string) (p : Qc) :
  NoDup (dd_keys d) → NoDup (dd_keys (dd_append d g p)).
Proof.
  intros Hnd. rewrite dd_keys_append. case_decide as Hin; [done |].
  apply NoDup_app. split; [done |]. split; [| apply NoDup_singleton].
  intros x Hx Hx'. apply list_elem_of_singleton in Hx'. by subst.
Qed.

Lemma series_not_empty_append (s : analysis) (g : string) (p f c : Qc) :
  series_not_empty s →
  series_not_empty (set_accumulators s (dd_append (self_pvals s) g p)
                      (dd_append (self_fc s) g f) (dd_append (self_cpm s) g c)).
Proof.
  intros Hs g'. simpl. rewrite elem_of_dd_keys_append, dd_get_append.
  case_decide as Hg; [by destruct (dd_get (self_pvals s) g') |].
  intros [Hin | Heq]; [by apply Hs | done].
Qed.


(** ** The medians and deviations of a series that is not empty *)

Lemma np_mean_is_Some (l : list Qc) : l ≠ [] → is_Some (np_mean l).
Proof. destruct l; [done | by eexists]. Qed.

Lemma np_sort_length (l : list Qc) : length (np_sort l) = length l.
Proof. by rewrite (np_sort_perm l). Qed.

Lemma slice_length {A : Type} (lo hi : nat) (l : list A) :
  length (slice lo hi l) = (hi - lo) `min` (length l - lo).
Proof. unfold slice. by rewrite length_take, length_drop. Qed.

Lemma np_median_is_Some (l : list Qc) : l ≠ [] → is_Some (np_median l).
Proof.
  intros Hl. unfold np_median. rewrite np_sort_length.
  assert (Hn : (0 < length l)%nat) by (destruct l; [done | simpl; lia]).
  assert (Hhalf : (length l / 2 < length l)%nat) by (apply Nat.div_lt; lia).
  generalize dependent (length l / 2)%nat. intros k Hk.
  destruct (length l mod 2 =? 1)%nat; apply np_mean_is_Some; intros Hnil;
    apply (f_equal length) in Hnil; rewrite slice_length, np_sort_length in Hnil;
    cbn [length] in Hnil; lia.
Qed.

Lemma np_std_is_Some (l : list Qc) : l ≠ [] → is_Some (np_std l).
Proof.
  intros Hl. unfold np_std. destruct (np_mean_is_Some l Hl) as [m ->].
  destruct (np_mean_is_Some (map (fun x => (x - m) * (x - m))%Qc l)) as [v ->].
  - by destruct l.
  - by eexists.
Qed.

(** ** The rows of a ranked table *)

(** The state of the accumulators that [__init__] sets up and every pass
    keeps: the three dictionaries are in step, no key is repeated, and no
    series is empty. *)
Definition accumulators_ok (st : analysis) : Prop :=
  in_step st ∧ NoDup (dd_keys (self_pvals st)) ∧ series_not_empty st.

Lemma accumulators_ok_init (columns : list string) (mapping : list (string * string)) :
  accumulators_ok (__init__ columns mapping).
Proof.
  split; [| split].
  - by split; [| split].
  - apply NoDup_nil_2.
  - intros g Hg. by apply elem_of_nil in Hg.
Qed.

Lemma genes_of_rows (st : analysis) (l : list string) :
  map gene (map (rank_gene st) l) = l.
Proof. induction l as [|g l IH]; simpl; [done | by rewrite IH]. Qed.

Section RankedRows.

Context {env : Environment} {laws : Lawful env}.

Lemma rank_directory_accumulators_ok (st : analysis) (fs : filesys) (d : directory) :
  accumulators_ok st →
  (∀ f t, PyStr.endswith f ".tsv" = true → dir fs d !! f = Some t → NoDup (index t)) →
  ∃ st' tbl,
    rank_directory (st, fs) d
    = Ok (st', write_results fs (basename d +:+ "-ranked.tsv") tbl)
    ∧ accumulators_ok st'.
Proof.
  intros Hok Hunique.
  destruct (rank_directory_ok st fs d Hunique) as (st' & tbl & Hrun & _).
  exists st', tbl. split; [exact Hrun |].
  apply (rank_directory_keeps accumulators_ok st fs d st'
           (write_results fs (basename d +:+ "-ranked.tsv") tbl));
    [| | done | exact Hrun].
  - intros s g p f c (Hstep & Hnd & Hne). split; [| split].
    + by apply in_step_append.
    + by apply NoDup_keys_append.
    + by apply series_not_empty_append.
  - intros s genes Hs. exact Hs.
Qed.

(** X12. On result files with unique gene ids a pass of the ranking loop
    ends without an exception and keeps the three accumulators in step:
    after it they have the same keys in the same order, series of the same
    length for every gene, no repeated key and no empty series, when they
    had before; the object made by [__init__] starts that way. *)
Theorem rank_pass_keeps_accumulators_ok (st : analysis) (fs : filesys) (d : directory)
    (Hok : accumulators_ok st)
    (Hunique : ∀ f t, PyStr.endswith f ".tsv" = true → dir fs d !! f = Some t →
                 NoDup (index t)) :
  ∃ st' tbl,
    rank_directory (st, fs) d
    = Ok (st', write_results fs (basename d +:+ "-ranked.tsv") tbl)
    ∧ dd_keys (self_fc st') = dd_keys (self_pvals st')
    ∧ dd_keys (self_cpm st') = dd_keys (self_pvals st')
    ∧ (∀ g, length (dd_get (self_fc st') g) = length (dd_get (self_pvals st') g)
            ∧ length (dd_get (self_cpm st') g) = length (dd_get (self_pvals st') g))
    ∧ NoDup (dd_keys (self_pvals st'))
    ∧ (∀ g, g ∈ dd_keys (self_pvals st') → dd_get (self_pvals st') g ≠ []).
Proof.
  destruct (rank_directory_accumulators_ok st fs d Hok Hunique)
    as (st' & tbl & Hrun & (Hf & Hc & Hlen) & Hnd & Hne).
  exists st', tbl. done.
Qed.

(** X13. On result files with unique gene ids the ranked table of a pass
    has exactly one row for every gene the accumulators hold after the
    pass. *)
Theorem ranked_table_has_one_row_per_gene (st : analysis) (fs : filesys) (d : directory)
    (Hok : accumulators_ok st)
    (Hunique : ∀ f t, PyStr.endswith f ".tsv" = true → dir fs d !! f = Some t →
                 NoDup (index t)) :
  ∃ st' tbl,
    rank_directory (st, fs) d
    = Ok (st', write_results fs (basename d +:+ "-ranked.tsv") tbl)
    ∧ NoDup (map (fun r => gene (ranked r)) tbl)
    ∧ ∀ g, g ∈ map (fun r => gene (ranked r)) tbl ↔ g ∈ dd_keys (self_pvals st').
Proof.
  destruct (rank_directory_accumulators_ok st fs d Hok Hunique) as (st' & tbl & Hrun & _ & Hnd & _).
  destruct (rank_directory_ok st fs d Hunique)
    as (st2 & tbl2 & Hrun2 & _ & Hgenes & Hrows & _).
  rewrite Hrun in Hrun2. injection Hrun2 as <- Htbl.
  apply (f_equal (fun m => m !! (basename d +:+ "-ranked.tsv"))) in Htbl.
  rewrite !lookup_insert_eq in Htbl. injection Htbl as <-.
  exists st', tbl. split; [exact Hrun |].
  assert (Hperm : map (fun r => gene (ranked r)) tbl ≡ₚ dd_keys (self_pvals st')).
  { rewrite <- (map_map ranked gene tbl), Hrows.
    etrans; [apply Permutation_map, sort_values_perm |].
    rewrite genes_of_rows, Hgenes. apply dict_keys_order_perm. }
  split; [by rewrite Hperm | intros g; by rewrite Hperm].
Qed.

(** X14. On result files with unique gene ids every row of the ranked
    table of a pass is defined: it counts at least
    one sample, its count of p-values below the threshold is at most its
    number of samples, and none of its medians and standard deviations is
    [nan]. *)
Theorem ranked_rows_are_defined (st : analysis) (fs : filesys) (d : directory)
    (Hok : accumulators_ok st)
    (Hunique : ∀ f t, PyStr.endswith f ".tsv" = true → dir fs d !! f = Some t →
                 NoDup (index t)) :
  ∃ st' tbl,
    rank_directory (st, fs) d
    = Ok (st', write_results fs (basename d +:+ "-ranked.tsv") tbl)
    ∧ ∀ row, row ∈ tbl →
        (1 ≤ num_samples (ranked row))%nat
        ∧ (pval_counts (ranked row) ≤ num_samples (ranked row))%nat
        ∧ is_Some (pval (ranked row)) ∧ is_Some (pval_std (ranked row))
        ∧ is_Some (fc (ranked row)) ∧ is_Some (fc_std (ranked row))
        ∧ is_Some (cpm (ranked row)) ∧ is_Some (cpm_std (ranked row)).
Proof.
  destruct (rank_directory_accumulators_ok st fs d Hok Hunique)
    as (st' & tbl & Hrun & (_ & _ & Hlen) & _ & Hne).
  destruct (rank_directory_ok st fs d Hunique)
    as (st2 & tbl2 & Hrun2 & _ & Hgenes & Hrows & _).
  rewrite Hrun in Hrun2. injection Hrun2 as <- Htbl.
  apply (f_equal (fun m => m !! (basename d +:+ "-ranked.tsv"))) in Htbl.
  rewrite !lookup_insert_eq in Htbl. injection Htbl as <-.
  exists st', tbl. split; [exact Hrun |]. intros row Hrow.
  assert (Hin : ranked row ∈ map ranked tbl) by (apply list_elem_of_fmap; eauto).
  rewrite Hrows, (sort_values_perm _) in Hin.
  apply list_elem_of_fmap in Hin as (g & -> & Hg).
  rewrite Hgenes, (dict_keys_order_perm _) in Hg. apply Hne in Hg.
  destruct (Hlen g) as [Hlf Hlc].
  assert (Hf : dd_get (self_fc st') g ≠ []).
  { intros Hnil. rewrite Hnil in Hlf. by destruct (dd_get (self_pvals st') g). }
  assert (Hc : dd_get (self_cpm st') g ≠ []).
  { intros Hnil. rewrite Hnil in Hlc. by destruct (dd_get (self_pvals st') g). }
  unfold rank_gene. simpl. split; [| split].
  - destruct (dd_get (self_pvals st') g); [done | simpl; lia].
  - apply length_filter.
  - repeat split; auto using np_median_is_Some, np_std_is_Some.
Qed.

End RankedRows.

Lemma rank_pass_keeps_accumulators_ok_witness :
  ∃ st' tbl,
    rank_directory (env := example_env) (__init__ [] [], ranking_example_fs) unmatched_dir
    = Ok (st', write_results ranking_example_fs "unmatched_results-ranked.tsv" tbl)
    ∧ dd_keys (self_fc st') = dd_keys (self_pvals st')
    ∧ dd_keys (self_cpm st') = dd_keys (self_pvals st')
    ∧ (∀ g, length (dd_get (self_fc st') g) = length (dd_get (self_pvals st') g)
            ∧ length (dd_get (self_cpm st') g) = length (dd_get (self_pvals st') g))
    ∧ NoDup (dd_keys (self_pvals st'))
    ∧ (∀ g, g ∈ dd_keys (self_pvals st') → dd_get (self_pvals st') g ≠ []).
Proof.
  apply (rank_pass_keeps_accumulators_ok (env := example_env) (__init__ [] [])
           ranking_example_fs unmatched_dir (accumulators_ok_init [] [])).
  unique_by_evaluation.
Defined.

Lemma ranked_table_has_one_row_per_gene_witness :
  ∃ st' tbl,
    rank_directory (env := example_env) (__init__ [] [], ranking_example_fs) unmatched_dir
    = Ok (st', write_results ranking_example_fs "unmatched_results-ranked.tsv" tbl)
    ∧ NoDup (map (fun r => gene (ranked r)) tbl)
    ∧ ∀ g, g ∈ map (fun r => gene (ranked r)) tbl ↔ g ∈ dd_keys (self_pvals st').
Proof.
  apply (ranked_table_has_one_row_per_gene (env := example_env) (__init__ [] [])
           ranking_example_fs unmatched_dir (accumulators_ok_init [] [])).
  unique_by_evaluation.
Defined.

Lemma ranked_rows_are_defined_witness :
  ∃ st' tbl,
    rank_directory (env := example_env) (__init__ [] [], ranking_example_fs) unmatched_dir
    = Ok (st', write_results ranking_example_fs "unmatched_results-ranked.tsv" tbl)
    ∧ ∀ row, row ∈ tbl →
        (1 ≤ num_samples (ranked row))%nat
        ∧ (pval_counts (ranked row) ≤ num_samples (ranked row))%nat
        ∧ is_Some (pval (ranked row)) ∧ is_Some (pval_std (ranked row))
        ∧ is_Some (fc (ranked row)) ∧ is_Some (fc_std (ranked row))
        ∧ is_Some (cpm (ranked row)) ∧ is_Some (cpm_std (ranked row)).
Proof.
  apply (ranked_rows_are_defined (env := example_env) (__init__ [] [])
           ranking_example_fs unmatched_dir (accumulators_ok_init [] [])).
  unique_by_evaluation.
Defined.

(** ** The job runner *)

(** X15. A run of the external program that ends with a status other than 0
    makes [_run_edger] raise a [RuntimeError] whose message is the same for
    every sample and every output of the program: both streams print as
    [None]. *)
Theorem run_edger_error_hides_output (env : Environment) (fs : filesys) (sample : string)
    (Hfail : returncode (Rscript sample) ≠ 0%Z) :
  (_run_edger fs sample).2
  = Raise (RuntimeError
      ("EdgeR run failed!" +:+ newline +:+ newline +:+ newline
       +:+ "stdout:" +:+ newline +:+ "None"
       +:+ "stderr:" +:+ newline +:+ "None"
       +:+ newline +:+ newline +:+ newline)).
Proof.
  unfold _run_edger. cbn [child communicate stdout_pipe stderr_pipe].
  by rewrite bool_decide_eq_true_2.
Qed.

Lemma run_edger_error_hides_output_witness :
  (_run_edger (env := failing_env) empty_fs "TCGA.B2.01").2
  = Raise (RuntimeError
      ("EdgeR run failed!" +:+ newline +:+ newline +:+ newline
       +:+ "stdout:" +:+ newline +:+ "None"
       +:+ "stderr:" +:+ newline +:+ "None"
       +:+ newline +:+ newline +:+ newline)).
Proof.
  apply (run_edger_error_hides_output failing_env empty_fs "TCGA.B2.01").
  vm_compute. discriminate.
Defined.

(** X16. A run that ends with status 0 makes [_run_edger] return, whatever the
    program printed. *)
Theorem run_edger_returns_on_status_0 (env : Environment) (fs : filesys) (sample : string)
    (Hdone : returncode (Rscript sample) = 0%Z) :
  (_run_edger fs sample).2 = Ok "yay!".
Proof.
  unfold _run_edger. cbn [child communicate stdout_pipe stderr_pipe].
  by rewrite bool_decide_eq_false_2 by (by intros ?).
Qed.

Lemma run_edger_returns_on_status_0_witness :
  (_run_edger (env := failing_env) empty_fs "TCGA.A1.01").2 = Ok "yay!".
Proof.
  apply (run_edger_returns_on_status_0 failing_env empty_fs "TCGA.A1.01").
  vm_compute. reflexivity.
Defined.

Lemma replace_length (a b : Ascii.ascii) (x : string) :
  String.length (PyStr.replace a b x) = String.length x.
Proof. induction x as [|c x IH]; simpl; [done | by rewrite IH]. Qed.

Lemma replace_removes (a b : Ascii.ascii) (x : string) :
  a ≠ b → a ∉ String.list_ascii_of_string (PyStr.replace a b x).
Proof.
  intros Hab. induction x as [|c x IH]; simpl; [apply not_elem_of_nil |].
  apply not_elem_of_cons. split; [| done].
  destruct (Ascii.eqb_spec c a) as [-> | Hne]; congruence.
Qed.

Lemma replace_absent (a b : Ascii.ascii) (x : string) :
  a ∉ String.list_ascii_of_string x → PyStr.replace a b x = x.
Proof.
  induction x as [|c x IH]; simpl; [done |]. intros Hin.
  apply not_elem_of_cons in Hin as [Hne Hin]. rewrite (IH Hin).
  destruct (Ascii.eqb_spec c a) as [-> | _]; [done | done].
Qed.

(** ['c' in x] for a character [c] *)
Lemma contains_char (a : Ascii.ascii) (x : string) :
  PyStr.contains (String a EmptyString) x = false ↔ a ∉ String.list_ascii_of_string x.
Proof.
  unfold PyStr.contains. induction x as [|c x IH]; simpl.
  - split; [intros _; apply not_elem_of_nil | done].
  - rewrite not_elem_of_cons. destruct (Ascii.ascii_dec a c) as [-> | Hne].
    + destruct x; simpl; split; try done; intros [Hc _]; done.
    + destruct (String.index 0 (String a EmptyString) x); split; try done.
      * intros [_ Hin]. by apply IH in Hin.
      * intros _. split; [done | by apply IH].
Qed.

(** X17. [run_pairwise_edger] ends without an exception and stores one sample
    name for every column of the tissue table whose name has [TCGA] in it,
    in the order of the columns; no stored name has a hyphen, a column
    name without a hyphen is stored as it is, and the accumulators are not
    touched. *)
Theorem tcga_names_are_dotted (env : Environment) (st : analysis) (fs : filesys) :
  ∃ st' fs', run_pairwise_edger st fs = Ok (st', fs')
    ∧ length (self_tcga_names st')
      = length (filter (fun name => PyStr.contains "TCGA" name = true) (tissue_columns st))
    ∧ (∀ name, name ∈ self_tcga_names st' →
         PyStr.contains "-" name = false
         ∧ ∃ column, column ∈ tissue_columns st
             ∧ PyStr.contains "TCGA" column = true
             ∧ String.length name = String.length column)
    ∧ (∀ column, column ∈ tissue_columns st → PyStr.contains "TCGA" column = true →
         PyStr.contains "-" column = false → column ∈ self_tcga_names st')
    ∧ self_pvals st' = self_pvals st ∧ self_fc st' = self_fc st
    ∧ self_cpm st' = self_cpm st.
Proof.
  unfold run_pairwise_edger.
  destruct (executor_map _ _ _) as [fs' futures].
  eexists _, _. split; [reflexivity |]. cbn [self_tcga_names set_tcga_names
    self_pvals self_fc self_cpm].
  split; [by rewrite length_map |]. split; [| split; [| done]].
  - intros name Hname. apply list_elem_of_fmap in Hname as (column & -> & Hcol).
    apply list_elem_of_filter in Hcol as [Htcga Hcol]. split.
    + apply contains_char, replace_removes. discriminate.
    + exists column. by rewrite replace_length.
  - intros column Hcol Htcga Hplain. apply list_elem_of_fmap. exists column. split.
    + symmetry. by apply replace_absent, contains_char.
    + by apply list_elem_of_filter.
Qed.

(** ** The whole run *)

(** The relocation leaves in the input directory every file that is not
    listed. *)
Lemma relocate_keeps_unlisted (dfs : list string) (matched : gset string)
    (fs fs' : filesys) (name : string) :
  (∀ name, name ∈ dfs → is_Some (pairwise_results fs !! name)) →
  (∀ name, name ∈ matched → name ∈ dfs) →
  relocate dfs matched fs = Ok fs' →
  name ∉ dfs →
  pairwise_results fs' !! name = pairwise_results fs !! name.
Proof.
  intros Hex Hsub Hrun Hname. unfold relocate in Hrun.
  destruct (move_loop unmatched_dir (elements (list_to_set dfs ∖ matched)) fs)
    as (fs1 & Hloop1 & Hpw1 & _); [done | apply NoDup_elements | |].
  { intros n Hn. apply elem_of_elements, elem_of_difference in Hn as [Hn _].
    apply Hex. by apply elem_of_list_to_set in Hn. }
  destruct (move_loop matched_dir (elements matched) fs1)
    as (fs2 & Hloop2 & Hpw2 & _); [done | apply NoDup_elements | |].
  { intros n Hn. apply elem_of_elements in Hn. rewrite Hpw1.
    rewrite decide_False; [by apply Hex, Hsub |].
    rewrite elem_of_elements, elem_of_difference. tauto. }
  rewrite Hloop1, bind_ok, Hloop2 in Hrun. injection Hrun as <-.
  rewrite Hpw2, decide_False.
  - rewrite Hpw1, decide_False; [done |].
    rewrite elem_of_elements, elem_of_difference, elem_of_list_to_set. tauto.
  - rewrite elem_of_elements. intros Hm. by apply Hname, Hsub.
Qed.

(** The jobs write into [pairwise_results] only. *)
Lemma executor_map_run_edger {env : Environment} (xs : list string) (fs : filesys)
    (acc : list (future string)) :
  let out := foldl (fun acc x => let '(fs', r) := _run_edger acc.1 x in (fs', acc.2 ++ [r]))
               (fs, acc) xs in
  results_dir out.1 = results_dir fs
  ∧ masked_genes_files out.1 = masked_genes_files fs
  ∧ (∀ d, d ≠ pairwise_dir → dir out.1 d = dir fs d)
  ∧ length out.2 = (length acc + length xs)%nat.
Proof.
  revert fs acc. induction xs as [|x xs IH]; intros fs acc.
  - cbv zeta. cbn [foldl fst snd length]. split; [done |]. split; [done |].
    split; [done | by rewrite Nat.add_0_r].
  - cbv zeta. cbn [foldl fst snd]. destruct (_run_edger fs x) as [fs1 r] eqn:Hrun.
    destruct (IH fs1 (acc ++ [r])) as (Hres & Hside & Hdir & Hlen).
    assert (Hfs1 : fs1 = match result_file (Rscript x) with
                         | Some t => to_csv fs pairwise_dir (x +:+ ".tsv") t
                         | None => fs
                         end).
    { unfold _run_edger in Hrun. cbn [child communicate stdout_pipe stderr_pipe] in Hrun.
      destruct (bool_decide _); by injection Hrun as <- _. }
    assert (Hframe : results_dir fs1 = results_dir fs
                     ∧ masked_genes_files fs1 = masked_genes_files fs
                     ∧ ∀ d, d ≠ pairwise_dir → dir fs1 d = dir fs d).
    { rewrite Hfs1. destruct (result_file (Rscript x)); [| done]. unfold to_csv.
      rewrite results_dir_set_dir, masked_genes_files_set_dir.
      split; [done |]. split; [done |]. intros d Hd. by rewrite dir_set_dir_ne. }
    destruct Hframe as (Hres1 & Hside1 & Hdir1). cbv zeta in Hres, Hside, Hdir, Hlen.
    split; [by etrans; [exact Hres |] |].
    split; [by etrans; [exact Hside |] |]. split.
    + intros d Hd. etrans; [exact (Hdir d Hd) | by apply Hdir1].
    + etrans; [exact Hlen |]. rewrite length_app. cbn [length].
      by rewrite <- Nat.add_assoc.
Qed.

(** The jobs keep the indexes unique when the tables they write have
    unique indexes. *)
Lemma executor_map_unique {env : Environment} (xs : list string) (fs : filesys)
    (acc : list (future string)) :
  (∀ sample t, result_file (Rscript sample) = Some t → NoDup (index t)) →
  unique_indexes fs →
  unique_indexes
    (foldl (fun acc x => let '(fs', r) := _run_edger acc.1 x in (fs', acc.2 ++ [r]))
       (fs, acc) xs).1.
Proof.
  intros Hjobs. revert fs acc. induction xs as [|x xs IH]; intros fs acc Hfs; [done |].
  cbn [foldl fst snd]. destruct (_run_edger fs x) as [fs1 r] eqn:Hrun.
  apply IH.
  assert (Hfs1 : fs1 = match result_file (Rscript x) with
                       | Some t => to_csv fs pairwise_dir (x +:+ ".tsv") t
                       | None => fs
                       end).
  { unfold _run_edger in Hrun. cbn [child communicate stdout_pipe stderr_pipe] in Hrun.
    destruct (bool_decide _); by injection Hrun as <- _. }
  rewrite Hfs1. destruct (result_file (Rscript x)) as [t |] eqn:Ht; [| done].
  apply to_csv_unique; [done |]. by apply (Hjobs x).
Qed.

Section WholeRun.

Context {env : Environment} {laws : Lawful env}.

(** X18. On result tables with unique gene ids [read_results] ends without
    an exception, with the listing of the result files it found in
    [self.dfs] and their number in [self.num_samples]; the files of the
    input directory whose names do not end in [.tsv] are where they were,
    with their contents. *)
Theorem read_results_leaves_other_files (st : analysis) (fs : filesys)
    (Hunique : unique_indexes fs) :
  ∃ st' fs', read_results st fs = Ok (st', fs')
    ∧ self_dfs st' = result_files fs pairwise_dir
    ∧ self_num_samples st' = Some (length (result_files fs pairwise_dir))
    ∧ ∀ name, PyStr.endswith name ".tsv" = false →
        pairwise_results fs' !! name = pairwise_results fs !! name.
Proof.
  destruct (read_results_stages st fs Hunique)
    as (fs1 & fs2 & st2 & tbl1 & st3 & tbl2 & Hmasks & Hreloc & Hr1 & Hr2 & Hread
        & Hex & Hpairs & Hsub & Hpw1).
  set (dfs := result_files fs pairwise_dir) in *.
  exists st3, (write_results
                 (write_results fs2 (basename masked_dir +:+ "-ranked.tsv") tbl1)
                 (basename unmatched_dir +:+ "-ranked.tsv") tbl2).
  split; [exact Hread |].
  set (Inv := fun s : analysis =>
                self_dfs s = dfs ∧ self_num_samples s = Some (length dfs)).
  assert (Hst2 : Inv st2).
  { eapply (rank_directory_keeps Inv); [| | | exact Hr1]; done. }
  assert (Hst3 : Inv st3).
  { eapply (rank_directory_keeps Inv); [| | | exact Hr2]; done. }
  destruct Hst3 as [Hdfs Hnum]. split; [done |]. split; [done |].
  intros name Hname. cbn [pairwise_results write_results].
  rewrite <- Hpw1. apply (relocate_keeps_unlisted dfs (matched_files (matched_subjects dfs)) fs1 fs2 name).
  - intros n Hn. rewrite Hpw1. by apply Hex.
  - exact Hsub.
  - exact Hreloc.
  - intros Hin. apply elem_of_result_files in Hin as [Hend _]. congruence.
Qed.

(** X19. When the result tables that are there and those that the external
    program writes have unique gene ids, the jobs followed by
    [read_results], as [main] runs them, end without an exception, whatever
    the exit statuses and the output of the runs, and leave the two ranked
    tables in the results directory, where they change no other file. *)
Theorem main_writes_the_two_ranked_tables (columns : list string)
    (mapping : list (string * string)) (fs : filesys)
    (Hunique : unique_indexes fs)
    (Hjobs : ∀ sample t, result_file (Rscript sample) = Some t → NoDup (index t)) :
  ∃ st' fs', main columns mapping fs = Ok (st', fs')
    ∧ is_Some (results_dir fs' !! "masked_results-ranked.tsv")
    ∧ is_Some (results_dir fs' !! "unmatched_results-ranked.tsv")
    ∧ ∀ name, name ≠ "masked_results-ranked.tsv" →
        name ≠ "unmatched_results-ranked.tsv" →
        results_dir fs' !! name = results_dir fs !! name.
Proof.
  unfold main, run_pairwise_edger.
  match goal with
  | |- context [executor_map _run_edger ?xs fs] =>
      assert (Hres0 : results_dir (executor_map _run_edger xs fs).1 = results_dir fs)
        by exact (proj1 (executor_map_run_edger xs fs []));
      assert (Hunique0 : unique_indexes (executor_map _run_edger xs fs).1)
        by exact (executor_map_unique xs fs [] Hjobs Hunique)
  end.
  destruct (executor_map _ _ _) as [fs0 futures]. cbn [fst] in Hres0, Hunique0.
  rewrite bind_ok. cbn [fst snd].
  match goal with |- context [read_results ?s fs0] => set (st0 := s) end.
  destruct (read_results_stages st0 fs0 Hunique0)
    as (fs1 & fs2 & st2 & tbl1 & st3 & tbl2 & Hmasks & Hreloc & _ & _ & Hread
        & Hex & Hpairs & Hsub & Hpw1).
  destruct (produce_masks_ok fs0 _ Hpairs) as (fs1' & Hmasks' & _ & _ & _ & Hres1 & _).
  rewrite Hmasks in Hmasks'. injection Hmasks' as <-.
  destruct (relocate_ok (result_files fs0 pairwise_dir)
              (matched_files (matched_subjects (result_files fs0 pairwise_dir))) fs1)
    as (fs2' & Hreloc' & _ & _ & _ & _ & _ & _ & _ & Hres2);
    [by rewrite Hpw1 | done |].
  rewrite Hreloc in Hreloc'. injection Hreloc' as <-.
  eexists _, _. split; [exact Hread |]. cbn [results_dir write_results basename].
  change ("masked_results" +:+ "-ranked.tsv") with "masked_results-ranked.tsv".
  change ("unmatched_results" +:+ "-ranked.tsv") with "unmatched_results-ranked.tsv".
  split; [| split].
  - rewrite lookup_insert_ne by done. by rewrite lookup_insert_eq.
  - by rewrite lookup_insert_eq.
  - intros name Hn1 Hn2. rewrite !lookup_insert_ne by done.
    by rewrite Hres2, Hres1, Hres0.
Qed.

(** X20. The number of samples of a gene counts what the accumulators held
    before the pass: when the indexes of the result files are unique, the
    [num_samples] of a row is the length of the series the gene had before
    the pass plus the number of result files of the directory that have the
    gene. *)
Theorem num_samples_adds_to_earlier_passes (st : analysis) (fs : filesys) (d : directory)
    (Hnd : ∀ f t, dir fs d !! f = Some t → NoDup (index t)) :
  ∃ st' tbl,
    rank_directory (st, fs) d
    = Ok (st', write_results fs (basename d +:+ "-ranked.tsv") tbl)
    ∧ ∀ row, row ∈ tbl →
        num_samples (ranked row)
        = (length (dd_get (self_pvals st) (gene (ranked row)))
           + length (filter (fun t => gene (ranked row) ∈ index t)
                       (read_tables (dir fs d) (result_files fs d))))%nat.
Proof.
  destruct (pass_statistics st fs d Hnd) as (st' & tbl & Hrun & Hrows & Hp & _).
  exists st', tbl. split; [exact Hrun |]. intros row Hrow.
  rewrite (Hrows row Hrow). cbn [num_samples rank_gene gene].
  rewrite Hp, length_app. f_equal.
  apply series_length. by apply Forall_read_tables.
Qed.

End WholeRun.

Lemma read_results_leaves_other_files_witness :
  ∃ st' fs', read_results (env := example_env) (__init__ [] []) classifier_example_fs
             = Ok (st', fs')
    ∧ self_dfs st' = result_files (env := example_env) classifier_example_fs pairwise_dir
    ∧ self_num_samples st'
      = Some (length (result_files (env := example_env) classifier_example_fs pairwise_dir))
    ∧ ∀ name, PyStr.endswith name ".tsv" = false →
        pairwise_results fs' !! name = pairwise_results classifier_example_fs !! name.
Proof.
  apply (read_results_leaves_other_files (env := example_env) (__init__ [] [])
           classifier_example_fs).
  unique_by_evaluation.
Defined.

Lemma main_writes_the_two_ranked_tables_witness :
  ∃ st' fs', main (env := failing_env) ["GTEX-1"; "TCGA-A1-01"; "TCGA-B2-01"] [] empty_fs
             = Ok (st', fs')
    ∧ is_Some (results_dir fs' !! "masked_results-ranked.tsv")
    ∧ is_Some (results_dir fs' !! "unmatched_results-ranked.tsv")
    ∧ ∀ name, name ≠ "masked_results-ranked.tsv" →
        name ≠ "unmatched_results-ranked.tsv" →
        results_dir fs' !! name = results_dir empty_fs !! name.
Proof.
  apply (main_writes_the_two_ranked_tables (env := failing_env)
           ["GTEX-1"; "TCGA-A1-01"; "TCGA-B2-01"] [] empty_fs).
  - unique_by_evaluation.
  - intros sample t. cbn [Rscript failing_env ordered_env]. unfold failing_program.
    case_bool_decide; cbn [result_file]; [discriminate |].
    intros Ht. injection Ht as <-. compute_done.
Defined.

Lemma num_samples_adds_to_earlier_passes_witness :
  ∃ st' tbl,
    rank_directory (env := example_env) (__init__ [] [], ranking_example_fs) unmatched_dir
    = Ok (st', write_results ranking_example_fs "unmatched_results-ranked.tsv" tbl)
    ∧ ∀ row, row ∈ tbl →
        num_samples (ranked row)
        = (length (dd_get (self_pvals (__init__ [] [])) (gene (ranked row)))
           + length (filter (fun t => gene (ranked row) ∈ index t)
                       (read_tables (dir ranking_example_fs unmatched_dir)
                          (result_files (env := example_env) ranking_example_fs
                             unmatched_dir))))%nat.
Proof.
  apply (num_samples_adds_to_earlier_passes (env := example_env) (__init__ [] [])
           ranking_example_fs unmatched_dir).
  intros f t Ht.
  change (dir ranking_example_fs unmatched_dir)
    with (<["B.01.tsv" := [example_row "g1" 0.5; example_row "g2" 0.4]]>
            (∅ : gmap string table)) in Ht.
  apply lookup_insert_Some in Ht as [[_ <-] | [_ Ht]]; [compute_done |].
  by rewrite lookup_empty in Ht.
Defined.

(** ** The protein-coding genes of the annotation *)

(** The exceptions of the list operations of the annotation reader:
    [l.index(x)] raises [ValueError] when [x] is not in [l], [l[i]] raises
    [IndexError] when [i] is out of range. *)
Inductive list_exn : Type :=
  | NotInList (x : string)
  | IndexOutOfRange.

Inductive parsed (A : Type) : Type :=
  | Parsed (a : A)
  | Failed (e : list_exn).
Arguments Parsed {A} a.
Arguments Failed {A} e.

Definition and_then {A B : Type} (c : parsed A) (k : A → parsed B) : parsed B :=
  match c with
  | Parsed a => k a
  | Failed e => Failed e
  end.

Definition double_quote : Ascii.ascii := "034"%char.

(** Python's string and list operations of the annotation reader. *)
Module Py.

(** The characters at which [str.split()] cuts: space, tab, line feed,
    vertical tab, form feed and carriage return. *)
Definition is_space (c : Ascii.ascii) : bool :=
  bool_decide (c ∈ [" "%char; "009"%char; "010"%char; "011"%char; "012"%char; "013"%char]).

Fixpoint split_words (word : string) (x : string) : list string :=
  match x with
  | EmptyString => match word with EmptyString => [] | _ => [word] end
  | String c x' =>
      if is_space c
      then match word with
           | EmptyString => split_words EmptyString x'
           | _ => word :: split_words EmptyString x'
           end
      else split_words (word +:+ String c EmptyString) x'
  end.

(** [x.split()]: the words between runs of whitespace. *)
Definition split (x : string) : list string := split_words EmptyString x.

Fixpoint split_fields (sep : Ascii.ascii) (field : string) (x : string) : list string :=
  match x with
  | EmptyString => [field]
  | String c x' =>
      if Ascii.eqb c sep
      then field :: split_fields sep EmptyString x'
      else split_fields sep (field +:+ String c EmptyString) x'
  end.

(** [x.split(sep)] for a character [sep]: the fields between the
    separators, empty ones included. *)
Definition split_at (sep : Ascii.ascii) (x : string) : list string :=
  split_fields sep EmptyString x.

(** [l.index(x)] *)
Fixpoint index (l : list string) (x : string) : parsed nat :=
  match l with
  | [] => Failed (NotInList x)
  | y :: l' =>
      if bool_decide (y = x) then Parsed 0%nat
      else and_then (index l' x) (fun i => Parsed (S i))
  end.

(** [l[i]] for an index that is not negative *)
Definition item {A : Type} (l : list A) (i : nat) : parsed A :=
  match l !! i with
  | Some a => Parsed a
  | None => Failed IndexOutOfRange
  end.

End Py.

(** The word ["protein_coding";] with its quotes. *)
Definition protein_coding_word : string :=
  String double_quote ("protein_coding" +:+ String double_quote ";").

(** The body of the loop of [_remove_nonprotein_coding_genes] for one line
    of the annotation: the gene to add to [pc_genes], if any. *)
Definition protein_coding_gene (line : string) : parsed (option string) :=
  if String.prefix "#" line then Parsed None
  else
    let line := Py.split line in
    and_then (Py.index line "gene_type") (fun i =>
    and_then (Py.item line (i + 1)) (fun gene_type =>
    if bool_decide (gene_type = protein_coding_word)
    then
      and_then (Py.index line "gene_id") (fun j =>
      and_then (Py.item line (j + 1)) (fun gene_id =>
      and_then (Py.item (Py.split_at double_quote gene_id) 1) (fun gene =>
      Parsed (Some gene))))
    else Parsed None)).

(** The set [pc_genes] that [_remove_nonprotein_coding_genes] builds from
    the lines of the annotation. *)
Fixpoint collect_pc_genes (lines : list string) (pc_genes : gset string)
  : parsed (gset string) :=
  match lines with
  | [] => Parsed pc_genes
  | line :: lines' =>
      and_then (protein_coding_gene line) (fun gene =>
        collect_pc_genes lines'
          (match gene with Some g => pc_genes ∪ {[g]} | None => pc_genes end))
  end.

Definition pc_genes (lines : list string) : parsed (gset string) :=
  collect_pc_genes lines ∅.

(** A line as its words, each followed by the whitespace after it. *)
Fixpoint render (fields : list (string * string)) : string :=
  match fields with
  | [] => EmptyString
  | (word, space) :: fields' => word +:+ space +:+ render fields'
  end.

Fixpoint all_chars (p : Ascii.ascii → bool) (x : string) : bool :=
  match x with
  | EmptyString => true
  | String c x' => p c && all_chars p x'
  end.

(** A word is not empty and has no whitespace; the whitespace after it is
    not empty. *)
Definition well_formed (field : string * string) : Prop :=
  field.1 ≠ EmptyString ∧ all_chars (fun c => negb (Py.is_space c)) field.1 = true
  ∧ field.2 ≠ EmptyString ∧ all_chars Py.is_space field.2 = true.

Lemma append_nil_r (a : string) : a +:+ EmptyString = a.
Proof. induction a as [|c a IH]; [done |]. change (String c (a +:+ "") = String c a). by rewrite IH. Qed.

Lemma split_words_word (t w x : string) :
  all_chars (fun c => negb (Py.is_space c)) t = true →
  Py.split_words w (t +:+ x) = Py.split_words (w +:+ t) x.
Proof.
  revert w. induction t as [|c t IH]; intros w Ht.
  - by rewrite append_nil_r.
  - cbn [all_chars] in Ht. apply andb_true_iff in Ht as [Hc Ht].
    apply negb_true_iff in Hc.
    change (String c t +:+ x) with (String c (t +:+ x)). cbn [Py.split_words].
    rewrite Hc, (IH _ Ht), append_assoc. done.
Qed.

Lemma split_words_space (s x : string) :
  all_chars Py.is_space s = true →
  Py.split_words EmptyString (s +:+ x) = Py.split_words EmptyString x.
Proof.
  induction s as [|c s IH]; intros Hs; [done |].
  cbn [all_chars] in Hs. apply andb_true_iff in Hs as [Hc Hs].
  change (String c s +:+ x) with (String c (s +:+ x)). cbn [Py.split_words].
  rewrite Hc. by apply IH.
Qed.

Lemma split_words_end (s w x : string) :
  w ≠ EmptyString → s ≠ EmptyString → all_chars Py.is_space s = true →
  Py.split_words w (s +:+ x) = w :: Py.split_words EmptyString x.
Proof.
  intros Hw Hne Hs. destruct s as [|c s]; [done |].
  cbn [all_chars] in Hs. apply andb_true_iff in Hs as [Hc Hs].
  change (String c s +:+ x) with (String c (s +:+ x)). cbn [Py.split_words].
  rewrite Hc. destruct w; [done |]. f_equal. by apply split_words_space.
Qed.

(** [split] gives back the words of a line. *)
Lemma split_render (fields : list (string * string)) :
  Forall well_formed fields → Py.split (render fields) = map fst fields.
Proof.
  unfold Py.split. induction 1 as [|[t s] fields (Ht & Hword & Hs & Hspace) _ IH]; [done |].
  cbn [render map fst]. simpl in Ht, Hword, Hs, Hspace.
  rewrite split_words_word by done.
  change (EmptyString +:+ t) with t.
  rewrite split_words_end by done. by rewrite IH.
Qed.

Lemma split_fields_field (sep : Ascii.ascii) (t w x : string) :
  all_chars (fun c => negb (Ascii.eqb c sep)) t = true →
  Py.split_fields sep w (t +:+ x) = Py.split_fields sep (w +:+ t) x.
Proof.
  revert w. induction t as [|c t IH]; intros w Ht.
  - by rewrite append_nil_r.
  - cbn [all_chars] in Ht. apply andb_true_iff in Ht as [Hc Ht].
    apply negb_true_iff in Hc.
    change (String c t +:+ x) with (String c (t +:+ x)). cbn [Py.split_fields].
    rewrite Hc, (IH _ Ht), append_assoc. done.
Qed.

Lemma list_index_app (before rest : list string) (x : string) :
  x ∉ before → Py.index (before ++ x :: rest) x = Parsed (length before).
Proof.
  induction before as [|y before IH]; intros Hx; simpl.
  - by rewrite bool_decide_eq_true_2.
  - apply not_elem_of_cons in Hx as [Hne Hx].
    rewrite bool_decide_eq_false_2 by congruence. by rewrite IH.
Qed.

Lemma item_app {A : Type} (before rest : list A) (x y : A) :
  Py.item (before ++ x :: y :: rest) (length before + 1) = Parsed y.
Proof.
  unfold Py.item. rewrite lookup_app_r by lia.
  by replace (length before + 1 - length before)%nat with 1%nat by lia.
Qed.

Lemma collect_pc_genes_spec (lines : list string) (acc : gset string) :
  match collect_pc_genes lines acc with
  | Parsed pc =>
      Forall (fun line => ∃ gene, protein_coding_gene line = Parsed gene) lines
      ∧ ∀ g, g ∈ pc ↔ g ∈ acc ∨ ∃ line, line ∈ lines ∧ protein_coding_gene line = Parsed (Some g)
  | Failed e => ∃ line, line ∈ lines ∧ protein_coding_gene line = Failed e
  end.
Proof.
  revert acc. induction lines as [|line lines IH]; intros acc.
  - simpl. split; [done |]. intros g. split; [by left |].
    intros [Hg | (line & Hline & _)]; [done | by apply elem_of_nil in Hline].
  - cbn [collect_pc_genes].
    destruct (protein_coding_gene line) as [gene | e] eqn:Hline; cbn [and_then].
    + specialize (IH (match gene with Some g => acc ∪ {[g]} | None => acc end)).
      destruct (collect_pc_genes lines _) as [pc | e].
      * destruct IH as [Hall Hpc]. split; [apply Forall_cons; eauto |].
        intros g. rewrite Hpc. split.
        -- intros [Hg | (l & Hl & Hgl)].
           ++ destruct gene as [g' |]; [| by left].
              apply elem_of_union in Hg as [Hg | Hg]; [by left |].
              apply elem_of_singleton in Hg as ->. right. exists line.
              split; [left | done].
           ++ right. exists l. split; [by right | done].
        -- intros [Hg | (l & Hl & Hgl)].
           ++ left. destruct gene; [apply elem_of_union |]; auto.
           ++ apply elem_of_cons in Hl as [-> | Hl].
              ** left. rewrite Hline in Hgl. injection Hgl as ->.
                 apply elem_of_union. right. by apply elem_of_singleton.
              ** right. eauto.
      * destruct IH as (l & Hl & Hfail). exists l. split; [by right | done].
    + exists line. split; [left | done].
Qed.

(** X21. A line of whitespace only, such as an empty line of the annotation,
    makes the reader raise [ValueError]: it has no word [gene_type]. *)
Theorem blank_line_raises (line : string) (Hblank : all_chars Py.is_space line = true) :
  protein_coding_gene line = Failed (NotInList "gene_type")
  ∧ ∀ before after, Forall (fun l => ∃ gene, protein_coding_gene l = Parsed gene) before →
      pc_genes (before ++ line :: after) = Failed (NotInList "gene_type").
Proof.
  assert (Hline : protein_coding_gene line = Failed (NotInList "gene_type")).
  { unfold protein_coding_gene.
    assert (Hhash : String.prefix "#" line = false).
    { destruct line as [|c line]; [done |]. cbn [all_chars] in Hblank.
      apply andb_true_iff in Hblank as [Hc _]. cbn [String.prefix].
      destruct (Ascii.ascii_dec "#" c) as [<- | _]; [| done].
      vm_compute in Hc. discriminate Hc. }
    rewrite Hhash. unfold Py.split.
    rewrite <- (append_nil_r line), split_words_space by done. done. }
  split; [exact Hline |]. intros before after Hbefore. unfold pc_genes.
  generalize (∅ : gset string). induction Hbefore as [|l before [gene Hl] _ IH]; intros acc.
  - cbn [app collect_pc_genes]. by rewrite Hline.
  - cbn [app collect_pc_genes]. rewrite Hl. cbn [and_then]. apply IH.
Qed.

Lemma blank_line_raises_witness :
  protein_coding_gene newline = Failed (NotInList "gene_type")
  ∧ ∀ before after, Forall (fun l => ∃ gene, protein_coding_gene l = Parsed gene) before →
      pc_genes (before ++ newline :: after) = Failed (NotInList "gene_type").
Proof. apply (blank_line_raises newline). reflexivity. Defined.

(** X22. A record of the annotation that has the word [gene_id], followed by a
    quoted identifier, before the word [gene_type], followed by
    ["protein_coding";], gives the identifier without its quotes, whatever
    whitespace separates the words. *)
Theorem protein_coding_record_is_collected (fields : list (string * string))
    (before middle rest : list string) (gene : string)
    (Hfields : Forall well_formed fields)
    (Hrecord : String.prefix "#" (render fields) = false)
    (Hwords : map fst fields
              = before ++ "gene_id"
                  :: String double_quote (gene +:+ String double_quote ";")
                  :: middle ++ "gene_type" :: protein_coding_word :: rest)
    (Hid : "gene_id" ∉ before)
    (Htype : "gene_type" ∉ before ++ middle)
    (Hgene : all_chars (fun c => negb (Ascii.eqb c double_quote)) gene = true) :
  protein_coding_gene (render fields) = Parsed (Some gene).
Proof.
  unfold protein_coding_gene. rewrite Hrecord, (split_render _ Hfields), Hwords.
  apply not_elem_of_app in Htype as [Htype1 Htype2].
  set (quoted := String double_quote (gene +:+ String double_quote ";")).
  assert (Hq : quoted ≠ "gene_type") by done.
  replace (before ++ "gene_id" :: quoted :: middle ++ "gene_type" :: protein_coding_word :: rest)
    with ((before ++ "gene_id" :: quoted :: middle)
            ++ "gene_type" :: protein_coding_word :: rest)
    by (by rewrite <- app_assoc).
  rewrite list_index_app; cycle 1.
  { rewrite not_elem_of_app, !not_elem_of_cons. done. }
  cbn [and_then]. rewrite item_app. cbn [and_then].
  rewrite bool_decide_eq_true_2 by done.
  rewrite <- app_assoc. cbn [app].
  rewrite list_index_app by done. cbn [and_then]. rewrite item_app. cbn [and_then].
  unfold quoted, Py.split_at. cbn [Py.split_fields].
  change (Ascii.eqb double_quote double_quote) with true. cbn iota.
  rewrite split_fields_field by done. done.
Qed.

(** X23. A record whose first [gene_type] is followed by another word than
    ["protein_coding";] adds no gene. *)
Theorem other_record_is_skipped (fields : list (string * string))
    (before rest : list string) (type : string)
    (Hfields : Forall well_formed fields)
    (Hwords : map fst fields = before ++ "gene_type" :: type :: rest)
    (Htype : "gene_type" ∉ before)
    (Hother : type ≠ protein_coding_word) :
  protein_coding_gene (render fields) = Parsed None.
Proof.
  unfold protein_coding_gene. destruct (String.prefix "#" (render fields)); [done |].
  rewrite (split_render _ Hfields), Hwords, list_index_app by done.
  cbn [and_then]. rewrite item_app. cbn [and_then].
  by rewrite bool_decide_eq_false_2.
Qed.

(** X24. The set of protein-coding genes does not depend on the order of the
    lines of the annotation, and a gene of many records is in it once: when
    the reader ends without an exception on the lines, it does on every
    rearrangement of them, with the same set, whose members are the genes
    given by the lines. *)
Theorem pc_genes_of_rearranged_lines (lines lines' : list string) (pc : gset string)
    (Hperm : lines ≡ₚ lines') (Hrun : pc_genes lines = Parsed pc) :
  pc_genes lines' = Parsed pc
  ∧ ∀ g, g ∈ pc ↔ ∃ line, line ∈ lines ∧ protein_coding_gene line = Parsed (Some g).
Proof.
  unfold pc_genes in *.
  pose proof (collect_pc_genes_spec lines ∅) as Hspec. rewrite Hrun in Hspec.
  destruct Hspec as [Hall Hpc].
  assert (Hmem : ∀ g, g ∈ pc ↔
            ∃ line, line ∈ lines ∧ protein_coding_gene line = Parsed (Some g)).
  { intros g. rewrite Hpc. split; [| by right]. intros [Hg | Hg]; [| done].
    by apply elem_of_empty in Hg. }
  split; [| exact Hmem].
  pose proof (collect_pc_genes_spec lines' ∅) as Hspec'.
  destruct (collect_pc_genes lines' ∅) as [pc' | e].
  - destruct Hspec' as [_ Hpc']. f_equal. apply set_eq. intros g.
    rewrite Hpc', Hmem. split.
    + intros [Hg | (l & Hl & Hg)]; [by apply elem_of_empty in Hg |].
      exists l. by rewrite Hperm.
    + intros (l & Hl & Hg). right. exists l. by rewrite <- Hperm.
  - destruct Hspec' as (l & Hl & Hfail). rewrite <- Hperm in Hl.
    rewrite Forall_forall in Hall. destruct (Hall l Hl) as [gene Hgene]. congruence.
Qed.

(** A record of the annotation for the witnesses: three columns separated
    by tabs, then the attributes [gene_id] and [gene_type]. *)
Definition example_fields (gene type : string) : list (string * string) :=
  [("chr1", String "009"%char EmptyString); ("HAVANA", String "009"%char EmptyString);
   ("gene", String "009"%char EmptyString);
   ("gene_id", " "); (String double_quote (gene +:+ String double_quote ";"), " ");
   ("gene_type", " "); (String double_quote (type +:+ String double_quote ";"), newline)].

Lemma example_fields_well_formed (gene type : string) :
  all_chars (fun c => negb (Py.is_space c)) gene = true →
  all_chars (fun c => negb (Py.is_space c)) type = true →
  Forall well_formed (example_fields gene type).
Proof.
  intros Hgene Htype.
  assert (Hquoted : ∀ x, all_chars (fun c => negb (Py.is_space c)) x = true →
            all_chars (fun c => negb (Py.is_space c))
              (String double_quote (x +:+ String double_quote ";")) = true).
  { intros x Hx. cbn [all_chars]. apply andb_true_iff. split; [done |].
    induction x as [|c x IH]; [done |]. cbn [all_chars] in Hx.
    apply andb_true_iff in Hx as [Hc Hx].
    change (String c x +:+ String double_quote ";")
      with (String c (x +:+ String double_quote ";")).
    cbn [all_chars]. rewrite Hc. by apply IH. }
  assert (Hwf : ∀ w s : string, w ≠ EmptyString →
            all_chars (fun c => negb (Py.is_space c)) w = true →
            s ≠ EmptyString → all_chars Py.is_space s = true → well_formed (w, s)).
  { intros w s Hw Hword Hs Hspace. by repeat split. }
  unfold example_fields, newline.
  repeat (apply Forall_cons; split;
            [apply Hwf; [done | first [by apply Hquoted | reflexivity] | done | reflexivity] |]).
  apply Forall_nil_2.
Qed.

Lemma protein_coding_record_is_collected_witness :
  protein_coding_gene (render (example_fields "ENSG1" "protein_coding"))
  = Parsed (Some "ENSG1").
Proof.
  apply (protein_coding_record_is_collected (example_fields "ENSG1" "protein_coding")
           ["chr1"; "HAVANA"; "gene"] [] []).
  - by apply example_fields_well_formed.
  - reflexivity.
  - reflexivity.
  - compute_done.
  - compute_done.
  - reflexivity.
Defined.

Lemma other_record_is_skipped_witness :
  protein_coding_gene (render (example_fields "ENSG2" "lincRNA")) = Parsed None.
Proof.
  apply (other_record_is_skipped (example_fields "ENSG2" "lincRNA")
           ["chr1"; "HAVANA"; "gene"; "gene_id";
            String double_quote ("ENSG2" +:+ String double_quote ";")]
           [] (String double_quote ("lincRNA" +:+ String double_quote ";"))).
  - by apply example_fields_well_formed.
  - reflexivity.
  - compute_done.
  - discriminate.
Defined.

Lemma pc_genes_of_rearranged_lines_witness :
  pc_genes [render (example_fields "ENSG1" "protein_coding");
            render (example_fields "ENSG2" "lincRNA")]
  = Parsed (∅ ∪ {["ENSG1"]})
  ∧ ∀ g, g ∈ (∅ ∪ {["ENSG1"]} : gset string) ↔
      ∃ line, line ∈ [render (example_fields "ENSG2" "lincRNA");
                      render (example_fields "ENSG1" "protein_coding")]
              ∧ protein_coding_gene line = Parsed (Some g).
Proof.
  apply (pc_genes_of_rearranged_lines
           [render (example_fields "ENSG2" "lincRNA");
            render (example_fields "ENSG1" "protein_coding")]).
  - apply perm_swap.
  - vm_compute. reflexivity.
Defined.

(** ** Result files with a repeated gene id *)




Section RepeatedGeneId.

Context {env : Environment} {laws : Lawful env}.



End RepeatedGeneId.



(** The same file in the input directory: [read_results] moves it to the
    unmatched area and ends in the exception of the second pass. *)
Example repeated_gene_id_stops_read_results :
  read_results (env := example_env) (__init__ [] [])
    (set_dir empty_fs pairwise_dir
       (<["B.01.tsv" := [example_row "g1" 0.5; example_row "g1" 0.0001]]> ∅))
  = Raise (ValueError ambiguous_truth_value).
Proof. vm_compute. reflexivity. Qed.
